(** * The Consciousness Emergence Game: grid, activation engine, pattern
      detector, scorer and turn controller

    Shallow embedding of
    [competitions/game_implementation/consciousness_emergence_game.py].

    Conventions of the embedding.
    - Python [int] is [Z] (coordinates) or [nat] (lengths, ids, counters).
    - Python [float] is idealised as a real number ([R]); [np.tanh], [np.sin],
      [np.sqrt] and [np.pi] are [tanh], [sin], [sqrt] and [PI].
    - Python [str] is a [string] holding the UTF-8 encoding of the text.
    - The registry [self.neurons] is a dict whose key is always
      [len(self.neurons)] at insertion time: its keys are [0 .. n-1] in
      insertion order.  It is modelled by the list of its values, the key of
      a neuron being its position.
    - A grid cell holds a reference to a neuron object that also lives in the
      registry.  The reference is modelled by the registry key, so that a
      mutation of the object is seen through both.
    - A call either returns or raises; the state reached is kept in both
      cases, since a Python exception does not roll back earlier mutations. *)

From Stdlib Require Import String Ascii.
From Stdlib Require Import List ZArith Arith Bool Lia.
From Stdlib Require Import Reals Lra.
From Stdlib Require Import DecimalString.
Import ListNotations.

(** ** Python runtime: exceptions, sequence indexing, dicts *)

Inductive Exn : Type :=
| KeyError
| IndexError
| ZeroDivisionError.

Inductive Outcome (A : Type) : Type :=
| Return (a : A)
| Raise (e : Exn).

Arguments Return {A} a.
Arguments Raise {A} e.

(** [l[i]] for a list of length [len]: the position read, with Python's
    negative indices counting from the end; [None] is an [IndexError]. *)
Definition py_index (len : nat) (i : Z) : option nat :=
  if ((0 <=? i) && (i <? Z.of_nat len))%Z then Some (Z.to_nat i)
  else if ((- Z.of_nat len <=? i) && (i <? 0))%Z
       then Some (Z.to_nat (Z.of_nat len + i))
       else None.

Definition getitem {A} (l : list A) (i : Z) : option A :=
  match py_index (length l) i with
  | Some k => nth_error l k
  | None => None
  end.

Fixpoint list_set {A} (l : list A) (k : nat) (v : A) : list A :=
  match l, k with
  | [], _ => []
  | _ :: t, O => v :: t
  | h :: t, S k' => h :: list_set t k' v
  end.

(** [l[i] = v]; out of range the list is returned as it is (the callers
    below only assign where a read at the same index succeeded). *)
Definition setitem {A} (l : list A) (i : Z) (v : A) : list A :=
  match py_index (length l) i with
  | Some k => list_set l k v
  | None => l
  end.

(** A dict with string keys, in insertion order. *)
Fixpoint dict_get {V} (d : list (string * V)) (k : string) : option V :=
  match d with
  | [] => None
  | (k', v) :: t => if String.eqb k' k then Some v else dict_get t k
  end.

Fixpoint dict_set {V} (d : list (string * V)) (k : string) (v : V)
  : list (string * V) :=
  match d with
  | [] => [(k, v)]
  | (k', v') :: t =>
      if String.eqb k' k then (k', v) :: t else (k', v') :: dict_set t k v
  end.

(** *** [str.upper()]

    A Python [str] is a sequence of code points; it is modelled by its UTF-8
    encoding, so that a code point is one to four bytes. [str.upper()] maps
    every code point by itself, whatever surrounds it, to its upper-case
    form, which is one, two or three code points long, and concatenates the
    results. *)

(** The ASCII letters: [a .. z] move down by 32. *)
Definition upper_ascii (c : ascii) : ascii :=
  let n := nat_of_ascii c in
  if (97 <=? n) && (n <=? 122) then ascii_of_nat (n - 32) else c.

(** Every other code point that has an upper-case form other than itself,
    with that form: the full case mapping of the Unicode character database
    (version 14.0, the one of CPython 3.11), that is the simple mappings of
    [UnicodeData.txt] overridden by the unconditional ones of
    [SpecialCasing.txt]. *)
Definition upper_table : list (string * string) :=
  [("µ", "Μ"); ("ß", "SS"); ("à", "À"); ("á", "Á"); ("â", "Â"); ("ã", "Ã");
   ("ä", "Ä"); ("å", "Å"); ("æ", "Æ"); ("ç", "Ç"); ("è", "È"); ("é", "É");
   ("ê", "Ê"); ("ë", "Ë"); ("ì", "Ì"); ("í", "Í"); ("î", "Î"); ("ï", "Ï");
   ("ð", "Ð"); ("ñ", "Ñ"); ("ò", "Ò"); ("ó", "Ó"); ("ô", "Ô"); ("õ", "Õ");
   ("ö", "Ö"); ("ø", "Ø"); ("ù", "Ù"); ("ú", "Ú"); ("û", "Û"); ("ü", "Ü");
   ("ý", "Ý"); ("þ", "Þ"); ("ÿ", "Ÿ"); ("ā", "Ā"); ("ă", "Ă"); ("ą", "Ą");
   ("ć", "Ć"); ("ĉ", "Ĉ"); ("ċ", "Ċ"); ("č", "Č"); ("ď", "Ď"); ("đ", "Đ");
   ("ē", "Ē"); ("ĕ", "Ĕ"); ("ė", "Ė"); ("ę", "Ę"); ("ě", "Ě"); ("ĝ", "Ĝ");
   ("ğ", "Ğ"); ("ġ", "Ġ"); ("ģ", "Ģ"); ("ĥ", "Ĥ"); ("ħ", "Ħ"); ("ĩ", "Ĩ");
   ("ī", "Ī"); ("ĭ", "Ĭ"); ("į", "Į"); ("ı", "I"); ("ĳ", "Ĳ"); ("ĵ", "Ĵ");
   ("ķ", "Ķ"); ("ĺ", "Ĺ"); ("ļ", "Ļ"); ("ľ", "Ľ"); ("ŀ", "Ŀ"); ("ł", "Ł");
   ("ń", "Ń"); ("ņ", "Ņ"); ("ň", "Ň"); ("ŉ", "ʼN"); ("ŋ", "Ŋ"); ("ō", "Ō");
   ("ŏ", "Ŏ"); ("ő", "Ő"); ("œ", "Œ"); ("ŕ", "Ŕ"); ("ŗ", "Ŗ"); ("ř", "Ř");
   ("ś", "Ś"); ("ŝ", "Ŝ"); ("ş", "Ş"); ("š", "Š"); ("ţ", "Ţ"); ("ť", "Ť");
   ("ŧ", "Ŧ"); ("ũ", "Ũ"); ("ū", "Ū"); ("ŭ", "Ŭ"); ("ů", "Ů"); ("ű", "Ű");
   ("ų", "Ų"); ("ŵ", "Ŵ"); ("ŷ", "Ŷ"); ("ź", "Ź"); ("ż", "Ż"); ("ž", "Ž");
   ("ſ", "S"); ("ƀ", "Ƀ"); ("ƃ", "Ƃ"); ("ƅ", "Ƅ"); ("ƈ", "Ƈ"); ("ƌ", "Ƌ");
   ("ƒ", "Ƒ"); ("ƕ", "Ƕ"); ("ƙ", "Ƙ"); ("ƚ", "Ƚ"); ("ƞ", "Ƞ"); ("ơ", "Ơ");
   ("ƣ", "Ƣ"); ("ƥ", "Ƥ"); ("ƨ", "Ƨ"); ("ƭ", "Ƭ"); ("ư", "Ư"); ("ƴ", "Ƴ");
   ("ƶ", "Ƶ"); ("ƹ", "Ƹ"); ("ƽ", "Ƽ"); ("ƿ", "Ƿ"); ("ǅ", "Ǆ"); ("ǆ", "Ǆ");
   ("ǈ", "Ǉ"); ("ǉ", "Ǉ"); ("ǋ", "Ǌ"); ("ǌ", "Ǌ"); ("ǎ", "Ǎ"); ("ǐ", "Ǐ");
   ("ǒ", "Ǒ"); ("ǔ", "Ǔ"); ("ǖ", "Ǖ"); ("ǘ", "Ǘ"); ("ǚ", "Ǚ"); ("ǜ", "Ǜ");
   ("ǝ", "Ǝ"); ("ǟ", "Ǟ"); ("ǡ", "Ǡ"); ("ǣ", "Ǣ"); ("ǥ", "Ǥ"); ("ǧ", "Ǧ");
   ("ǩ", "Ǩ"); ("ǫ", "Ǫ"); ("ǭ", "Ǭ"); ("ǯ", "Ǯ"); ("ǰ", "J̌"); ("ǲ", "Ǳ");
   ("ǳ", "Ǳ"); ("ǵ", "Ǵ"); ("ǹ", "Ǹ"); ("ǻ", "Ǻ"); ("ǽ", "Ǽ"); ("ǿ", "Ǿ");
   ("ȁ", "Ȁ"); ("ȃ", "Ȃ"); ("ȅ", "Ȅ"); ("ȇ", "Ȇ"); ("ȉ", "Ȉ"); ("ȋ", "Ȋ");
   ("ȍ", "Ȍ"); ("ȏ", "Ȏ"); ("ȑ", "Ȑ"); ("ȓ", "Ȓ"); ("ȕ", "Ȕ"); ("ȗ", "Ȗ");
   ("ș", "Ș"); ("ț", "Ț"); ("ȝ", "Ȝ"); ("ȟ", "Ȟ"); ("ȣ", "Ȣ"); ("ȥ", "Ȥ");
   ("ȧ", "Ȧ"); ("ȩ", "Ȩ"); ("ȫ", "Ȫ"); ("ȭ", "Ȭ"); ("ȯ", "Ȯ"); ("ȱ", "Ȱ");
   ("ȳ", "Ȳ"); ("ȼ", "Ȼ"); ("ȿ", "Ȿ"); ("ɀ", "Ɀ"); ("ɂ", "Ɂ"); ("ɇ", "Ɇ");
   ("ɉ", "Ɉ"); ("ɋ", "Ɋ"); ("ɍ", "Ɍ"); ("ɏ", "Ɏ"); ("ɐ", "Ɐ"); ("ɑ", "Ɑ");
   ("ɒ", "Ɒ"); ("ɓ", "Ɓ"); ("ɔ", "Ɔ"); ("ɖ", "Ɖ"); ("ɗ", "Ɗ"); ("ə", "Ə");
   ("ɛ", "Ɛ"); ("ɜ", "Ɜ"); ("ɠ", "Ɠ"); ("ɡ", "Ɡ"); ("ɣ", "Ɣ"); ("ɥ", "Ɥ");
   ("ɦ", "Ɦ"); ("ɨ", "Ɨ"); ("ɩ", "Ɩ"); ("ɪ", "Ɪ"); ("ɫ", "Ɫ"); ("ɬ", "Ɬ");
   ("ɯ", "Ɯ"); ("ɱ", "Ɱ"); ("ɲ", "Ɲ"); ("ɵ", "Ɵ"); ("ɽ", "Ɽ"); ("ʀ", "Ʀ");
   ("ʂ", "Ʂ"); ("ʃ", "Ʃ"); ("ʇ", "Ʇ"); ("ʈ", "Ʈ"); ("ʉ", "Ʉ"); ("ʊ", "Ʊ");
   ("ʋ", "Ʋ"); ("ʌ", "Ʌ"); ("ʒ", "Ʒ"); ("ʝ", "Ʝ"); ("ʞ", "Ʞ"); ("ͅ", "Ι");
   ("ͱ", "Ͱ"); ("ͳ", "Ͳ"); ("ͷ", "Ͷ"); ("ͻ", "Ͻ"); ("ͼ", "Ͼ"); ("ͽ", "Ͽ");
   ("ΐ", "Ϊ́"); ("ά", "Ά"); ("έ", "Έ"); ("ή", "Ή"); ("ί", "Ί");
   ("ΰ", "Ϋ́"); ("α", "Α"); ("β", "Β"); ("γ", "Γ"); ("δ", "Δ"); ("ε", "Ε");
   ("ζ", "Ζ"); ("η", "Η"); ("θ", "Θ"); ("ι", "Ι"); ("κ", "Κ"); ("λ", "Λ");
   ("μ", "Μ"); ("ν", "Ν"); ("ξ", "Ξ"); ("ο", "Ο"); ("π", "Π"); ("ρ", "Ρ");
   ("ς", "Σ"); ("σ", "Σ"); ("τ", "Τ"); ("υ", "Υ"); ("φ", "Φ"); ("χ", "Χ");
   ("ψ", "Ψ"); ("ω", "Ω"); ("ϊ", "Ϊ"); ("ϋ", "Ϋ"); ("ό", "Ό"); ("ύ", "Ύ");
   ("ώ", "Ώ"); ("ϐ", "Β"); ("ϑ", "Θ"); ("ϕ", "Φ"); ("ϖ", "Π"); ("ϗ", "Ϗ");
   ("ϙ", "Ϙ"); ("ϛ", "Ϛ"); ("ϝ", "Ϝ"); ("ϟ", "Ϟ"); ("ϡ", "Ϡ"); ("ϣ", "Ϣ");
   ("ϥ", "Ϥ"); ("ϧ", "Ϧ"); ("ϩ", "Ϩ"); ("ϫ", "Ϫ"); ("ϭ", "Ϭ"); ("ϯ", "Ϯ");
   ("ϰ", "Κ"); ("ϱ", "Ρ"); ("ϲ", "Ϲ"); ("ϳ", "Ϳ"); ("ϵ", "Ε"); ("ϸ", "Ϸ");
   ("ϻ", "Ϻ"); ("а", "А"); ("б", "Б"); ("в", "В"); ("г", "Г"); ("д", "Д");
   ("е", "Е"); ("ж", "Ж"); ("з", "З"); ("и", "И"); ("й", "Й"); ("к", "К");
   ("л", "Л"); ("м", "М"); ("н", "Н"); ("о", "О"); ("п", "П"); ("р", "Р");
   ("с", "С"); ("т", "Т"); ("у", "У"); ("ф", "Ф"); ("х", "Х"); ("ц", "Ц");
   ("ч", "Ч"); ("ш", "Ш"); ("щ", "Щ"); ("ъ", "Ъ"); ("ы", "Ы"); ("ь", "Ь");
   ("э", "Э"); ("ю", "Ю"); ("я", "Я"); ("ѐ", "Ѐ"); ("ё", "Ё"); ("ђ", "Ђ");
   ("ѓ", "Ѓ"); ("є", "Є"); ("ѕ", "Ѕ"); ("і", "І"); ("ї", "Ї"); ("ј", "Ј");
   ("љ", "Љ"); ("њ", "Њ"); ("ћ", "Ћ"); ("ќ", "Ќ"); ("ѝ", "Ѝ"); ("ў", "Ў");
   ("џ", "Џ"); ("ѡ", "Ѡ"); ("ѣ", "Ѣ"); ("ѥ", "Ѥ"); ("ѧ", "Ѧ"); ("ѩ", "Ѩ");
   ("ѫ", "Ѫ"); ("ѭ", "Ѭ"); ("ѯ", "Ѯ"); ("ѱ", "Ѱ"); ("ѳ", "Ѳ"); ("ѵ", "Ѵ");
   ("ѷ", "Ѷ"); ("ѹ", "Ѹ"); ("ѻ", "Ѻ"); ("ѽ", "Ѽ"); ("ѿ", "Ѿ"); ("ҁ", "Ҁ");
   ("ҋ", "Ҋ"); ("ҍ", "Ҍ"); ("ҏ", "Ҏ"); ("ґ", "Ґ"); ("ғ", "Ғ"); ("ҕ", "Ҕ");
   ("җ", "Җ"); ("ҙ", "Ҙ"); ("қ", "Қ"); ("ҝ", "Ҝ"); ("ҟ", "Ҟ"); ("ҡ", "Ҡ");
   ("ң", "Ң"); ("ҥ", "Ҥ"); ("ҧ", "Ҧ"); ("ҩ", "Ҩ"); ("ҫ", "Ҫ"); ("ҭ", "Ҭ");
   ("ү", "Ү"); ("ұ", "Ұ"); ("ҳ", "Ҳ"); ("ҵ", "Ҵ"); ("ҷ", "Ҷ"); ("ҹ", "Ҹ");
   ("һ", "Һ"); ("ҽ", "Ҽ"); ("ҿ", "Ҿ"); ("ӂ", "Ӂ"); ("ӄ", "Ӄ"); ("ӆ", "Ӆ");
   ("ӈ", "Ӈ"); ("ӊ", "Ӊ"); ("ӌ", "Ӌ"); ("ӎ", "Ӎ"); ("ӏ", "Ӏ"); ("ӑ", "Ӑ");
   ("ӓ", "Ӓ"); ("ӕ", "Ӕ"); ("ӗ", "Ӗ"); ("ә", "Ә"); ("ӛ", "Ӛ"); ("ӝ", "Ӝ");
   ("ӟ", "Ӟ"); ("ӡ", "Ӡ"); ("ӣ", "Ӣ"); ("ӥ", "Ӥ"); ("ӧ", "Ӧ"); ("ө", "Ө");
   ("ӫ", "Ӫ"); ("ӭ", "Ӭ"); ("ӯ", "Ӯ"); ("ӱ", "Ӱ"); ("ӳ", "Ӳ"); ("ӵ", "Ӵ");
   ("ӷ", "Ӷ"); ("ӹ", "Ӹ"); ("ӻ", "Ӻ"); ("ӽ", "Ӽ"); ("ӿ", "Ӿ"); ("ԁ", "Ԁ");
   ("ԃ", "Ԃ"); ("ԅ", "Ԅ"); ("ԇ", "Ԇ"); ("ԉ", "Ԉ"); ("ԋ", "Ԋ"); ("ԍ", "Ԍ");
   ("ԏ", "Ԏ"); ("ԑ", "Ԑ"); ("ԓ", "Ԓ"); ("ԕ", "Ԕ"); ("ԗ", "Ԗ"); ("ԙ", "Ԙ");
   ("ԛ", "Ԛ"); ("ԝ", "Ԝ"); ("ԟ", "Ԟ"); ("ԡ", "Ԡ"); ("ԣ", "Ԣ"); ("ԥ", "Ԥ");
   ("ԧ", "Ԧ"); ("ԩ", "Ԩ"); ("ԫ", "Ԫ"); ("ԭ", "Ԭ"); ("ԯ", "Ԯ"); ("ա", "Ա");
   ("բ", "Բ"); ("գ", "Գ"); ("դ", "Դ"); ("ե", "Ե"); ("զ", "Զ"); ("է", "Է");
   ("ը", "Ը"); ("թ", "Թ"); ("ժ", "Ժ"); ("ի", "Ի"); ("լ", "Լ"); ("խ", "Խ");
   ("ծ", "Ծ"); ("կ", "Կ"); ("հ", "Հ"); ("ձ", "Ձ"); ("ղ", "Ղ"); ("ճ", "Ճ");
   ("մ", "Մ"); ("յ", "Յ"); ("ն", "Ն"); ("շ", "Շ"); ("ո", "Ո"); ("չ", "Չ");
   ("պ", "Պ"); ("ջ", "Ջ"); ("ռ", "Ռ"); ("ս", "Ս"); ("վ", "Վ"); ("տ", "Տ");
   ("ր", "Ր"); ("ց", "Ց"); ("ւ", "Ւ"); ("փ", "Փ"); ("ք", "Ք"); ("օ", "Օ");
   ("ֆ", "Ֆ"); ("և", "ԵՒ"); ("ა", "Ა"); ("ბ", "Ბ"); ("გ", "Გ"); ("დ", "Დ");
   ("ე", "Ე"); ("ვ", "Ვ"); ("ზ", "Ზ"); ("თ", "Თ"); ("ი", "Ი"); ("კ", "Კ");
   ("ლ", "Ლ"); ("მ", "Მ"); ("ნ", "Ნ"); ("ო", "Ო"); ("პ", "Პ"); ("ჟ", "Ჟ");
   ("რ", "Რ"); ("ს", "Ს"); ("ტ", "Ტ"); ("უ", "Უ"); ("ფ", "Ფ"); ("ქ", "Ქ");
   ("ღ", "Ღ"); ("ყ", "Ყ"); ("შ", "Შ"); ("ჩ", "Ჩ"); ("ც", "Ც"); ("ძ", "Ძ");
   ("წ", "Წ"); ("ჭ", "Ჭ"); ("ხ", "Ხ"); ("ჯ", "Ჯ"); ("ჰ", "Ჰ"); ("ჱ", "Ჱ");
   ("ჲ", "Ჲ"); ("ჳ", "Ჳ"); ("ჴ", "Ჴ"); ("ჵ", "Ჵ"); ("ჶ", "Ჶ"); ("ჷ", "Ჷ");
   ("ჸ", "Ჸ"); ("ჹ", "Ჹ"); ("ჺ", "Ჺ"); ("ჽ", "Ჽ"); ("ჾ", "Ჾ"); ("ჿ", "Ჿ");
   ("ᏸ", "Ᏸ"); ("ᏹ", "Ᏹ"); ("ᏺ", "Ᏺ"); ("ᏻ", "Ᏻ"); ("ᏼ", "Ᏼ"); ("ᏽ", "Ᏽ");
   ("ᲀ", "В"); ("ᲁ", "Д"); ("ᲂ", "О"); ("ᲃ", "С"); ("ᲄ", "Т"); ("ᲅ", "Т");
   ("ᲆ", "Ъ"); ("ᲇ", "Ѣ"); ("ᲈ", "Ꙋ"); ("ᵹ", "Ᵹ"); ("ᵽ", "Ᵽ"); ("ᶎ", "Ᶎ");
   ("ḁ", "Ḁ"); ("ḃ", "Ḃ"); ("ḅ", "Ḅ"); ("ḇ", "Ḇ"); ("ḉ", "Ḉ"); ("ḋ", "Ḋ");
   ("ḍ", "Ḍ"); ("ḏ", "Ḏ"); ("ḑ", "Ḑ"); ("ḓ", "Ḓ"); ("ḕ", "Ḕ"); ("ḗ", "Ḗ");
   ("ḙ", "Ḙ"); ("ḛ", "Ḛ"); ("ḝ", "Ḝ"); ("ḟ", "Ḟ"); ("ḡ", "Ḡ"); ("ḣ", "Ḣ");
   ("ḥ", "Ḥ"); ("ḧ", "Ḧ"); ("ḩ", "Ḩ"); ("ḫ", "Ḫ"); ("ḭ", "Ḭ"); ("ḯ", "Ḯ");
   ("ḱ", "Ḱ"); ("ḳ", "Ḳ"); ("ḵ", "Ḵ"); ("ḷ", "Ḷ"); ("ḹ", "Ḹ"); ("ḻ", "Ḻ");
   ("ḽ", "Ḽ"); ("ḿ", "Ḿ"); ("ṁ", "Ṁ"); ("ṃ", "Ṃ"); ("ṅ", "Ṅ"); ("ṇ", "Ṇ");
   ("ṉ", "Ṉ"); ("ṋ", "Ṋ"); ("ṍ", "Ṍ"); ("ṏ", "Ṏ"); ("ṑ", "Ṑ"); ("ṓ", "Ṓ");
   ("ṕ", "Ṕ"); ("ṗ", "Ṗ"); ("ṙ", "Ṙ"); ("ṛ", "Ṛ"); ("ṝ", "Ṝ"); ("ṟ", "Ṟ");
   ("ṡ", "Ṡ"); ("ṣ", "Ṣ"); ("ṥ", "Ṥ"); ("ṧ", "Ṧ"); ("ṩ", "Ṩ"); ("ṫ", "Ṫ");
   ("ṭ", "Ṭ"); ("ṯ", "Ṯ"); ("ṱ", "Ṱ"); ("ṳ", "Ṳ"); ("ṵ", "Ṵ"); ("ṷ", "Ṷ");
   ("ṹ", "Ṹ"); ("ṻ", "Ṻ"); ("ṽ", "Ṽ"); ("ṿ", "Ṿ"); ("ẁ", "Ẁ"); ("ẃ", "Ẃ");
   ("ẅ", "Ẅ"); ("ẇ", "Ẇ"); ("ẉ", "Ẉ"); ("ẋ", "Ẋ"); ("ẍ", "Ẍ"); ("ẏ", "Ẏ");
   ("ẑ", "Ẑ"); ("ẓ", "Ẓ"); ("ẕ", "Ẕ"); ("ẖ", "H̱"); ("ẗ", "T̈"); ("ẘ", "W̊");
   ("ẙ", "Y̊"); ("ẚ", "Aʾ"); ("ẛ", "Ṡ"); ("ạ", "Ạ"); ("ả", "Ả"); ("ấ", "Ấ");
   ("ầ", "Ầ"); ("ẩ", "Ẩ"); ("ẫ", "Ẫ"); ("ậ", "Ậ"); ("ắ", "Ắ"); ("ằ", "Ằ");
   ("ẳ", "Ẳ"); ("ẵ", "Ẵ"); ("ặ", "Ặ"); ("ẹ", "Ẹ"); ("ẻ", "Ẻ"); ("ẽ", "Ẽ");
   ("ế", "Ế"); ("ề", "Ề"); ("ể", "Ể"); ("ễ", "Ễ"); ("ệ", "Ệ"); ("ỉ", "Ỉ");
   ("ị", "Ị"); ("ọ", "Ọ"); ("ỏ", "Ỏ"); ("ố", "Ố"); ("ồ", "Ồ"); ("ổ", "Ổ");
   ("ỗ", "Ỗ"); ("ộ", "Ộ"); ("ớ", "Ớ"); ("ờ", "Ờ"); ("ở", "Ở"); ("ỡ", "Ỡ");
   ("ợ", "Ợ"); ("ụ", "Ụ"); ("ủ", "Ủ"); ("ứ", "Ứ"); ("ừ", "Ừ"); ("ử", "Ử");
   ("ữ", "Ữ"); ("ự", "Ự"); ("ỳ", "Ỳ"); ("ỵ", "Ỵ"); ("ỷ", "Ỷ"); ("ỹ", "Ỹ");
   ("ỻ", "Ỻ"); ("ỽ", "Ỽ"); ("ỿ", "Ỿ"); ("ἀ", "Ἀ"); ("ἁ", "Ἁ"); ("ἂ", "Ἂ");
   ("ἃ", "Ἃ"); ("ἄ", "Ἄ"); ("ἅ", "Ἅ"); ("ἆ", "Ἆ"); ("ἇ", "Ἇ"); ("ἐ", "Ἐ");
   ("ἑ", "Ἑ"); ("ἒ", "Ἒ"); ("ἓ", "Ἓ"); ("ἔ", "Ἔ"); ("ἕ", "Ἕ"); ("ἠ", "Ἠ");
   ("ἡ", "Ἡ"); ("ἢ", "Ἢ"); ("ἣ", "Ἣ"); ("ἤ", "Ἤ"); ("ἥ", "Ἥ"); ("ἦ", "Ἦ");
   ("ἧ", "Ἧ"); ("ἰ", "Ἰ"); ("ἱ", "Ἱ"); ("ἲ", "Ἲ"); ("ἳ", "Ἳ"); ("ἴ", "Ἴ");
   ("ἵ", "Ἵ"); ("ἶ", "Ἶ"); ("ἷ", "Ἷ"); ("ὀ", "Ὀ"); ("ὁ", "Ὁ"); ("ὂ", "Ὂ");
   ("ὃ", "Ὃ"); ("ὄ", "Ὄ"); ("ὅ", "Ὅ"); ("ὐ", "Υ̓"); ("ὑ", "Ὑ"); ("ὒ", "Υ̓̀");
   ("ὓ", "Ὓ"); ("ὔ", "Υ̓́"); ("ὕ", "Ὕ"); ("ὖ", "Υ̓͂"); ("ὗ", "Ὗ");
   ("ὠ", "Ὠ"); ("ὡ", "Ὡ"); ("ὢ", "Ὢ"); ("ὣ", "Ὣ"); ("ὤ", "Ὤ"); ("ὥ", "Ὥ");
   ("ὦ", "Ὦ"); ("ὧ", "Ὧ"); ("ὰ", "Ὰ"); ("ά", "Ά"); ("ὲ", "Ὲ"); ("έ", "Έ");
   ("ὴ", "Ὴ"); ("ή", "Ή"); ("ὶ", "Ὶ"); ("ί", "Ί"); ("ὸ", "Ὸ"); ("ό", "Ό");
   ("ὺ", "Ὺ"); ("ύ", "Ύ"); ("ὼ", "Ὼ"); ("ώ", "Ώ"); ("ᾀ", "ἈΙ"); ("ᾁ", "ἉΙ");
   ("ᾂ", "ἊΙ"); ("ᾃ", "ἋΙ"); ("ᾄ", "ἌΙ"); ("ᾅ", "ἍΙ"); ("ᾆ", "ἎΙ");
   ("ᾇ", "ἏΙ"); ("ᾈ", "ἈΙ"); ("ᾉ", "ἉΙ"); ("ᾊ", "ἊΙ"); ("ᾋ", "ἋΙ");
   ("ᾌ", "ἌΙ"); ("ᾍ", "ἍΙ"); ("ᾎ", "ἎΙ"); ("ᾏ", "ἏΙ"); ("ᾐ", "ἨΙ");
   ("ᾑ", "ἩΙ"); ("ᾒ", "ἪΙ"); ("ᾓ", "ἫΙ"); ("ᾔ", "ἬΙ"); ("ᾕ", "ἭΙ");
   ("ᾖ", "ἮΙ"); ("ᾗ", "ἯΙ"); ("ᾘ", "ἨΙ"); ("ᾙ", "ἩΙ"); ("ᾚ", "ἪΙ");
   ("ᾛ", "ἫΙ"); ("ᾜ", "ἬΙ"); ("ᾝ", "ἭΙ"); ("ᾞ", "ἮΙ"); ("ᾟ", "ἯΙ");
   ("ᾠ", "ὨΙ"); ("ᾡ", "ὩΙ"); ("ᾢ", "ὪΙ"); ("ᾣ", "ὫΙ"); ("ᾤ", "ὬΙ");
   ("ᾥ", "ὭΙ"); ("ᾦ", "ὮΙ"); ("ᾧ", "ὯΙ"); ("ᾨ", "ὨΙ"); ("ᾩ", "ὩΙ");
   ("ᾪ", "ὪΙ"); ("ᾫ", "ὫΙ"); ("ᾬ", "ὬΙ"); ("ᾭ", "ὭΙ"); ("ᾮ", "ὮΙ");
   ("ᾯ", "ὯΙ"); ("ᾰ", "Ᾰ"); ("ᾱ", "Ᾱ"); ("ᾲ", "ᾺΙ"); ("ᾳ", "ΑΙ");
   ("ᾴ", "ΆΙ"); ("ᾶ", "Α͂"); ("ᾷ", "Α͂Ι"); ("ᾼ", "ΑΙ"); ("ι", "Ι");
   ("ῂ", "ῊΙ"); ("ῃ", "ΗΙ"); ("ῄ", "ΉΙ"); ("ῆ", "Η͂"); ("ῇ", "Η͂Ι");
   ("ῌ", "ΗΙ"); ("ῐ", "Ῐ"); ("ῑ", "Ῑ"); ("ῒ", "Ϊ̀"); ("ΐ", "Ϊ́");
   ("ῖ", "Ι͂"); ("ῗ", "Ϊ͂"); ("ῠ", "Ῠ"); ("ῡ", "Ῡ"); ("ῢ", "Ϋ̀");
   ("ΰ", "Ϋ́"); ("ῤ", "Ρ̓"); ("ῥ", "Ῥ"); ("ῦ", "Υ͂"); ("ῧ", "Ϋ͂");
   ("ῲ", "ῺΙ"); ("ῳ", "ΩΙ"); ("ῴ", "ΏΙ"); ("ῶ", "Ω͂"); ("ῷ", "Ω͂Ι");
   ("ῼ", "ΩΙ"); ("ⅎ", "Ⅎ"); ("ⅰ", "Ⅰ"); ("ⅱ", "Ⅱ"); ("ⅲ", "Ⅲ"); ("ⅳ", "Ⅳ");
   ("ⅴ", "Ⅴ"); ("ⅵ", "Ⅵ"); ("ⅶ", "Ⅶ"); ("ⅷ", "Ⅷ"); ("ⅸ", "Ⅸ"); ("ⅹ", "Ⅹ");
   ("ⅺ", "Ⅺ"); ("ⅻ", "Ⅻ"); ("ⅼ", "Ⅼ"); ("ⅽ", "Ⅽ"); ("ⅾ", "Ⅾ"); ("ⅿ", "Ⅿ");
   ("ↄ", "Ↄ"); ("ⓐ", "Ⓐ"); ("ⓑ", "Ⓑ"); ("ⓒ", "Ⓒ"); ("ⓓ", "Ⓓ"); ("ⓔ", "Ⓔ");
   ("ⓕ", "Ⓕ"); ("ⓖ", "Ⓖ"); ("ⓗ", "Ⓗ"); ("ⓘ", "Ⓘ"); ("ⓙ", "Ⓙ"); ("ⓚ", "Ⓚ");
   ("ⓛ", "Ⓛ"); ("ⓜ", "Ⓜ"); ("ⓝ", "Ⓝ"); ("ⓞ", "Ⓞ"); ("ⓟ", "Ⓟ"); ("ⓠ", "Ⓠ");
   ("ⓡ", "Ⓡ"); ("ⓢ", "Ⓢ"); ("ⓣ", "Ⓣ"); ("ⓤ", "Ⓤ"); ("ⓥ", "Ⓥ"); ("ⓦ", "Ⓦ");
   ("ⓧ", "Ⓧ"); ("ⓨ", "Ⓨ"); ("ⓩ", "Ⓩ"); ("ⰰ", "Ⰰ"); ("ⰱ", "Ⰱ"); ("ⰲ", "Ⰲ");
   ("ⰳ", "Ⰳ"); ("ⰴ", "Ⰴ"); ("ⰵ", "Ⰵ"); ("ⰶ", "Ⰶ"); ("ⰷ", "Ⰷ"); ("ⰸ", "Ⰸ");
   ("ⰹ", "Ⰹ"); ("ⰺ", "Ⰺ"); ("ⰻ", "Ⰻ"); ("ⰼ", "Ⰼ"); ("ⰽ", "Ⰽ"); ("ⰾ", "Ⰾ");
   ("ⰿ", "Ⰿ"); ("ⱀ", "Ⱀ"); ("ⱁ", "Ⱁ"); ("ⱂ", "Ⱂ"); ("ⱃ", "Ⱃ"); ("ⱄ", "Ⱄ");
   ("ⱅ", "Ⱅ"); ("ⱆ", "Ⱆ"); ("ⱇ", "Ⱇ"); ("ⱈ", "Ⱈ"); ("ⱉ", "Ⱉ"); ("ⱊ", "Ⱊ");
   ("ⱋ", "Ⱋ"); ("ⱌ", "Ⱌ"); ("ⱍ", "Ⱍ"); ("ⱎ", "Ⱎ"); ("ⱏ", "Ⱏ"); ("ⱐ", "Ⱐ");
   ("ⱑ", "Ⱑ"); ("ⱒ", "Ⱒ"); ("ⱓ", "Ⱓ"); ("ⱔ", "Ⱔ"); ("ⱕ", "Ⱕ"); ("ⱖ", "Ⱖ");
   ("ⱗ", "Ⱗ"); ("ⱘ", "Ⱘ"); ("ⱙ", "Ⱙ"); ("ⱚ", "Ⱚ"); ("ⱛ", "Ⱛ"); ("ⱜ", "Ⱜ");
   ("ⱝ", "Ⱝ"); ("ⱞ", "Ⱞ"); ("ⱟ", "Ⱟ"); ("ⱡ", "Ⱡ"); ("ⱥ", "Ⱥ"); ("ⱦ", "Ⱦ");
   ("ⱨ", "Ⱨ"); ("ⱪ", "Ⱪ"); ("ⱬ", "Ⱬ"); ("ⱳ", "Ⱳ"); ("ⱶ", "Ⱶ"); ("ⲁ", "Ⲁ");
   ("ⲃ", "Ⲃ"); ("ⲅ", "Ⲅ"); ("ⲇ", "Ⲇ"); ("ⲉ", "Ⲉ"); ("ⲋ", "Ⲋ"); ("ⲍ", "Ⲍ");
   ("ⲏ", "Ⲏ"); ("ⲑ", "Ⲑ"); ("ⲓ", "Ⲓ"); ("ⲕ", "Ⲕ"); ("ⲗ", "Ⲗ"); ("ⲙ", "Ⲙ");
   ("ⲛ", "Ⲛ"); ("ⲝ", "Ⲝ"); ("ⲟ", "Ⲟ"); ("ⲡ", "Ⲡ"); ("ⲣ", "Ⲣ"); ("ⲥ", "Ⲥ");
   ("ⲧ", "Ⲧ"); ("ⲩ", "Ⲩ"); ("ⲫ", "Ⲫ"); ("ⲭ", "Ⲭ"); ("ⲯ", "Ⲯ"); ("ⲱ", "Ⲱ");
   ("ⲳ", "Ⲳ"); ("ⲵ", "Ⲵ"); ("ⲷ", "Ⲷ"); ("ⲹ", "Ⲹ"); ("ⲻ", "Ⲻ"); ("ⲽ", "Ⲽ");
   ("ⲿ", "Ⲿ"); ("ⳁ", "Ⳁ"); ("ⳃ", "Ⳃ"); ("ⳅ", "Ⳅ"); ("ⳇ", "Ⳇ"); ("ⳉ", "Ⳉ");
   ("ⳋ", "Ⳋ"); ("ⳍ", "Ⳍ"); ("ⳏ", "Ⳏ"); ("ⳑ", "Ⳑ"); ("ⳓ", "Ⳓ"); ("ⳕ", "Ⳕ");
   ("ⳗ", "Ⳗ"); ("ⳙ", "Ⳙ"); ("ⳛ", "Ⳛ"); ("ⳝ", "Ⳝ"); ("ⳟ", "Ⳟ"); ("ⳡ", "Ⳡ");
   ("ⳣ", "Ⳣ"); ("ⳬ", "Ⳬ"); ("ⳮ", "Ⳮ"); ("ⳳ", "Ⳳ"); ("ⴀ", "Ⴀ"); ("ⴁ", "Ⴁ");
   ("ⴂ", "Ⴂ"); ("ⴃ", "Ⴃ"); ("ⴄ", "Ⴄ"); ("ⴅ", "Ⴅ"); ("ⴆ", "Ⴆ"); ("ⴇ", "Ⴇ");
   ("ⴈ", "Ⴈ"); ("ⴉ", "Ⴉ"); ("ⴊ", "Ⴊ"); ("ⴋ", "Ⴋ"); ("ⴌ", "Ⴌ"); ("ⴍ", "Ⴍ");
   ("ⴎ", "Ⴎ"); ("ⴏ", "Ⴏ"); ("ⴐ", "Ⴐ"); ("ⴑ", "Ⴑ"); ("ⴒ", "Ⴒ"); ("ⴓ", "Ⴓ");
   ("ⴔ", "Ⴔ"); ("ⴕ", "Ⴕ"); ("ⴖ", "Ⴖ"); ("ⴗ", "Ⴗ"); ("ⴘ", "Ⴘ"); ("ⴙ", "Ⴙ");
   ("ⴚ", "Ⴚ"); ("ⴛ", "Ⴛ"); ("ⴜ", "Ⴜ"); ("ⴝ", "Ⴝ"); ("ⴞ", "Ⴞ"); ("ⴟ", "Ⴟ");
   ("ⴠ", "Ⴠ"); ("ⴡ", "Ⴡ"); ("ⴢ", "Ⴢ"); ("ⴣ", "Ⴣ"); ("ⴤ", "Ⴤ"); ("ⴥ", "Ⴥ");
   ("ⴧ", "Ⴧ"); ("ⴭ", "Ⴭ"); ("ꙁ", "Ꙁ"); ("ꙃ", "Ꙃ"); ("ꙅ", "Ꙅ"); ("ꙇ", "Ꙇ");
   ("ꙉ", "Ꙉ"); ("ꙋ", "Ꙋ"); ("ꙍ", "Ꙍ"); ("ꙏ", "Ꙏ"); ("ꙑ", "Ꙑ"); ("ꙓ", "Ꙓ");
   ("ꙕ", "Ꙕ"); ("ꙗ", "Ꙗ"); ("ꙙ", "Ꙙ"); ("ꙛ", "Ꙛ"); ("ꙝ", "Ꙝ"); ("ꙟ", "Ꙟ");
   ("ꙡ", "Ꙡ"); ("ꙣ", "Ꙣ"); ("ꙥ", "Ꙥ"); ("ꙧ", "Ꙧ"); ("ꙩ", "Ꙩ"); ("ꙫ", "Ꙫ");
   ("ꙭ", "Ꙭ"); ("ꚁ", "Ꚁ"); ("ꚃ", "Ꚃ"); ("ꚅ", "Ꚅ"); ("ꚇ", "Ꚇ"); ("ꚉ", "Ꚉ");
   ("ꚋ", "Ꚋ"); ("ꚍ", "Ꚍ"); ("ꚏ", "Ꚏ"); ("ꚑ", "Ꚑ"); ("ꚓ", "Ꚓ"); ("ꚕ", "Ꚕ");
   ("ꚗ", "Ꚗ"); ("ꚙ", "Ꚙ"); ("ꚛ", "Ꚛ"); ("ꜣ", "Ꜣ"); ("ꜥ", "Ꜥ"); ("ꜧ", "Ꜧ");
   ("ꜩ", "Ꜩ"); ("ꜫ", "Ꜫ"); ("ꜭ", "Ꜭ"); ("ꜯ", "Ꜯ"); ("ꜳ", "Ꜳ"); ("ꜵ", "Ꜵ");
   ("ꜷ", "Ꜷ"); ("ꜹ", "Ꜹ"); ("ꜻ", "Ꜻ"); ("ꜽ", "Ꜽ"); ("ꜿ", "Ꜿ"); ("ꝁ", "Ꝁ");
   ("ꝃ", "Ꝃ"); ("ꝅ", "Ꝅ"); ("ꝇ", "Ꝇ"); ("ꝉ", "Ꝉ"); ("ꝋ", "Ꝋ"); ("ꝍ", "Ꝍ");
   ("ꝏ", "Ꝏ"); ("ꝑ", "Ꝑ"); ("ꝓ", "Ꝓ"); ("ꝕ", "Ꝕ"); ("ꝗ", "Ꝗ"); ("ꝙ", "Ꝙ");
   ("ꝛ", "Ꝛ"); ("ꝝ", "Ꝝ"); ("ꝟ", "Ꝟ"); ("ꝡ", "Ꝡ"); ("ꝣ", "Ꝣ"); ("ꝥ", "Ꝥ");
   ("ꝧ", "Ꝧ"); ("ꝩ", "Ꝩ"); ("ꝫ", "Ꝫ"); ("ꝭ", "Ꝭ"); ("ꝯ", "Ꝯ"); ("ꝺ", "Ꝺ");
   ("ꝼ", "Ꝼ"); ("ꝿ", "Ꝿ"); ("ꞁ", "Ꞁ"); ("ꞃ", "Ꞃ"); ("ꞅ", "Ꞅ"); ("ꞇ", "Ꞇ");
   ("ꞌ", "Ꞌ"); ("ꞑ", "Ꞑ"); ("ꞓ", "Ꞓ"); ("ꞔ", "Ꞔ"); ("ꞗ", "Ꞗ"); ("ꞙ", "Ꞙ");
   ("ꞛ", "Ꞛ"); ("ꞝ", "Ꞝ"); ("ꞟ", "Ꞟ"); ("ꞡ", "Ꞡ"); ("ꞣ", "Ꞣ"); ("ꞥ", "Ꞥ");
   ("ꞧ", "Ꞧ"); ("ꞩ", "Ꞩ"); ("ꞵ", "Ꞵ"); ("ꞷ", "Ꞷ"); ("ꞹ", "Ꞹ"); ("ꞻ", "Ꞻ");
   ("ꞽ", "Ꞽ"); ("ꞿ", "Ꞿ"); ("ꟁ", "Ꟁ"); ("ꟃ", "Ꟃ"); ("ꟈ", "Ꟈ"); ("ꟊ", "Ꟊ");
   ("ꟑ", "Ꟑ"); ("ꟗ", "Ꟗ"); ("ꟙ", "Ꟙ"); ("ꟶ", "Ꟶ"); ("ꭓ", "Ꭓ"); ("ꭰ", "Ꭰ");
   ("ꭱ", "Ꭱ"); ("ꭲ", "Ꭲ"); ("ꭳ", "Ꭳ"); ("ꭴ", "Ꭴ"); ("ꭵ", "Ꭵ"); ("ꭶ", "Ꭶ");
   ("ꭷ", "Ꭷ"); ("ꭸ", "Ꭸ"); ("ꭹ", "Ꭹ"); ("ꭺ", "Ꭺ"); ("ꭻ", "Ꭻ"); ("ꭼ", "Ꭼ");
   ("ꭽ", "Ꭽ"); ("ꭾ", "Ꭾ"); ("ꭿ", "Ꭿ"); ("ꮀ", "Ꮀ"); ("ꮁ", "Ꮁ"); ("ꮂ", "Ꮂ");
   ("ꮃ", "Ꮃ"); ("ꮄ", "Ꮄ"); ("ꮅ", "Ꮅ"); ("ꮆ", "Ꮆ"); ("ꮇ", "Ꮇ"); ("ꮈ", "Ꮈ");
   ("ꮉ", "Ꮉ"); ("ꮊ", "Ꮊ"); ("ꮋ", "Ꮋ"); ("ꮌ", "Ꮌ"); ("ꮍ", "Ꮍ"); ("ꮎ", "Ꮎ");
   ("ꮏ", "Ꮏ"); ("ꮐ", "Ꮐ"); ("ꮑ", "Ꮑ"); ("ꮒ", "Ꮒ"); ("ꮓ", "Ꮓ"); ("ꮔ", "Ꮔ");
   ("ꮕ", "Ꮕ"); ("ꮖ", "Ꮖ"); ("ꮗ", "Ꮗ"); ("ꮘ", "Ꮘ"); ("ꮙ", "Ꮙ"); ("ꮚ", "Ꮚ");
   ("ꮛ", "Ꮛ"); ("ꮜ", "Ꮜ"); ("ꮝ", "Ꮝ"); ("ꮞ", "Ꮞ"); ("ꮟ", "Ꮟ"); ("ꮠ", "Ꮠ");
   ("ꮡ", "Ꮡ"); ("ꮢ", "Ꮢ"); ("ꮣ", "Ꮣ"); ("ꮤ", "Ꮤ"); ("ꮥ", "Ꮥ"); ("ꮦ", "Ꮦ");
   ("ꮧ", "Ꮧ"); ("ꮨ", "Ꮨ"); ("ꮩ", "Ꮩ"); ("ꮪ", "Ꮪ"); ("ꮫ", "Ꮫ"); ("ꮬ", "Ꮬ");
   ("ꮭ", "Ꮭ"); ("ꮮ", "Ꮮ"); ("ꮯ", "Ꮯ"); ("ꮰ", "Ꮰ"); ("ꮱ", "Ꮱ"); ("ꮲ", "Ꮲ");
   ("ꮳ", "Ꮳ"); ("ꮴ", "Ꮴ"); ("ꮵ", "Ꮵ"); ("ꮶ", "Ꮶ"); ("ꮷ", "Ꮷ"); ("ꮸ", "Ꮸ");
   ("ꮹ", "Ꮹ"); ("ꮺ", "Ꮺ"); ("ꮻ", "Ꮻ"); ("ꮼ", "Ꮼ"); ("ꮽ", "Ꮽ"); ("ꮾ", "Ꮾ");
   ("ꮿ", "Ꮿ"); ("ﬀ", "FF"); ("ﬁ", "FI"); ("ﬂ", "FL"); ("ﬃ", "FFI");
   ("ﬄ", "FFL"); ("ﬅ", "ST"); ("ﬆ", "ST"); ("ﬓ", "ՄՆ"); ("ﬔ", "ՄԵ");
   ("ﬕ", "ՄԻ"); ("ﬖ", "ՎՆ"); ("ﬗ", "ՄԽ"); ("ａ", "Ａ"); ("ｂ", "Ｂ"); ("ｃ", "Ｃ");
   ("ｄ", "Ｄ"); ("ｅ", "Ｅ"); ("ｆ", "Ｆ"); ("ｇ", "Ｇ"); ("ｈ", "Ｈ"); ("ｉ", "Ｉ");
   ("ｊ", "Ｊ"); ("ｋ", "Ｋ"); ("ｌ", "Ｌ"); ("ｍ", "Ｍ"); ("ｎ", "Ｎ"); ("ｏ", "Ｏ");
   ("ｐ", "Ｐ"); ("ｑ", "Ｑ"); ("ｒ", "Ｒ"); ("ｓ", "Ｓ"); ("ｔ", "Ｔ"); ("ｕ", "Ｕ");
   ("ｖ", "Ｖ"); ("ｗ", "Ｗ"); ("ｘ", "Ｘ"); ("ｙ", "Ｙ"); ("ｚ", "Ｚ"); ("𐐨", "𐐀");
   ("𐐩", "𐐁"); ("𐐪", "𐐂"); ("𐐫", "𐐃"); ("𐐬", "𐐄"); ("𐐭", "𐐅"); ("𐐮", "𐐆");
   ("𐐯", "𐐇"); ("𐐰", "𐐈"); ("𐐱", "𐐉"); ("𐐲", "𐐊"); ("𐐳", "𐐋"); ("𐐴", "𐐌");
   ("𐐵", "𐐍"); ("𐐶", "𐐎"); ("𐐷", "𐐏"); ("𐐸", "𐐐"); ("𐐹", "𐐑"); ("𐐺", "𐐒");
   ("𐐻", "𐐓"); ("𐐼", "𐐔"); ("𐐽", "𐐕"); ("𐐾", "𐐖"); ("𐐿", "𐐗"); ("𐑀", "𐐘");
   ("𐑁", "𐐙"); ("𐑂", "𐐚"); ("𐑃", "𐐛"); ("𐑄", "𐐜"); ("𐑅", "𐐝"); ("𐑆", "𐐞");
   ("𐑇", "𐐟"); ("𐑈", "𐐠"); ("𐑉", "𐐡"); ("𐑊", "𐐢"); ("𐑋", "𐐣"); ("𐑌", "𐐤");
   ("𐑍", "𐐥"); ("𐑎", "𐐦"); ("𐑏", "𐐧"); ("𐓘", "𐒰"); ("𐓙", "𐒱"); ("𐓚", "𐒲");
   ("𐓛", "𐒳"); ("𐓜", "𐒴"); ("𐓝", "𐒵"); ("𐓞", "𐒶"); ("𐓟", "𐒷"); ("𐓠", "𐒸");
   ("𐓡", "𐒹"); ("𐓢", "𐒺"); ("𐓣", "𐒻"); ("𐓤", "𐒼"); ("𐓥", "𐒽"); ("𐓦", "𐒾");
   ("𐓧", "𐒿"); ("𐓨", "𐓀"); ("𐓩", "𐓁"); ("𐓪", "𐓂"); ("𐓫", "𐓃"); ("𐓬", "𐓄");
   ("𐓭", "𐓅"); ("𐓮", "𐓆"); ("𐓯", "𐓇"); ("𐓰", "𐓈"); ("𐓱", "𐓉"); ("𐓲", "𐓊");
   ("𐓳", "𐓋"); ("𐓴", "𐓌"); ("𐓵", "𐓍"); ("𐓶", "𐓎"); ("𐓷", "𐓏"); ("𐓸", "𐓐");
   ("𐓹", "𐓑"); ("𐓺", "𐓒"); ("𐓻", "𐓓"); ("𐖗", "𐕰"); ("𐖘", "𐕱"); ("𐖙", "𐕲");
   ("𐖚", "𐕳"); ("𐖛", "𐕴"); ("𐖜", "𐕵"); ("𐖝", "𐕶"); ("𐖞", "𐕷"); ("𐖟", "𐕸");
   ("𐖠", "𐕹"); ("𐖡", "𐕺"); ("𐖣", "𐕼"); ("𐖤", "𐕽"); ("𐖥", "𐕾"); ("𐖦", "𐕿");
   ("𐖧", "𐖀"); ("𐖨", "𐖁"); ("𐖩", "𐖂"); ("𐖪", "𐖃"); ("𐖫", "𐖄"); ("𐖬", "𐖅");
   ("𐖭", "𐖆"); ("𐖮", "𐖇"); ("𐖯", "𐖈"); ("𐖰", "𐖉"); ("𐖱", "𐖊"); ("𐖳", "𐖌");
   ("𐖴", "𐖍"); ("𐖵", "𐖎"); ("𐖶", "𐖏"); ("𐖷", "𐖐"); ("𐖸", "𐖑"); ("𐖹", "𐖒");
   ("𐖻", "𐖔"); ("𐖼", "𐖕"); ("𐳀", "𐲀"); ("𐳁", "𐲁"); ("𐳂", "𐲂"); ("𐳃", "𐲃");
   ("𐳄", "𐲄"); ("𐳅", "𐲅"); ("𐳆", "𐲆"); ("𐳇", "𐲇"); ("𐳈", "𐲈"); ("𐳉", "𐲉");
   ("𐳊", "𐲊"); ("𐳋", "𐲋"); ("𐳌", "𐲌"); ("𐳍", "𐲍"); ("𐳎", "𐲎"); ("𐳏", "𐲏");
   ("𐳐", "𐲐"); ("𐳑", "𐲑"); ("𐳒", "𐲒"); ("𐳓", "𐲓"); ("𐳔", "𐲔"); ("𐳕", "𐲕");
   ("𐳖", "𐲖"); ("𐳗", "𐲗"); ("𐳘", "𐲘"); ("𐳙", "𐲙"); ("𐳚", "𐲚"); ("𐳛", "𐲛");
   ("𐳜", "𐲜"); ("𐳝", "𐲝"); ("𐳞", "𐲞"); ("𐳟", "𐲟"); ("𐳠", "𐲠"); ("𐳡", "𐲡");
   ("𐳢", "𐲢"); ("𐳣", "𐲣"); ("𐳤", "𐲤"); ("𐳥", "𐲥"); ("𐳦", "𐲦"); ("𐳧", "𐲧");
   ("𐳨", "𐲨"); ("𐳩", "𐲩"); ("𐳪", "𐲪"); ("𐳫", "𐲫"); ("𐳬", "𐲬"); ("𐳭", "𐲭");
   ("𐳮", "𐲮"); ("𐳯", "𐲯"); ("𐳰", "𐲰"); ("𐳱", "𐲱"); ("𐳲", "𐲲"); ("𑣀", "𑢠");
   ("𑣁", "𑢡"); ("𑣂", "𑢢"); ("𑣃", "𑢣"); ("𑣄", "𑢤"); ("𑣅", "𑢥"); ("𑣆", "𑢦");
   ("𑣇", "𑢧"); ("𑣈", "𑢨"); ("𑣉", "𑢩"); ("𑣊", "𑢪"); ("𑣋", "𑢫"); ("𑣌", "𑢬");
   ("𑣍", "𑢭"); ("𑣎", "𑢮"); ("𑣏", "𑢯"); ("𑣐", "𑢰"); ("𑣑", "𑢱"); ("𑣒", "𑢲");
   ("𑣓", "𑢳"); ("𑣔", "𑢴"); ("𑣕", "𑢵"); ("𑣖", "𑢶"); ("𑣗", "𑢷"); ("𑣘", "𑢸");
   ("𑣙", "𑢹"); ("𑣚", "𑢺"); ("𑣛", "𑢻"); ("𑣜", "𑢼"); ("𑣝", "𑢽"); ("𑣞", "𑢾");
   ("𑣟", "𑢿"); ("𖹠", "𖹀"); ("𖹡", "𖹁"); ("𖹢", "𖹂"); ("𖹣", "𖹃"); ("𖹤", "𖹄");
   ("𖹥", "𖹅"); ("𖹦", "𖹆"); ("𖹧", "𖹇"); ("𖹨", "𖹈"); ("𖹩", "𖹉"); ("𖹪", "𖹊");
   ("𖹫", "𖹋"); ("𖹬", "𖹌"); ("𖹭", "𖹍"); ("𖹮", "𖹎"); ("𖹯", "𖹏"); ("𖹰", "𖹐");
   ("𖹱", "𖹑"); ("𖹲", "𖹒"); ("𖹳", "𖹓"); ("𖹴", "𖹔"); ("𖹵", "𖹕"); ("𖹶", "𖹖");
   ("𖹷", "𖹗"); ("𖹸", "𖹘"); ("𖹹", "𖹙"); ("𖹺", "𖹚"); ("𖹻", "𖹛"); ("𖹼", "𖹜");
   ("𖹽", "𖹝"); ("𖹾", "𖹞"); ("𖹿", "𖹟"); ("𞤢", "𞤀"); ("𞤣", "𞤁"); ("𞤤", "𞤂");
   ("𞤥", "𞤃"); ("𞤦", "𞤄"); ("𞤧", "𞤅"); ("𞤨", "𞤆"); ("𞤩", "𞤇"); ("𞤪", "𞤈");
   ("𞤫", "𞤉"); ("𞤬", "𞤊"); ("𞤭", "𞤋"); ("𞤮", "𞤌"); ("𞤯", "𞤍"); ("𞤰", "𞤎");
   ("𞤱", "𞤏"); ("𞤲", "𞤐"); ("𞤳", "𞤑"); ("𞤴", "𞤒"); ("𞤵", "𞤓"); ("𞤶", "𞤔");
   ("𞤷", "𞤕"); ("𞤸", "𞤖"); ("𞤹", "𞤗"); ("𞤺", "𞤘"); ("𞤻", "𞤙"); ("𞤼", "𞤚");
   ("𞤽", "𞤛"); ("𞤾", "𞤜"); ("𞤿", "𞤝"); ("𞥀", "𞤞"); ("𞥁", "𞤟"); ("𞥂", "𞤠");
   ("𞥃", "𞤡")]%string.

(** The number of continuation bytes that follow the first byte of a code
    point: none after [0xxxxxxx], one after [110xxxxx], two after
    [1110xxxx], three after [11110xxx]. *)
Definition utf8_trail (c : ascii) : nat :=
  match c with
  | Ascii _ _ _ _ _ false true true => 1
  | Ascii _ _ _ _ false true true true => 2
  | Ascii _ _ _ false true true true true => 3
  | _ => 0
  end.

(** The upper-case form of one code point outside ASCII. *)
Definition upper_char (ch : string) : string :=
  match find (fun e => String.eqb (fst e) ch) upper_table with
  | Some e => snd e
  | None => ch
  end.

(** [pending] holds the bytes read so far of the code point being read, of
    which [trail] bytes are still to come. *)
Fixpoint upper_from (pending : string) (trail : nat) (s : string) : string :=
  match s with
  | EmptyString => pending
  | String c rest =>
      match trail with
      | O =>
          match utf8_trail c with
          | O => String (upper_ascii c) (upper_from EmptyString 0 rest)
          | S n => upper_from (String c EmptyString) (S n) rest
          end
      | S O =>
          (upper_char (pending ++ String c EmptyString)
           ++ upper_from EmptyString 0 rest)%string
      | S n => upper_from (pending ++ String c EmptyString) n rest
      end
  end.

Definition upper (s : string) : string := upper_from EmptyString 0 s.

(** Sums and means of floats. Real addition is associative and commutative,
    so the order in which Python accumulates is immaterial. *)
Definition Rsum (l : list R) : R := fold_right Rplus 0%R l.

Definition mean (l : list R) : R := (Rsum l / INR (length l))%R.

(** [np.var]: the population variance. *)
Definition variance (l : list R) : R :=
  mean (map (fun a => ((a - mean l) * (a - mean l))%R) l).

(** [a % m] on floats, for a positive modulus. *)
Definition Rmod (a m : R) : R := (a - IZR (Int_part (a / m)) * m)%R.

(** ** Data model *)

Inductive NeuronType : Type :=
| SENSOR
| PROCESSOR
| MEMORY
| CONNECTOR
| OSCILLATOR.

(** [NeuronType[name]]: lookup by member name; [None] is a [KeyError]. *)
Definition NeuronType_of_name (name : string) : option NeuronType :=
  if String.eqb name "SENSOR"%string then Some SENSOR
  else if String.eqb name "PROCESSOR"%string then Some PROCESSOR
  else if String.eqb name "MEMORY"%string then Some MEMORY
  else if String.eqb name "CONNECTOR"%string then Some CONNECTOR
  else if String.eqb name "OSCILLATOR"%string then Some OSCILLATOR
  else None.

(** [t.value] *)
Definition NeuronType_value (t : NeuronType) : string :=
  match t with
  | SENSOR => "sensor"%string
  | PROCESSOR => "processor"%string
  | MEMORY => "memory"%string
  | CONNECTOR => "connector"%string
  | OSCILLATOR => "oscillator"%string
  end.

Record Neuron : Type := mkNeuron {
  id : nat;
  x : Z;
  y : Z;
  type : NeuronType;
  processing_power : R;
  connections : list nat;
  activation : R;
  memory_state : R
}.

Definition with_connections (n : Neuron) (c : list nat) : Neuron :=
  mkNeuron (id n) (x n) (y n) (type n) (processing_power n) c
           (activation n) (memory_state n).

Definition with_activation (n : Neuron) (a : R) : Neuron :=
  mkNeuron (id n) (x n) (y n) (type n) (processing_power n) (connections n)
           a (memory_state n).

Definition with_memory_state (n : Neuron) (m : R) : Neuron :=
  mkNeuron (id n) (x n) (y n) (type n) (processing_power n) (connections n)
           (activation n) m.

(** [Neuron.can_connect], with the default [max_distance = 5.0].  The
    coordinates are integers, so [sqrt(d2) <= 5.0] is decided on the squared
    distance ([can_connect_distance] below relates the two). *)
Definition squared_distance (self other : Neuron) : Z :=
  ((x self - x other) ^ 2 + (y self - y other) ^ 2)%Z.

Definition can_connect (self other : Neuron) : bool :=
  (squared_distance self other <=? 25)%Z
  && negb (existsb (Nat.eqb (id other)) (connections self)).

(** *** The undirected graph [nx.Graph]

    Nodes carry the optional attribute [player]; both are kept in insertion
    order.  An undirected edge is stored once. *)
Record Graph : Type := mkGraph {
  g_node : list (nat * option string);
  g_edges : list (nat * nat)
}.

Definition empty_graph : Graph := mkGraph [] [].

Definition has_node (g : Graph) (n : nat) : bool :=
  existsb (fun e => fst e =? n) (g_node g).

Definition same_edge (u v : nat) (e : nat * nat) : bool :=
  ((fst e =? u) && (snd e =? v)) || ((fst e =? v) && (snd e =? u)).

Definition has_edge (g : Graph) (u v : nat) : bool :=
  existsb (same_edge u v) (g_edges g).

Definition touch_node (g : Graph) (n : nat) : Graph :=
  if has_node g n then g else mkGraph (g_node g ++ [(n, None)]) (g_edges g).

(** [G.add_edge(u, v)]: both end points become nodes if they are not yet. *)
Definition add_edge (g : Graph) (u v : nat) : Graph :=
  let g' := touch_node (touch_node g u) v in
  if has_edge g' u v then g'
  else mkGraph (g_node g') (g_edges g' ++ [(u, v)]).

(** [G.add_node(n, player=p)]: creates the node or updates its attribute. *)
Definition add_node (g : Graph) (n : nat) (p : string) : Graph :=
  if has_node g n
  then mkGraph (map (fun e => if fst e =? n then (n, Some p) else e) (g_node g))
               (g_edges g)
  else mkGraph (g_node g ++ [(n, Some p)]) (g_edges g).

Definition number_of_nodes (g : Graph) : nat := length (g_node g).
Definition number_of_edges (g : Graph) : nat := length (g_edges g).

Inductive PatternType : Type :=
| Loop
| Synchronization
| Hierarchy
| StrangeAttractor.

Definition PatternType_eq_dec (a b : PatternType) : {a = b} + {a <> b}.
Proof. decide equality. Defined.

Record Pattern : Type := mkPattern {
  p_type : PatternType;
  p_nodes : list nat;
  p_strength : R
}.

Record ConsciousnessGrid : Type := mkGrid {
  size : nat;
  grid : list (list (option nat));
  neurons : list Neuron;
  network : Graph;
  consciousness_level : R;
  emergence_patterns : list Pattern
}.

(** [ConsciousnessGrid.__init__] *)
Definition new_grid (sz : nat) : ConsciousnessGrid :=
  mkGrid sz (repeat (repeat None sz) sz) [] empty_graph 0%R [].

(** ** Grid and placement *)

(** The auto-connect loop of [place_neuron]: [ns] is what is left of the
    registry to scan, [nid] the key of its head, [made] is
    [connections_made]. Returns the new neuron, the scanned registry and the
    graph. *)
Fixpoint auto_connect (neuron : Neuron) (net : Graph) (made nid : nat)
         (ns : list Neuron) : Neuron * list Neuron * Graph :=
  match ns with
  | [] => (neuron, [], net)
  | n :: rest =>
      if can_connect neuron n && (made <? 4) then
        let neuron' := with_connections neuron (connections neuron ++ [nid]) in
        let n' := with_connections n (connections n ++ [id neuron]) in
        let net' := add_edge net (id neuron) nid in
        let '(nw, rest', net'') :=
          auto_connect neuron' net' (S made) (S nid) rest in
        (nw, n' :: rest', net'')
      else
        let '(nw, rest', net') := auto_connect neuron net made (S nid) rest in
        (nw, n :: rest', net')
  end.

(** [ConsciousnessGrid.place_neuron]. [Return None] is the occupied cell;
    the [IndexError] is the one of [self.grid[x][y]]. *)
Definition place_neuron (g : ConsciousnessGrid) (px py : Z)
           (neuron_type : NeuronType) (power : R) (player_id : string)
  : ConsciousnessGrid * Outcome (option Neuron) :=
  match getitem (grid g) px with
  | None => (g, Raise IndexError)
  | Some row =>
      match getitem row py with
      | None => (g, Raise IndexError)
      | Some (Some _) => (g, Return None)
      | Some None =>
          let neuron_id := length (neurons g) in
          let neuron := mkNeuron neuron_id px py neuron_type power [] 0%R 0%R in
          let '(neuron', ns, net) :=
            auto_connect neuron (network g) 0 0 (neurons g) in
          (mkGrid (size g)
                  (setitem (grid g) px (setitem row py (Some neuron_id)))
                  (ns ++ [neuron'])
                  (add_node net neuron_id player_id)
                  (consciousness_level g)
                  (emergence_patterns g),
           Return (Some neuron'))
      end
  end.

(** ** Activation engine *)

Definition weight (n c : Neuron) : R :=
  (1 / (1 + Rabs (processing_power n - processing_power c)))%R.

(** The inner loop of [simulate_step]: connections whose id is not a key of
    the registry are skipped. *)
Definition input_sum (ns : list Neuron) (n : Neuron) : R :=
  Rsum (map (fun conn_id =>
               match nth_error ns conn_id with
               | Some c => (activation c * weight n c)%R
               | None => 0%R
               end) (connections n)).

(** One neuron of [simulate_step]: [ns] is the registry before the step (the
    activations read are the old ones, the new ones being committed after
    the loop), [level] is [self.consciousness_level]. The memory state of a
    [MEMORY] neuron is updated in place; no other neuron reads it. *)
Definition step_neuron (ns : list Neuron) (level : R) (n : Neuron) : Neuron :=
  let s := input_sum ns n in
  match type n with
  | PROCESSOR => with_activation n (tanh (s * processing_power n / 10))
  | MEMORY =>
      let m := (0.9 * memory_state n + 0.1 * s)%R in
      with_activation (with_memory_state n m) (tanh m)
  | OSCILLATOR =>
      let phase := Rmod (level * 2 * PI) (2 * PI) in
      with_activation n (sin phase * s)
  | _ => with_activation n (tanh s)
  end.

(** [ConsciousnessGrid.simulate_step] *)
Definition simulate_step (g : ConsciousnessGrid) : ConsciousnessGrid :=
  mkGrid (size g) (grid g)
         (map (step_neuron (neurons g) (consciousness_level g)) (neurons g))
         (network g) (consciousness_level g) (emergence_patterns g).

(** ** Graph statistics of networkx

    [nx.average_clustering] and [nx.betweenness_centrality] are library
    functions; they are modelled by the formulas of their documentation. *)

(** The keys of the node dict. *)
Definition node_ids (g : Graph) : list nat :=
  nodup Nat.eq_dec (map fst (g_node g)).

(** The nodes other than [v] that share an edge with [v]. *)
Definition neighbors (g : Graph) (v : nat) : list nat :=
  filter (fun u => negb (u =? v) && has_edge g v u) (node_ids g).

(** Twice the number of triangles through [v]: for every neighbour [w], the
    neighbours of [v] that are also neighbours of [w]. *)
Definition triangles_twice (g : Graph) (v : nat) : nat :=
  let vs := neighbors g v in
  list_sum
    (map (fun w =>
            length (filter (fun u => negb (u =? w) && has_edge g w u) vs))
         vs).

(** [nx.clustering(G, v)] for an unweighted undirected graph. *)
Definition clustering (g : Graph) (v : nat) : R :=
  let d := length (neighbors g v) in
  let t := triangles_twice g v in
  if t =? 0 then 0%R else (INR t / INR (d * (d - 1)))%R.

(** [nx.average_clustering(G)]; [None] is the [ZeroDivisionError] on a graph
    without nodes. *)
Definition average_clustering (g : Graph) : option R :=
  match node_ids g with
  | [] => None
  | vs => Some (mean (map (clustering g) vs))
  end.

(** The simple paths from [s] to [t] of at most [fuel] edges that avoid
    [visited]. *)
Fixpoint simple_paths (g : Graph) (fuel : nat) (visited : list nat)
         (s t : nat) : list (list nat) :=
  if s =? t then [[t]]
  else
    match fuel with
    | O => []
    | S fuel' =>
        flat_map
          (fun u =>
             if existsb (Nat.eqb u) visited then []
             else map (cons s) (simple_paths g fuel' (u :: visited) u t))
          (neighbors g s)
    end.

Definition shortest_paths (g : Graph) (s t : nat) : list (list nat) :=
  let ps := simple_paths g (length (node_ids g)) [s] s t in
  match map (@length nat) ps with
  | [] => []
  | l :: ls =>
      let d := fold_right Nat.min l ls in
      filter (fun p => length p =? d) ps
  end.

(** The fraction of the shortest paths from [s] to [t] that pass through
    [v]; [0] when [t] is not reachable from [s]. *)
Definition pair_dependency (g : Graph) (v s t : nat) : R :=
  let sp := shortest_paths g s t in
  match sp with
  | [] => 0%R
  | _ =>
      (INR (length (filter (fun p => existsb (Nat.eqb v) p) sp))
       / INR (length sp))%R
  end.

(** The ordered pairs of distinct elements of [l]. *)
Definition ordered_pairs (l : list nat) : list (nat * nat) :=
  flat_map (fun s => map (pair s) (filter (fun t => negb (t =? s)) l)) l.

(** Betweenness of [v], normalised as networkx does for an undirected graph:
    the sum over the ordered pairs of other nodes, divided by
    [(n-1)(n-2)] when there are more than two nodes. *)
Definition betweenness (g : Graph) (v : nat) : R :=
  let others := filter (fun u => negb (u =? v)) (node_ids g) in
  let raw :=
    Rsum (map (fun st => pair_dependency g v (fst st) (snd st))
              (ordered_pairs others)) in
  let n := length (node_ids g) in
  if n <=? 2 then raw
  else (raw * (1 / (INR (n - 1) * INR (n - 2))))%R.

(** [nx.betweenness_centrality(G)]: a dict over the nodes. *)
Definition betweenness_centrality (g : Graph) : list (nat * R) :=
  map (fun v => (v, betweenness g v)) (node_ids g).

(** ** Pattern detector and scorer *)

(** [self.neurons.items()] *)
Definition items (ns : list Neuron) : list (nat * Neuron) :=
  combine (seq 0 (length ns)) ns.

Definition Rltb (a b : R) : bool := if Rlt_dec a b then true else false.

(** Pattern 2 of [detect_consciousness_patterns]: the group built around
    every neuron, kept when it has three members or more. *)
Definition sync_group (ns : list Neuron) (nid1 : nat) (n1 : Neuron)
  : list nat :=
  nid1 ::
  map fst
    (filter (fun e =>
               negb (nid1 =? fst e)
               && Rltb (Rabs (activation n1 - activation (snd e))) 0.1)
            (items ns)).

(** [np.mean([self.neurons[nid].activation for nid in group])]; the members
    of a group are keys of the registry. *)
Definition group_strength (ns : list Neuron) (group : list nat) : R :=
  mean (map (fun nid =>
               match nth_error ns nid with
               | Some n => activation n
               | None => 0%R
               end) group).

Definition sync_groups (ns : list Neuron) : list Pattern :=
  flat_map
    (fun e =>
       let group := sync_group ns (fst e) (snd e) in
       if 3 <=? length group
       then [mkPattern Synchronization group (group_strength ns group)]
       else [])
    (items ns).

(** The activations of the members of a cycle; [None] is the [KeyError] of
    [self.neurons[nid]]. *)
Fixpoint cycle_activations (ns : list Neuron) (cycle : list nat)
  : option (list R) :=
  match cycle with
  | [] => Some []
  | nid :: rest =>
      match nth_error ns nid, cycle_activations ns rest with
      | Some n, Some acts => Some (activation n :: acts)
      | _, _ => None
      end
  end.

(** Pattern 1, the body of the [try]: an exception ends the loop and is
    swallowed by the bare [except], the patterns appended so far stay. *)
Fixpoint loop_patterns (ns : list Neuron) (cycles : list (list nat))
  : list Pattern :=
  match cycles with
  | [] => []
  | cycle :: rest =>
      if 3 <=? length cycle then
        match cycle_activations ns cycle with
        | None => []
        | Some acts =>
            let cycle_strength := (Rsum acts / INR (length cycle))%R in
            if Rltb 0.5 cycle_strength
            then mkPattern Loop cycle cycle_strength :: loop_patterns ns rest
            else loop_patterns ns rest
        end
      else loop_patterns ns rest
  end.

(** Pattern 3 *)
Definition hierarchy_patterns (g : ConsciousnessGrid) : list Pattern :=
  if 10 <? length (neurons g) then
    let centrality := betweenness_centrality (network g) in
    let hubs :=
      filter (fun nc => Rltb 0.1 (snd nc)) centrality in
    if 2 <=? length hubs
    then [mkPattern Hierarchy (map fst hubs) (mean (map snd hubs))]
    else []
  else [].

(** Pattern 4 *)
Definition attractor_patterns (g : ConsciousnessGrid) : list Pattern :=
  let activation_history := map activation (neurons g) in
  if 5 <? length activation_history then
    let v := variance activation_history in
    if Rltb 0.1 v && Rltb v 0.5
    then [mkPattern StrangeAttractor (seq 0 (length (neurons g)))
                    (1 - Rabs (v - 0.3))]
    else []
  else [].

Section Detector.

(** [list(nx.simple_cycles(G))] is left open: which cycles networkx lists,
    and in which order, depends on its version; [None] stands for a call
    that raises (before networkx 3.1 the function rejects undirected
    graphs). *)
Variable simple_cycles : Graph -> option (list (list nat)).

(** [ConsciousnessGrid.detect_consciousness_patterns]. The synchronisation
    groups are computed into [sync_groups], a local list that the function
    never adds to [patterns]. *)
Definition detect_consciousness_patterns (g : ConsciousnessGrid)
  : list Pattern :=
  let loops :=
    match simple_cycles (network g) with
    | Some cycles => loop_patterns (neurons g) cycles
    | None => []
    end in
  let _sync_groups := sync_groups (neurons g) in
  loops ++ hierarchy_patterns g ++ attractor_patterns g.

(** [ConsciousnessGrid.calculate_consciousness_level]. With fewer than five
    neurons nothing is stored. *)
Definition calculate_consciousness_level (g : ConsciousnessGrid)
  : ConsciousnessGrid * Outcome R :=
  if length (neurons g) <? 5 then (g, Return 0%R)
  else
    let patterns := detect_consciousness_patterns g in
    let complexity_score :=
      (Rmin 1 (INR (length (neurons g)) / 50) * 0.2)%R in
    let pattern_types := nodup PatternType_eq_dec (map p_type patterns) in
    let diversity_score := (INR (length pattern_types) / 4 * 0.3)%R in
    let strength_score :=
      match patterns with
      | [] => 0%R
      | _ => (mean (map p_strength patterns) * 0.3)%R
      end in
    let integration :=
      if 1 <? length (neurons g) then
        match average_clustering (network g) with
        | Some c => Return (c * 0.2)%R
        | None => Raise ZeroDivisionError
        end
      else Return 0%R in
    match integration with
    | Raise e => (g, Raise e)
    | Return integration =>
        let level :=
          (complexity_score + diversity_score + strength_score + integration)%R
        in
        (mkGrid (size g) (grid g) (neurons g) (network g) level patterns,
         Return level)
    end.

(** ** Game controller *)

Record PlayerInfo : Type := mkPlayer {
  player_type : string;
  neurons_placed : nat;
  consciousness_achieved : bool;
  peak_consciousness : R
}.

Record ConsciousnessEmergenceGame : Type := mkGame {
  game_grid : ConsciousnessGrid;
  players : list (string * PlayerInfo);
  turn : nat;
  max_turns : nat;
  winner : option string
}.

(** [ConsciousnessEmergenceGame.__init__] *)
Definition new_game : ConsciousnessEmergenceGame :=
  mkGame (new_grid 19) [] 0 100 None.

Definition add_player (g : ConsciousnessEmergenceGame) (player_id : string)
           (ptype : string) : ConsciousnessEmergenceGame :=
  mkGame (game_grid g)
         (dict_set (players g) player_id (mkPlayer ptype 0 false 0%R))
         (turn g) (max_turns g) (winner g).

(** The move dict [{x, y, type, processing_power?}]. *)
Record Move : Type := mkMove {
  move_x : Z;
  move_y : Z;
  move_type : string;
  move_processing_power : option R
}.

(** [move.get('processing_power', 5.0)] *)
Definition get_processing_power (move : Move) : R :=
  match move_processing_power move with
  | Some p => p
  | None => 5%R
  end.

(** The dict returned by [play_turn], by its [status]. *)
Inductive TurnResult : Type :=
| game_over (winner : string)
| invalid_move (reason : string)
| win (winner : string) (level : R) (patterns : list Pattern)
| continue (level : R) (patterns : list Pattern) (turn : nat).

(** [if self.winner:] tests the truth value: [None] and the empty string
    are both false. *)
Definition truthy (w : option string) : option string :=
  match w with
  | Some (String c s) => Some (String c s)
  | _ => None
  end.

(** [ConsciousnessEmergenceGame.play_turn] (the coroutine, awaited). *)
Definition play_turn (g : ConsciousnessEmergenceGame) (player_id : string)
           (move : Move) : ConsciousnessEmergenceGame * Outcome TurnResult :=
  match truthy (winner g) with
  | Some w => (g, Return (game_over w))
  | None =>
      match NeuronType_of_name (upper (move_type move)) with
      | None => (g, Raise KeyError)
      | Some neuron_type =>
          let power := get_processing_power move in
          let '(gr, placed) :=
            place_neuron (game_grid g) (move_x move) (move_y move)
                         neuron_type power player_id in
          let g1 := mkGame gr (players g) (turn g) (max_turns g) (winner g) in
          match placed with
          | Raise e => (g1, Raise e)
          | Return None => (g1, Return (invalid_move "position_occupied"))
          | Return (Some _) =>
              match dict_get (players g) player_id with
              | None => (g1, Raise KeyError)
              | Some info =>
                  let info1 :=
                    mkPlayer (player_type info) (neurons_placed info + 1)
                             (consciousness_achieved info)
                             (peak_consciousness info) in
                  let gr5 := Nat.iter 5 simulate_step gr in
                  let '(gr6, scored) := calculate_consciousness_level gr5 in
                  match scored with
                  | Raise e =>
                      (mkGame gr6 (dict_set (players g) player_id info1)
                              (turn g) (max_turns g) (winner g),
                       Raise e)
                  | Return consciousness =>
                      let info2 :=
                        mkPlayer (player_type info1) (neurons_placed info1)
                                 (consciousness_achieved info1)
                                 (Rmax (peak_consciousness info1)
                                       consciousness) in
                      if Rge_dec consciousness 0.8 then
                        let info3 :=
                          mkPlayer (player_type info2) (neurons_placed info2)
                                   true (peak_consciousness info2) in
                        (mkGame gr6 (dict_set (players g) player_id info3)
                                (turn g) (max_turns g) (Some player_id),
                         Return (win player_id consciousness
                                     (emergence_patterns gr6)))
                      else
                        (mkGame gr6 (dict_set (players g) player_id info2)
                                (turn g + 1) (max_turns g) (winner g),
                         Return (continue consciousness
                                          (emergence_patterns gr6)
                                          (turn g + 1)))
                  end
              end
          end
      end
  end.

(** The states a grid goes through, from [ConsciousnessGrid(sz)] by its
    three operations. *)
Inductive reachable_grid (sz : nat) : ConsciousnessGrid -> Prop :=
| reach_new : reachable_grid sz (new_grid sz)
| reach_place g px py t p pl :
    reachable_grid sz g ->
    reachable_grid sz (fst (place_neuron g px py t p pl))
| reach_step g :
    reachable_grid sz g -> reachable_grid sz (simulate_step g)
| reach_score g :
    reachable_grid sz g ->
    reachable_grid sz (fst (calculate_consciousness_level g)).

(** The states a session goes through. *)
Inductive reachable : ConsciousnessEmergenceGame -> Prop :=
| reach_init : reachable new_game
| reach_add_player g player_id ptype :
    reachable g -> reachable (add_player g player_id ptype)
| reach_play_turn g player_id move :
    reachable g -> reachable (fst (play_turn g player_id move)).

End Detector.

(** *** State export *)

Record NeuronExport : Type := mkNeuronExport {
  ex_x : Z;
  ex_y : Z;
  ex_type : string;
  ex_activation : R;
  ex_connections : list nat
}.

Record NetworkStats : Type := mkNetworkStats {
  stat_nodes : nat;
  stat_edges : nat;
  stat_clustering : R
}.

Record GameState : Type := mkGameState {
  grid_state : list (list nat);
  st_neurons : list (nat * NeuronExport);
  st_consciousness_level : R;
  st_patterns : list Pattern;
  network_stats : NetworkStats
}.

Definition export_neuron (n : Neuron) : NeuronExport :=
  mkNeuronExport (x n) (y n) (NeuronType_value (type n)) (activation n)
                 (connections n).

(** [ConsciousnessEmergenceGame.get_game_state]. A neuron object is truthy,
    so a cell exports as [1] exactly when it is occupied. On a graph with
    nodes [average_clustering] returns ([average_clustering_some]). *)
Definition get_game_state (g : ConsciousnessEmergenceGame) : GameState :=
  let gr := game_grid g in
  mkGameState
    (map (map (fun cell : option nat =>
                 match cell with Some _ => 1 | None => 0 end))
         (grid gr))
    (map (fun e => (fst e, export_neuron (snd e))) (items (neurons gr)))
    (consciousness_level gr)
    (emergence_patterns gr)
    (mkNetworkStats
       (number_of_nodes (network gr))
       (number_of_edges (network gr))
       (if 0 <? number_of_nodes (network gr)
        then match average_clustering (network gr) with
             | Some c => c
             | None => 0%R
             end
        else 0%R)).

(** ** Specification vocabulary *)

(** Without any input every activation and memory state is zero. *)
Definition quiescent (ns : list Neuron) : Prop :=
  Forall (fun n => activation n = 0%R /\ memory_state n = 0%R) ns.

(** [k] is one of the keys the new neuron was wired to. *)
Definition linked (added : list nat) (k : nat) : bool :=
  existsb (Nat.eqb k) added.

(** The number of occupied cells. *)
Definition occupied_row (row : list (option nat)) : nat :=
  length (filter (fun c => match c with Some _ => true | None => false end)
                 row).

Definition occupied (cells : list (list (option nat))) : nat :=
  list_sum (map occupied_row cells).

(** What every reachable grid satisfies. *)
Record grid_inv (sz : nat) (g : ConsciousnessGrid) : Prop := mk_grid_inv {
  inv_size : size g = sz;
  inv_rows : length (grid g) = sz;
  inv_cols : Forall (fun row => length row = sz) (grid g);
  inv_quiescent : quiescent (neurons g);
  inv_ids : forall i n, nth_error (neurons g) i = Some n -> id n = i;
  inv_conn_range :
    forall n c, In n (neurons g) -> In c (connections n) ->
                c < length (neurons g);
  inv_conn_nodup : forall n, In n (neurons g) -> NoDup (connections n);
  inv_sym :
    forall a b na,
      nth_error (neurons g) a = Some na -> In b (connections na) ->
      exists nb, nth_error (neurons g) b = Some nb
                 /\ In a (connections nb)
                 /\ has_edge (network g) a b = true;
  inv_nodes :
    forall i, i < length (neurons g) -> has_node (network g) i = true;
  inv_occupied : occupied (grid g) = length (neurons g);
  inv_level : (0 <= consciousness_level g <= 0.775)%R
}.

(** The content of the cell at in-bounds coordinates; [None] out of
    bounds. *)
Definition cell_at (g : ConsciousnessGrid) (px py : Z)
  : option (option nat) :=
  if ((0 <=? px) && (px <? Z.of_nat (size g))
      && (0 <=? py) && (py <? Z.of_nat (size g)))%Z
  then match nth_error (grid g) (Z.to_nat px) with
       | Some row => nth_error row (Z.to_nat py)
       | None => None
       end
  else None.

(** The keys, in creation order from [nid] on, of the neurons of [ns] that
    lie within distance 5 of [(px, py)]. *)
Definition nearby (px py : Z) (nid : nat) (ns : list Neuron) : list nat :=
  map fst
      (filter (fun e =>
                 ((px - x (snd e)) ^ 2 + (py - y (snd e)) ^ 2 <=? 25)%Z)
              (combine (seq nid (length ns)) ns)).

(** What one neuron contributes to a step besides its position and id. *)
Definition same_step_inputs (n1 n2 : Neuron) : Prop :=
  connections n1 = connections n2
  /\ activation n1 = activation n2
  /\ type n1 = type n2
  /\ processing_power n1 = processing_power n2
  /\ memory_state n1 = memory_state n2.


(** The attributes of a neuron that the state export carries. *)
Definition same_exported_attributes (n1 n2 : Neuron) : Prop :=
  x n1 = x n2 /\ y n1 = y n2 /\ type n1 = type n2
  /\ activation n1 = activation n2 /\ connections n1 = connections n2.

(** Two neurons that agree on every attribute but the processing power. *)
Definition same_but_processing_power (n1 n2 : Neuron) : Prop :=
  id n1 = id n2 /\ x n1 = x n2 /\ y n1 = y n2 /\ type n1 = type n2
  /\ connections n1 = connections n2 /\ activation n1 = activation n2
  /\ memory_state n1 = memory_state n2.

Definition occupancy (g : ConsciousnessGrid) : list (list bool) :=
  map (map (fun cell : option nat =>
              match cell with Some _ => true | None => false end))
      (grid g).

(** ** Sample sessions *)

(** A cycle search that raises, as networkx before 3.1 does on an
    undirected graph: the detector catches the exception and goes on
    without loop patterns. *)
Definition simple_cycles_unsupported : Graph -> option (list (list nat)) :=
  fun _ => None.

(** A fresh session with one registered player. *)
Definition session0 : ConsciousnessEmergenceGame :=
  add_player new_game "p" "single".

(** [k] neurons placed in a row, at [(0,0)], [(1,0)], ... *)
Definition placed_in_row (k : nat) : ConsciousnessGrid :=
  fold_left
    (fun g i => fst (place_neuron g (Z.of_nat i) 0 PROCESSOR 5%R "p"))
    (seq 0 k) (new_grid 19).

(** The session after the first turn of player [p] at [(0,0)]. *)
Definition session1 : ConsciousnessEmergenceGame :=
  mkGame (placed_in_row 1) [("p"%string, mkPlayer "single" 1 false 0%R)]
         1 100 None.



(** The session after a first turn at [(0,0)] with a processor of the given
    processing power. *)
Definition session_with_power (p : R) : ConsciousnessEmergenceGame :=
  fst (play_turn simple_cycles_unsupported session0 "p"
                 (mkMove 0 0 "processor" (Some p))).

(** The session after [k] turns of player [p], who places processors in a
    row. *)
Definition session_after (k : nat) : ConsciousnessEmergenceGame :=
  fold_left
    (fun g i =>
       fst (play_turn simple_cycles_unsupported g "p"
                      (mkMove (Z.of_nat i) 0 "processor" None)))
    (seq 0 k) session0.

(** Two small graphs: the path [0 - 1 - 2] and the triangle. *)
Definition path_graph : Graph := add_edge (add_edge empty_graph 0 1) 1 2.

Definition triangle_graph : Graph := add_edge path_graph 2 0.

(** ** Further vocabulary *)


(** The index that Python resolves [i] to, in a sequence of length [sz]:
    a negative index counts from the end. *)
Definition wrap (sz : nat) (i : Z) : Z :=
  if (i <? 0)%Z then (i + Z.of_nat sz)%Z else i.

(** [i] is a valid index of a sequence of length [sz]. *)
Definition valid_index (sz : nat) (i : Z) : bool :=
  ((- Z.of_nat sz <=? i) && (i <? Z.of_nat sz))%Z.

(** The number of connections stored in the registry (every connection is
    stored at both ends). *)
Definition total_degree (ns : list Neuron) : nat :=
  list_sum (map (fun n => length (connections n)) ns).

(** How the graph mirrors the registry on a grid that can be reached. *)
Record graph_inv (g : ConsciousnessGrid) : Prop := mk_graph_inv {
  gi_nodes : map fst (g_node (network g)) = seq 0 (length (neurons g));
  gi_players : Forall (fun e => snd e <> None) (g_node (network g));
  gi_edges :
    forall u v,
      In (u, v) (g_edges (network g)) ->
      v < u < length (neurons g)
      /\ exists nu, nth_error (neurons g) u = Some nu
                    /\ In v (connections nu);
  gi_edge_count :
    2 * length (g_edges (network g)) = total_degree (neurons g);
  gi_no_self :
    forall k n, nth_error (neurons g) k = Some n -> ~ In k (connections n)
}.

(** ** The collective strategy *)

(** How a call of [CollectiveStrategy] ends: with a value, with the
    [AttributeError] of a method that the class does not define, or with
    one of the exceptions of the sequence and dict operations. *)
Inductive StrategyOutcome (A : Type) : Type :=
| Proposed (a : A)
| AttributeError (attribute : string)
| LookupError (e : Exn).

Arguments Proposed {A} a.
Arguments AttributeError {A} attribute.
Arguments LookupError {A} e.

(** [f"model_{i}" for i in range(num_models)] *)
Definition model_names (num_models : Z) : list string :=
  map (fun i => ("model_" ++ NilZero.string_of_uint (Nat.to_uint i))%string)
      (seq 0 (Z.to_nat num_models)).

(** [self.strategies] *)
Definition strategies : list (string * string) :=
  [("model_0", "build_loops"); ("model_1", "build_hierarchy");
   ("model_2", "create_oscillators"); ("model_3", "connect_distant");
   ("model_4", "fill_gaps"); ("model_5", "emergence_detector")]%string.

(** [CollectiveStrategy._model_propose]. The three methods it dispatches
    to, [_find_loop_position], [_find_hub_position] and
    [_find_oscillator_position], are defined nowhere: the attribute lookup
    raises. Neither the model nor the game state is read. *)
Definition _model_propose (model strategy : string) (game_state : GameState)
  : StrategyOutcome Move :=
  if String.eqb strategy "build_loops"
  then AttributeError "_find_loop_position"
  else if String.eqb strategy "build_hierarchy"
  then AttributeError "_find_hub_position"
  else if String.eqb strategy "create_oscillators"
  then AttributeError "_find_oscillator_position"
  else Proposed (mkMove 9 9 "processor" (Some 7%R)).

(** [CollectiveStrategy._consensus_decision]: [proposals[0]]. *)
Definition _consensus_decision (proposals : list Move)
           (game_state : GameState) : StrategyOutcome Move :=
  match proposals with
  | [] => LookupError IndexError
  | p :: _ => Proposed p
  end.

(** The loop of [collective_move] over the models. *)
Fixpoint collect_proposals (models : list string) (game_state : GameState)
  : StrategyOutcome (list Move) :=
  match models with
  | [] => Proposed []
  | model :: rest =>
      match dict_get strategies model with
      | None => LookupError KeyError
      | Some strategy =>
          match _model_propose model strategy game_state with
          | Proposed proposal =>
              match collect_proposals rest game_state with
              | Proposed proposals => Proposed (proposal :: proposals)
              | AttributeError a => AttributeError a
              | LookupError e => LookupError e
              end
          | AttributeError a => AttributeError a
          | LookupError e => LookupError e
          end
      end
  end.

(** [CollectiveStrategy(num_models).collective_move(game_state)] *)
Definition collective_move (num_models : Z) (game_state : GameState)
  : StrategyOutcome Move :=
  match collect_proposals (model_names num_models) game_state with
  | Proposed proposals => _consensus_decision proposals game_state
  | AttributeError a => AttributeError a
  | LookupError e => LookupError e
  end.

(** ** Filling the board *)

(** The [i]-th move of a player who fills the board row by row. *)
Definition fill_move (i : nat) : Move :=
  mkMove (Z.of_nat (i / 19)) (Z.of_nat (i mod 19)) "sensor" None.

(** The session after the first [k] of these moves by player [p]. *)
Definition session_filled
           (simple_cycles : Graph -> option (list (list nat))) (k : nat)
  : ConsciousnessEmergenceGame :=
  fold_left (fun g i => fst (play_turn simple_cycles g "p" (fill_move i)))
            (seq 0 k) session0.

(** * Properties *)

Local Open Scope R_scope.

(** ** Reals *)

Lemma tanh_0 : tanh 0 = 0.
Proof. unfold tanh. rewrite sinh_0. lra. Qed.

Lemma cosh_pos (a : R) : 0 < cosh a.
Proof.
  unfold cosh.
  pose proof (exp_pos a). pose proof (exp_pos (- a)). lra.
Qed.

Lemma tanh_pos (a : R) : 0 < a -> 0 < tanh a.
Proof.
  intros Ha. unfold tanh.
  apply Rdiv_lt_0_compat; [| apply cosh_pos].
  rewrite <- sinh_0. now apply sinh_lt.
Qed.

Lemma Rsum_zero (l : list R) : Forall (fun a => a = 0) l -> Rsum l = 0.
Proof.
  induction 1 as [| a l Ha _ IH]; simpl; [reflexivity |].
  rewrite Ha, IH. lra.
Qed.

Lemma Rsum_bounds (lo hi : R) (l : list R) :
  Forall (fun a => lo <= a <= hi) l ->
  lo * INR (length l) <= Rsum l <= hi * INR (length l).
Proof.
  induction 1 as [| a l Ha _ IH].
  - simpl. lra.
  - cbn [Rsum fold_right length]. fold (Rsum l). rewrite S_INR. lra.
Qed.

Lemma INR_length_pos {A} (l : list A) : l <> [] -> 0 < INR (length l).
Proof.
  destruct l as [| a l]; [congruence |]. intros _.
  apply lt_0_INR. simpl. lia.
Qed.

Lemma mean_bounds (lo hi : R) (l : list R) :
  l <> [] -> Forall (fun a => lo <= a <= hi) l -> lo <= mean l <= hi.
Proof.
  intros Hne Hall. unfold mean.
  pose proof (INR_length_pos l Hne) as Hpos.
  pose proof (Rsum_bounds _ _ _ Hall) as [Hlo Hhi].
  split; apply Rmult_le_reg_r with (INR (length l)); try lra;
    unfold Rdiv; rewrite Rmult_assoc, Rinv_l; lra.
Qed.

Lemma mean_zero (l : list R) : Forall (fun a => a = 0) l -> mean l = 0.
Proof.
  intros H. unfold mean. rewrite (Rsum_zero _ H). unfold Rdiv. lra.
Qed.

Lemma variance_zero (l : list R) :
  Forall (fun a => a = 0) l -> variance l = 0.
Proof.
  intros H. unfold variance. apply mean_zero.
  rewrite (mean_zero _ H). rewrite Forall_map.
  eapply Forall_impl; [| exact H]. simpl. intros a ->. lra.
Qed.

Lemma Rltb_true (a b : R) : Rltb a b = true <-> a < b.
Proof. unfold Rltb. destruct (Rlt_dec a b); intuition congruence. Qed.

Lemma Rltb_false (a b : R) : Rltb a b = false <-> b <= a.
Proof.
  unfold Rltb. destruct (Rlt_dec a b); split; intros; try congruence; lra.
Qed.

(** The distance test of [can_connect] on the squared integer distance is
    the source's test [sqrt(d2) <= 5.0]. *)
Lemma can_connect_distance (a b : Neuron) :
  (squared_distance a b <=? 25)%Z = true
  <-> sqrt (IZR (squared_distance a b)) <= 5.
Proof.
  assert (Hnn : (0 <= squared_distance a b)%Z)
    by (unfold squared_distance; nia).
  assert (H5 : sqrt 25 = 5).
  { replace 25 with (5 * 5) by lra. apply sqrt_square. lra. }
  rewrite Z.leb_le. split; intros H.
  - rewrite <- H5. apply sqrt_le_1_alt. apply IZR_le in H. exact H.
  - apply le_IZR. rewrite <- H5 in H.
    apply sqrt_le_0 in H; [exact H | apply IZR_le; exact Hnn | lra].
Qed.

(** ** Quiescence: without any input, every activation stays at zero *)

Lemma input_sum_quiescent (ns : list Neuron) (n : Neuron) :
  quiescent ns -> input_sum ns n = 0.
Proof.
  intros Hq. unfold input_sum. apply Rsum_zero.
  rewrite Forall_map. apply Forall_forall. intros c _.
  destruct (nth_error ns c) as [nc |] eqn:E; [| reflexivity].
  apply nth_error_In in E.
  unfold quiescent in Hq. rewrite Forall_forall in Hq.
  destruct (Hq _ E) as [-> _]. lra.
Qed.

Lemma step_neuron_quiescent (ns : list Neuron) (level : R) (n : Neuron) :
  quiescent ns -> activation n = 0 -> memory_state n = 0 ->
  step_neuron ns level n = n.
Proof.
  intros Hq Ha Hm. unfold step_neuron.
  rewrite (input_sum_quiescent _ n Hq).
  destruct n as [i px py t p c a m]. simpl in *. subst a m.
  unfold with_activation, with_memory_state; simpl.
  destruct t; f_equal;
    repeat match goal with
           | |- context [tanh ?e] =>
               replace e with 0 by lra; rewrite tanh_0
           end; lra.
Qed.

Lemma simulate_step_quiescent (g : ConsciousnessGrid) :
  quiescent (neurons g) -> simulate_step g = g.
Proof.
  intros Hq. unfold simulate_step.
  assert (Hmap : map (step_neuron (neurons g) (consciousness_level g))
                     (neurons g) = neurons g).
  { rewrite <- (map_id (neurons g)) at 3. apply map_ext_in.
    intros n Hn. pose proof Hq as Hq'.
    unfold quiescent in Hq'. rewrite Forall_forall in Hq'.
    destruct (Hq' _ Hn). now apply step_neuron_quiescent. }
  rewrite Hmap. destruct g; reflexivity.
Qed.

Lemma iter_simulate_step_quiescent (k : nat) (g : ConsciousnessGrid) :
  quiescent (neurons g) -> Nat.iter k simulate_step g = g.
Proof.
  intros Hq. induction k as [| k IH]; simpl; [reflexivity |].
  rewrite IH. now apply simulate_step_quiescent.
Qed.

(** ** Ranges of the graph statistics *)

Local Close Scope R_scope.

Lemma filter_and_length {A} (p q : A -> bool) (l : list A) :
  length (filter (fun a => p a && q a) l) <= length (filter p l).
Proof.
  induction l as [| a l IH]; simpl; [lia |].
  destruct (p a), (q a); simpl; lia.
Qed.

Lemma filter_neq_notin (w : nat) (l : list nat) :
  ~ In w l -> filter (fun u => negb (u =? w)) l = l.
Proof.
  induction l as [| a l IH]; simpl; intros Hn; [reflexivity |].
  destruct (Nat.eqb_spec a w) as [-> | Hne]; simpl.
  - exfalso. apply Hn. now left.
  - f_equal. apply IH. intros H. apply Hn. now right.
Qed.

Lemma filter_neq_length (w : nat) (l : list nat) :
  NoDup l -> In w l ->
  S (length (filter (fun u => negb (u =? w)) l)) = length l.
Proof.
  induction 1 as [| a l Hnotin Hnd IH]; simpl; intros Hin; [contradiction |].
  destruct (Nat.eqb_spec a w) as [-> | Hne]; simpl.
  - now rewrite filter_neq_notin.
  - destruct Hin as [-> | Hin]; [congruence |]. f_equal. now apply IH.
Qed.

Lemma list_sum_le (A : Type) (f : A -> nat) (k : nat) (l : list A) :
  (forall a, In a l -> f a <= k) -> list_sum (map f l) <= length l * k.
Proof.
  induction l as [| a l IH]; simpl; intros H; [lia |].
  pose proof (H a (or_introl eq_refl)).
  assert (list_sum (map f l) <= length l * k) by (apply IH; auto).
  lia.
Qed.

Lemma list_sum_const (A : Type) (f : A -> nat) (k : nat) (l : list A) :
  (forall a, In a l -> f a = k) -> list_sum (map f l) = length l * k.
Proof.
  induction l as [| a l IH]; simpl; intros H; [lia |].
  rewrite (H a (or_introl eq_refl)), IH by auto. lia.
Qed.

Lemma NoDup_node_ids (g : Graph) : NoDup (node_ids g).
Proof. apply NoDup_nodup. Qed.

Lemma NoDup_neighbors (g : Graph) (v : nat) : NoDup (neighbors g v).
Proof. apply NoDup_filter, NoDup_node_ids. Qed.

Lemma triangles_twice_le (g : Graph) (v : nat) :
  triangles_twice g v
  <= length (neighbors g v) * (length (neighbors g v) - 1).
Proof.
  unfold triangles_twice. apply list_sum_le. intros w Hw.
  etransitivity; [apply filter_and_length |].
  pose proof (filter_neq_length w _ (NoDup_neighbors g v) Hw). lia.
Qed.

Lemma ordered_pairs_length (l : list nat) :
  NoDup l -> length (ordered_pairs l) = length l * (length l - 1).
Proof.
  intros Hnd. unfold ordered_pairs. rewrite length_flat_map.
  apply list_sum_const. intros s Hs. rewrite length_map.
  pose proof (filter_neq_length s _ Hnd Hs). lia.
Qed.

Local Open Scope R_scope.

Lemma ratio_range (a b : nat) : (a <= b)%nat -> (0 < b)%nat ->
  0 <= INR a / INR b <= 1.
Proof.
  intros Hab Hb.
  assert (0 < INR b) by (apply lt_0_INR; exact Hb).
  assert (0 <= INR a) by apply pos_INR.
  assert (INR a <= INR b) by (apply le_INR; exact Hab).
  split.
  - apply Rmult_le_reg_r with (INR b); [lra |].
    unfold Rdiv. rewrite Rmult_assoc, Rinv_l; lra.
  - apply Rmult_le_reg_r with (INR b); [lra |].
    unfold Rdiv. rewrite Rmult_assoc, Rinv_l; lra.
Qed.

Lemma clustering_range (g : Graph) (v : nat) : 0 <= clustering g v <= 1.
Proof.
  unfold clustering.
  destruct (Nat.eqb_spec (triangles_twice g v) 0) as [_ | Hne]; [lra |].
  pose proof (triangles_twice_le g v).
  apply ratio_range; lia.
Qed.

Lemma average_clustering_range (g : Graph) (c : R) :
  average_clustering g = Some c -> 0 <= c <= 1.
Proof.
  unfold average_clustering.
  destruct (node_ids g) as [| v vs] eqn:E; [discriminate |].
  intros [= <-]. apply mean_bounds; [discriminate |].
  apply Forall_forall. intros a Ha.
  change (In a (map (clustering g) (v :: vs))) in Ha.
  apply in_map_iff in Ha as (w & <- & _). apply clustering_range.
Qed.

Lemma node_ids_nil (g : Graph) : node_ids g = [] -> g_node g = [].
Proof.
  unfold node_ids. intros H.
  destruct (g_node g) as [| e l]; [reflexivity |].
  assert (Hin : In (fst e) (nodup Nat.eq_dec (map fst (e :: l))))
    by (apply nodup_In; now left).
  rewrite H in Hin. contradiction.
Qed.

(** A graph with nodes has an average clustering. *)
Lemma average_clustering_some (g : Graph) :
  g_node g <> [] -> exists c, average_clustering g = Some c.
Proof.
  intros Hne. unfold average_clustering.
  destruct (node_ids g) as [| v vs] eqn:E.
  - exfalso. apply Hne. now apply node_ids_nil.
  - eauto.
Qed.

Lemma pair_dependency_range (g : Graph) (v s t : nat) :
  0 <= pair_dependency g v s t <= 1.
Proof.
  unfold pair_dependency.
  destruct (shortest_paths g s t) as [| p ps] eqn:E; [lra |].
  apply ratio_range.
  - apply filter_length_le.
  - simpl. lia.
Qed.

Lemma betweenness_range (g : Graph) (v : nat) :
  In v (node_ids g) -> 0 <= betweenness g v <= 1.
Proof.
  intros Hv. unfold betweenness.
  set (others := filter (fun u => negb (u =? v)) (node_ids g)).
  set (deps := map _ (ordered_pairs others)).
  assert (Hm : S (length others) = length (node_ids g))
    by (apply filter_neq_length; [apply NoDup_node_ids | exact Hv]).
  assert (Hnd : NoDup others) by apply NoDup_filter, NoDup_node_ids.
  assert (Hlen : length deps = (length others * (length others - 1))%nat)
    by (unfold deps; rewrite length_map; now apply ordered_pairs_length).
  assert (Hall : Forall (fun a => 0 <= a <= 1) deps).
  { unfold deps. rewrite Forall_map. apply Forall_forall.
    intros st _. apply pair_dependency_range. }
  pose proof (Rsum_bounds _ _ _ Hall) as [Hlo Hhi]. rewrite Hlen in Hlo, Hhi.
  destruct (Nat.leb_spec (length (node_ids g)) 2) as [Hn | Hn].
  - assert (Hz : (length others * (length others - 1) = 0)%nat) by nia.
    rewrite Hz in Hhi. simpl in Hhi. lra.
  - replace (length (node_ids g) - 1)%nat with (length others) by lia.
    replace (length (node_ids g) - 2)%nat with (length others - 1)%nat by lia.
    rewrite mult_INR in Hhi.
    assert (0 < INR (length others)) by (apply lt_0_INR; lia).
    assert (0 < INR (length others - 1)) by (apply lt_0_INR; lia).
    set (k := INR (length others) * INR (length others - 1)) in *.
    assert (0 < k) by (unfold k; nra).
    split.
    + apply Rmult_le_pos; [lra |].
      apply Rlt_le, Rdiv_lt_0_compat; lra.
    + apply Rmult_le_reg_r with k; [lra |].
      unfold Rdiv. rewrite Rmult_assoc, Rmult_1_l, Rinv_l; lra.
Qed.

Lemma betweenness_centrality_range (g : Graph) (nc : nat * R) :
  In nc (betweenness_centrality g) -> 0 <= snd nc <= 1.
Proof.
  unfold betweenness_centrality. rewrite in_map_iff.
  intros (v & <- & Hv). simpl. now apply betweenness_range.
Qed.

(** The statistics on the two small graphs, as networkx computes them. *)
Example shortest_paths_path_graph :
  shortest_paths path_graph 0 2 = [[0; 1; 2]]%nat.
Proof. reflexivity. Qed.

Example betweenness_centrality_path_graph :
  betweenness_centrality path_graph = [(0%nat, 0); (1%nat, 1); (2%nat, 0)].
Proof.
  unfold betweenness_centrality, betweenness, pair_dependency.
  cbn. unfold Rdiv. repeat f_equal; field.
Qed.

Example average_clustering_path_graph :
  average_clustering path_graph = Some 0.
Proof.
  unfold average_clustering, clustering, mean. cbn. apply f_equal. field.
Qed.

Example average_clustering_triangle_graph :
  average_clustering triangle_graph = Some 1.
Proof.
  unfold average_clustering, clustering, mean. cbn. apply f_equal. field.
Qed.

(** ** Sequence indexing *)

Local Close Scope R_scope.

Lemma py_index_lt (len : nat) (i : Z) (k : nat) :
  py_index len i = Some k -> k < len.
Proof.
  unfold py_index.
  destruct ((0 <=? i)%Z && (i <? Z.of_nat len)%Z) eqn:E1.
  - intros [= <-]. apply andb_prop in E1 as [H1 H2]. lia.
  - destruct ((- Z.of_nat len <=? i)%Z && (i <? 0)%Z) eqn:E2; [| discriminate].
    intros [= <-]. apply andb_prop in E2 as [H1 H2]. lia.
Qed.

Lemma py_index_in_bounds (len : nat) (i : Z) :
  (0 <= i < Z.of_nat len)%Z -> py_index len i = Some (Z.to_nat i).
Proof.
  intros H. unfold py_index.
  replace ((0 <=? i)%Z && (i <? Z.of_nat len)%Z) with true; [reflexivity |].
  symmetry. apply andb_true_intro. split; lia.
Qed.

Lemma py_index_out (len : nat) (i : Z) :
  (i < - Z.of_nat len \/ Z.of_nat len <= i)%Z -> py_index len i = None.
Proof.
  intros H. unfold py_index.
  replace ((0 <=? i)%Z && (i <? Z.of_nat len)%Z) with false
    by (symmetry; apply andb_false_iff; lia).
  replace ((- Z.of_nat len <=? i)%Z && (i <? 0)%Z) with false
    by (symmetry; apply andb_false_iff; lia).
  reflexivity.
Qed.

Lemma getitem_out {A} (l : list A) (i : Z) :
  (i < - Z.of_nat (length l) \/ Z.of_nat (length l) <= i)%Z ->
  getitem l i = None.
Proof. intros H. unfold getitem. now rewrite py_index_out. Qed.

Lemma getitem_some {A} (l : list A) (i : Z) (a : A) :
  getitem l i = Some a ->
  exists k, py_index (length l) i = Some k /\ nth_error l k = Some a.
Proof.
  unfold getitem. destruct (py_index (length l) i) as [k |]; [| discriminate].
  eauto.
Qed.

Lemma length_list_set {A} (l : list A) (k : nat) (v : A) :
  length (list_set l k v) = length l.
Proof.
  revert k. induction l as [| a l IH]; intros [| k]; simpl; auto.
Qed.

Lemma length_setitem {A} (l : list A) (i : Z) (v : A) :
  length (setitem l i v) = length l.
Proof.
  unfold setitem. destruct (py_index (length l) i); [| reflexivity].
  apply length_list_set.
Qed.

Lemma list_set_In {A} (l : list A) (k : nat) (v a : A) :
  In a (list_set l k v) -> a = v \/ In a l.
Proof.
  revert k. induction l as [| b l IH]; intros [| k]; simpl; try tauto.
  - intuition.
  - intros [H | H]; [tauto |]. apply IH in H. tauto.
Qed.

Lemma list_sum_list_set {A} (f : A -> nat) (l : list A) (k : nat) (a v : A) :
  nth_error l k = Some a ->
  list_sum (map f (list_set l k v)) + f a = list_sum (map f l) + f v.
Proof.
  revert k. induction l as [| b l IH]; intros [| k]; simpl; try discriminate.
  - intros [= ->]. lia.
  - intros H. specialize (IH _ H). lia.
Qed.

(** ** The auto-connect loop *)

Lemma same_edge_sym (u v : nat) (e : nat * nat) :
  same_edge u v e = same_edge v u e.
Proof. unfold same_edge. apply orb_comm. Qed.

Lemma has_edge_sym (g : Graph) (u v : nat) : has_edge g u v = has_edge g v u.
Proof.
  unfold has_edge. induction (g_edges g) as [| e l IH]; simpl; [reflexivity |].
  now rewrite IH, same_edge_sym.
Qed.

Lemma g_edges_touch_node (g : Graph) (n : nat) :
  g_edges (touch_node g n) = g_edges g.
Proof. unfold touch_node. now destruct (has_node g n). Qed.

Lemma has_node_touch_node (g : Graph) (n m : nat) :
  has_node g m = true -> has_node (touch_node g n) m = true.
Proof.
  unfold touch_node. destruct (has_node g n) eqn:E; [auto |].
  unfold has_node. simpl. rewrite existsb_app. intros ->. reflexivity.
Qed.

Lemma has_edge_add_edge (g : Graph) (u v : nat) :
  has_edge (add_edge g u v) u v = true.
Proof.
  unfold add_edge.
  destruct (has_edge (touch_node (touch_node g u) v) u v) eqn:E; [exact E |].
  unfold has_edge. simpl. rewrite existsb_app. simpl.
  unfold same_edge at 2. simpl. rewrite !Nat.eqb_refl. simpl.
  apply orb_true_r.
Qed.

Lemma has_edge_add_edge_mono (g : Graph) (u v a b : nat) :
  has_edge g a b = true -> has_edge (add_edge g u v) a b = true.
Proof.
  intros H. unfold add_edge.
  assert (H' : has_edge (touch_node (touch_node g u) v) a b = true)
    by (unfold has_edge; now rewrite !g_edges_touch_node).
  destruct (has_edge (touch_node (touch_node g u) v) u v); [exact H' |].
  unfold has_edge in *. simpl. rewrite existsb_app, H'. reflexivity.
Qed.

Lemma has_node_add_edge_mono (g : Graph) (u v m : nat) :
  has_node g m = true -> has_node (add_edge g u v) m = true.
Proof.
  intros H. unfold add_edge.
  assert (H' : has_node (touch_node (touch_node g u) v) m = true)
    by now apply has_node_touch_node, has_node_touch_node.
  destruct (has_edge (touch_node (touch_node g u) v) u v); exact H'.
Qed.

Lemma has_edge_add_node (g : Graph) (n : nat) (p : string) (a b : nat) :
  has_edge (add_node g n p) a b = has_edge g a b.
Proof. unfold add_node. now destruct (has_node g n). Qed.

Lemma has_node_add_node (g : Graph) (n : nat) (p : string) :
  has_node (add_node g n p) n = true.
Proof.
  unfold add_node. destruct (has_node g n) eqn:E; unfold has_node in *; simpl.
  - rewrite existsb_exists in E. destruct E as (e & He & Heq).
    apply existsb_exists. exists (n, Some p). split; [| apply Nat.eqb_refl].
    apply in_map_iff. exists e. now rewrite Heq.
  - rewrite existsb_app. simpl. rewrite Nat.eqb_refl. apply orb_true_r.
Qed.

Lemma has_node_add_node_mono (g : Graph) (n : nat) (p : string) (m : nat) :
  has_node g m = true -> has_node (add_node g n p) m = true.
Proof.
  intros H. unfold add_node. destruct (has_node g n) eqn:E.
  - unfold has_node in *. simpl.
    rewrite existsb_exists in H. destruct H as (e & He & Heq).
    apply existsb_exists.
    exists (if fst e =? n then (n, Some p) else e). split.
    + apply in_map_iff. now exists e.
    + destruct (Nat.eqb_spec (fst e) n) as [Hen | Hen]; simpl; [| exact Heq].
      apply Nat.eqb_eq in Heq. apply Nat.eqb_eq. congruence.
  - unfold has_node in *. simpl. rewrite existsb_app, H. reflexivity.
Qed.

Lemma has_node_nonempty (g : Graph) (n : nat) :
  has_node g n = true -> g_node g <> [].
Proof. unfold has_node. destruct (g_node g); simpl; congruence. Qed.

Lemma with_connections_id (n : Neuron) (c : list nat) :
  id (with_connections n c) = id n.
Proof. reflexivity. Qed.

Lemma linked_out_of_range (added : list nat) (lo k : nat) :
  (forall c, In c added -> lo <= c) -> k < lo -> linked added k = false.
Proof.
  intros Hr Hk. unfold linked.
  destruct (existsb (Nat.eqb k) added) eqn:E; [| reflexivity].
  apply existsb_exists in E as (c & Hc & Heq).
  apply Nat.eqb_eq in Heq. subst c. specialize (Hr _ Hc). lia.
Qed.

Lemma linked_In (added : list nat) (k : nat) :
  linked added k = true <-> In k added.
Proof.
  unfold linked. rewrite existsb_exists. split.
  - intros (c & Hc & Heq). apply Nat.eqb_eq in Heq. now subst.
  - intros H. exists k. split; [exact H | apply Nat.eqb_refl].
Qed.

(** What the loop does, in terms of the list [added] of the keys it wires
    the new neuron to. *)
Lemma auto_connect_spec (ns : list Neuron) :
  forall neuron net made nid nw ns' net',
    auto_connect neuron net made nid ns = (nw, ns', net') ->
    exists added,
      nw = with_connections neuron (connections neuron ++ added)
      /\ made + length added <= Nat.max made 4
      /\ (forall c, In c added -> nid <= c < nid + length ns)
      /\ NoDup added
      /\ length ns' = length ns
      /\ (forall k n,
             nth_error ns k = Some n ->
             nth_error ns' k =
             Some (if linked added (nid + k)
                   then with_connections n (connections n ++ [id neuron])
                   else n))
      /\ (forall c, In c added -> has_edge net' (id neuron) c = true)
      /\ (forall a b, has_edge net a b = true -> has_edge net' a b = true)
      /\ (forall a, has_node net a = true -> has_node net' a = true).
Proof.
  induction ns as [| n rest IH]; intros neuron net made nid nw ns' net' H.
  - simpl in H. injection H as <- <- <-. exists [].
    split; [rewrite app_nil_r; now destruct neuron |].
    split; [simpl; lia |].
    split; [intros c [] |].
    split; [constructor |].
    split; [reflexivity |].
    split; [intros [| k] m; discriminate |].
    split; [intros c [] |]. auto.
  - simpl in H.
    destruct (can_connect neuron n && (made <? 4)) eqn:E.
    + destruct (auto_connect
                  (with_connections neuron (connections neuron ++ [nid]))
                  (add_edge net (id neuron) nid) (S made) (S nid) rest)
        as [[nw1 rest1] net1] eqn:Erec.
      injection H as <- <- <-.
      apply IH in Erec
        as (added & Hnw & Hcount & Hrange & Hnd & Hlen & Hidx & He & Hem & Hnm).
      apply andb_prop in E as [_ Hmade]. apply Nat.ltb_lt in Hmade.
      exists (nid :: added). repeat split.
      * rewrite Hnw. simpl. unfold with_connections. simpl.
        now rewrite <- app_assoc.
      * simpl. lia.
      * destruct H as [<- | H]; [lia | apply Hrange in H; lia].
      * destruct H as [<- | H]; [simpl; lia | apply Hrange in H; simpl; lia].
      * constructor; [| exact Hnd]. intros Hin. apply Hrange in Hin. lia.
      * simpl. now rewrite Hlen.
      * intros [| k] m Hm; simpl in *.
        -- injection Hm as <-. unfold linked. simpl.
           rewrite Nat.add_0_r, Nat.eqb_refl. reflexivity.
        -- rewrite (Hidx _ _ Hm). unfold linked. simpl.
           replace (nid + S k =? nid) with false
             by (symmetry; apply Nat.eqb_neq; lia).
           simpl. now rewrite Nat.add_succ_r.
      * intros c [<- | Hc].
        -- apply Hem. apply has_edge_add_edge.
        -- apply (He _ Hc).
      * intros a b Hab. apply Hem. now apply has_edge_add_edge_mono.
      * intros a Ha. apply Hnm. now apply has_node_add_edge_mono.
    + destruct (auto_connect neuron net made (S nid) rest)
        as [[nw1 rest1] net1] eqn:Erec.
      injection H as <- <- <-.
      apply IH in Erec
        as (added & Hnw & Hcount & Hrange & Hnd & Hlen & Hidx & He & Hem & Hnm).
      exists added. repeat split; auto.
      * apply Hrange in H. lia.
      * apply Hrange in H. simpl. lia.
      * simpl. now rewrite Hlen.
      * intros [| k] m Hm; simpl in *.
        -- injection Hm as <-.
           rewrite (linked_out_of_range added (S nid)); [reflexivity | | lia].
           intros c Hc. apply Hrange in Hc. lia.
        -- rewrite (Hidx _ _ Hm). now rewrite Nat.add_succ_r.
Qed.

(** ** Placement *)

Lemma place_neuron_success (g g' : ConsciousnessGrid) (px py : Z)
      (t : NeuronType) (p : R) (pl : string) (nw : Neuron) :
  place_neuron g px py t p pl = (g', Return (Some nw)) ->
  exists row r c ns' net',
    py_index (length (grid g)) px = Some r
    /\ nth_error (grid g) r = Some row
    /\ py_index (length row) py = Some c
    /\ nth_error row c = Some None
    /\ auto_connect (mkNeuron (length (neurons g)) px py t p [] 0%R 0%R)
                    (network g) 0 0 (neurons g) = (nw, ns', net')
    /\ g' = mkGrid (size g)
                   (list_set (grid g) r
                             (list_set row c (Some (length (neurons g)))))
                   (ns' ++ [nw])
                   (add_node net' (length (neurons g)) pl)
                   (consciousness_level g) (emergence_patterns g).
Proof.
  unfold place_neuron.
  destruct (getitem (grid g) px) as [row |] eqn:Erow; [| discriminate].
  destruct (getitem row py) as [[occ |] |] eqn:Ecell; try discriminate.
  destruct (auto_connect _ _ _ _ _) as [[nw1 ns1] net1] eqn:Eauto.
  intros [= <- <-].
  apply getitem_some in Erow as (r & Hr & Hrow).
  apply getitem_some in Ecell as (c & Hc & Hcell).
  exists row, r, c, ns1, net1.
  unfold setitem. rewrite Hr, Hc. auto 10.
Qed.

Lemma place_neuron_no_placement (g g' : ConsciousnessGrid) (px py : Z)
      (t : NeuronType) (p : R) (pl : string) (o : Outcome (option Neuron)) :
  place_neuron g px py t p pl = (g', o) ->
  (forall nw, o <> Return (Some nw)) ->
  g' = g.
Proof.
  unfold place_neuron.
  destruct (getitem (grid g) px) as [row |]; [| now intros [= <- <-]].
  destruct (getitem row py) as [[occ |] |]; try now intros [= <- <-].
  destruct (auto_connect _ _ _ _ _) as [[nw1 ns1] net1].
  intros [= <- <-] H. now elim (H nw1).
Qed.

Lemma occupied_row_list_set (row : list (option nat)) (c v : nat) :
  nth_error row c = Some None ->
  occupied_row (list_set row c (Some v)) = S (occupied_row row).
Proof.
  revert c. induction row as [| a row IH]; intros [| c]; simpl;
    try discriminate.
  - intros [= ->]. reflexivity.
  - intros H. unfold occupied_row in *. simpl.
    destruct a; simpl; now rewrite IH.
Qed.

Lemma occupied_row_le (row : list (option nat)) :
  occupied_row row <= length row.
Proof. apply filter_length_le. Qed.

Lemma occupied_le (sz : nat) (cells : list (list (option nat))) :
  length cells = sz -> Forall (fun row => length row = sz) cells ->
  occupied cells <= sz * sz.
Proof.
  intros Hrows Hcols. unfold occupied. rewrite <- Hrows at 1.
  apply list_sum_le. intros row Hrow.
  rewrite Forall_forall in Hcols. rewrite <- (Hcols _ Hrow).
  apply occupied_row_le.
Qed.

Lemma occupied_empty (m k : nat) : occupied (repeat (repeat None m) k) = 0.
Proof.
  assert (H : occupied_row (repeat None m) = 0)
    by (unfold occupied_row; induction m; simpl; auto).
  unfold occupied. induction k as [| k IH]; simpl; [reflexivity |].
  now rewrite H, IH.
Qed.

Lemma new_grid_inv (sz : nat) : grid_inv sz (new_grid sz).
Proof.
  constructor; simpl.
  - reflexivity.
  - apply repeat_length.
  - apply Forall_forall. intros row Hrow.
    apply repeat_spec in Hrow. subst. apply repeat_length.
  - constructor.
  - intros [| i] n; discriminate.
  - intros n c [].
  - intros n [].
  - intros [| a] b na; discriminate.
  - intros i Hi. lia.
  - apply occupied_empty.
  - lra.
Qed.

(** The registry and the graph after a successful placement, in terms of
    the keys [added] that the new neuron was wired to. *)
Lemma place_neuron_registry (g g' : ConsciousnessGrid) (px py : Z)
      (t : NeuronType) (p : R) (pl : string) (nw : Neuron) :
  place_neuron g px py t p pl = (g', Return (Some nw)) ->
  exists added,
    nw = mkNeuron (length (neurons g)) px py t p added 0%R 0%R
    /\ length added <= 4
    /\ (forall c, In c added -> c < length (neurons g))
    /\ NoDup added
    /\ length (neurons g') = S (length (neurons g))
    /\ nth_error (neurons g') (length (neurons g)) = Some nw
    /\ (forall k m,
           nth_error (neurons g) k = Some m ->
           nth_error (neurons g') k =
           Some (if linked added k
                 then with_connections
                        m (connections m ++ [length (neurons g)])
                 else m))
    /\ (forall c, In c added ->
                  has_edge (network g') (length (neurons g)) c = true)
    /\ (forall a b, has_edge (network g) a b = true ->
                    has_edge (network g') a b = true)
    /\ (forall a, has_node (network g) a = true ->
                  has_node (network g') a = true)
    /\ has_node (network g') (length (neurons g)) = true.
Proof.
  intros H.
  apply place_neuron_success
    in H as (row & r & c & ns' & net' & _ & _ & _ & _ & Hauto & ->).
  apply auto_connect_spec
    in Hauto
    as (added & Hnw & Hcount & Hrange & Hnd & Hlen & Hidx & He & Hem & Hnm).
  simpl in *. exists added.
  split; [exact Hnw |].
  split; [lia |].
  split; [intros c0 Hc0; apply Hrange in Hc0; lia |].
  split; [exact Hnd |].
  split; [rewrite length_app, Hlen; simpl; lia |].
  split; [rewrite nth_error_app2, Hlen, Nat.sub_diag by lia; reflexivity |].
  split.
  { intros k m Hm. specialize (Hidx _ _ Hm). simpl in Hidx.
    rewrite nth_error_app1; [exact Hidx |].
    rewrite Hlen. apply nth_error_Some. congruence. }
  split; [intros c0 Hc0; rewrite has_edge_add_node; now apply He |].
  split; [intros a b Hab; rewrite has_edge_add_node; now apply Hem |].
  split; [intros a Ha; now apply has_node_add_node_mono, Hnm |].
  apply has_node_add_node.
Qed.

(** Every neuron of the registry after a placement is the new one or an old
    one, possibly with the new key appended to its connections. *)
Lemma place_neuron_registry_inv (g g' : ConsciousnessGrid) (nw : Neuron)
      (added : list nat) :
  length (neurons g') = S (length (neurons g)) ->
  nth_error (neurons g') (length (neurons g)) = Some nw ->
  (forall k m,
      nth_error (neurons g) k = Some m ->
      nth_error (neurons g') k =
      Some (if linked added k
            then with_connections m (connections m ++ [length (neurons g)])
            else m)) ->
  forall k m',
    nth_error (neurons g') k = Some m' ->
    (k = length (neurons g) /\ m' = nw)
    \/ (exists m, nth_error (neurons g) k = Some m
                  /\ m' = if linked added k
                          then with_connections
                                 m (connections m ++ [length (neurons g)])
                          else m).
Proof.
  intros Hlen Hnew Hold k m' Hk.
  assert (Hlt : k < S (length (neurons g)))
    by (rewrite <- Hlen; apply nth_error_Some; congruence).
  destruct (Nat.eq_dec k (length (neurons g))) as [-> | Hne].
  - left. split; [reflexivity | congruence].
  - right. destruct (nth_error (neurons g) k) as [m |] eqn:Em.
    + exists m. split; [reflexivity |]. rewrite (Hold _ _ Em) in Hk.
      congruence.
    + apply nth_error_None in Em. lia.
Qed.

Lemma place_neuron_inv (sz : nat) (g : ConsciousnessGrid) (px py : Z)
      (t : NeuronType) (p : R) (pl : string) :
  grid_inv sz g -> grid_inv sz (fst (place_neuron g px py t p pl)).
Proof.
  intros Hinv.
  destruct (place_neuron g px py t p pl) as [g' o] eqn:E. simpl.
  destruct o as [[nw |] | e];
    try (erewrite (place_neuron_no_placement _ _ _ _ _ _ _ _ E);
         [exact Hinv | congruence]).
  pose proof (place_neuron_registry _ _ _ _ _ _ _ _ E)
    as (added & Hnw & Hcount & Hrange & Hnd & Hlen & Hnew & Hold
        & He & Hem & Hnm & Hnode).
  pose proof (place_neuron_registry_inv g g' nw added Hlen Hnew Hold) as Hcases.
  apply place_neuron_success
    in E as (row & r & c & ns' & net' & Hr & Hrow & Hc & Hcell & _ & Hg').
  destruct Hinv
    as [Isize Irows Icols Iq Iids Irange Ind Isym Inodes Iocc Ilevel].
  assert (Hrowlen : length row = sz).
  { rewrite Forall_forall in Icols. apply Icols.
    eapply nth_error_In; eauto. }
  constructor.
  - rewrite Hg'. exact Isize.
  - rewrite Hg'. simpl. now rewrite length_list_set.
  - rewrite Hg'. simpl. apply Forall_forall. intros row' Hin.
    apply list_set_In in Hin as [-> | Hin].
    + now rewrite length_list_set.
    + rewrite Forall_forall in Icols. now apply Icols.
  - apply Forall_forall. intros m' Hin.
    apply In_nth_error in Hin as (k & Hk).
    unfold quiescent in Iq. rewrite Forall_forall in Iq.
    destruct (Hcases _ _ Hk) as [[_ ->] | (m & Hm & ->)].
    + rewrite Hnw. simpl. auto.
    + apply nth_error_In in Hm. specialize (Iq _ Hm).
      destruct (linked added k); simpl; exact Iq.
  - intros k m' Hk.
    destruct (Hcases _ _ Hk) as [[-> ->] | (m & Hm & ->)].
    + rewrite Hnw. reflexivity.
    + specialize (Iids _ _ Hm). destruct (linked added k); simpl; exact Iids.
  - intros m' b Hin Hb. rewrite Hlen.
    apply In_nth_error in Hin as (k & Hk).
    destruct (Hcases _ _ Hk) as [[_ ->] | (m & Hm & ->)].
    + rewrite Hnw in Hb. simpl in Hb. apply Hrange in Hb. lia.
    + apply nth_error_In in Hm.
      destruct (linked added k); simpl in Hb.
      * apply in_app_or in Hb as [Hb | [<- | []]]; [| lia].
        specialize (Irange _ _ Hm Hb). lia.
      * specialize (Irange _ _ Hm Hb). lia.
  - intros m' Hin. apply In_nth_error in Hin as (k & Hk).
    destruct (Hcases _ _ Hk) as [[_ ->] | (m & Hm & ->)].
    + rewrite Hnw. simpl. exact Hnd.
    + apply nth_error_In in Hm.
      destruct (linked added k); simpl; [| now apply Ind].
      apply NoDup_app; repeat split.
      * now apply Ind.
      * constructor; [intros [] | constructor].
      * intros a Ha [<- | []]. specialize (Irange _ _ Hm Ha). lia.
  - intros a b na' Ha Hb.
    destruct (Hcases _ _ Ha) as [[-> ->] | (na & Hna & ->)].
    + rewrite Hnw in Hb. simpl in Hb.
      pose proof (Hrange _ Hb) as Hblt.
      destruct (nth_error (neurons g) b) as [nb |] eqn:Enb;
        [| apply nth_error_None in Enb; lia].
      eexists. split; [apply (Hold _ _ Enb) |].
      assert (Hl : linked added b = true) by now apply linked_In.
      rewrite Hl. simpl. split; [apply in_or_app; right; now left |].
      now apply He.
    + assert (Hold_conn :
                In b (connections na) ->
                exists nb, nth_error (neurons g') b = Some nb
                           /\ In a (connections nb)
                           /\ has_edge (network g') a b = true).
      { intros Hb'.
        destruct (Isym _ _ _ Hna Hb') as (nb & Hnb & Hab & Hedge).
        eexists. split; [apply (Hold _ _ Hnb) |].
        split; [| now apply Hem].
        destruct (linked added b); simpl; [apply in_or_app; now left | auto]. }
      destruct (linked added a) eqn:Hl; simpl in Hb; [| now apply Hold_conn].
      apply in_app_or in Hb as [Hb | [<- | []]]; [now apply Hold_conn |].
      exists nw. split; [exact Hnew |].
      apply linked_In in Hl.
      split; [rewrite Hnw; simpl; exact Hl |].
      rewrite has_edge_sym. now apply He.
  - intros i Hi. rewrite Hlen in Hi.
    destruct (Nat.eq_dec i (length (neurons g))) as [-> | Hne];
      [exact Hnode |].
    apply Hnm, Inodes. lia.
  - rewrite Hlen, <- Iocc, Hg'. simpl. unfold occupied.
    pose proof (list_sum_list_set occupied_row (grid g) r row
                  (list_set row c (Some (length (neurons g)))) Hrow) as Hsum.
    rewrite (occupied_row_list_set _ _ _ Hcell) in Hsum. lia.
  - rewrite Hg'. simpl. exact Ilevel.
Qed.

(** ** Detector and scorer on a quiescent grid *)

Local Open Scope R_scope.

Lemma cycle_activations_quiescent (ns : list Neuron) (cycle : list nat)
      (acts : list R) :
  quiescent ns -> cycle_activations ns cycle = Some acts ->
  Forall (fun a => a = 0) acts.
Proof.
  intros Hq. revert acts.
  induction cycle as [| nid rest IH]; simpl; intros acts H.
  - injection H as <-. constructor.
  - destruct (nth_error ns nid) as [n |] eqn:En; [| discriminate].
    destruct (cycle_activations ns rest) as [acts' |]; [| discriminate].
    injection H as <-. constructor; [| now apply IH].
    apply nth_error_In in En. unfold quiescent in Hq.
    rewrite Forall_forall in Hq. now destruct (Hq _ En).
Qed.

Lemma loop_patterns_quiescent (ns : list Neuron) (cycles : list (list nat)) :
  quiescent ns -> loop_patterns ns cycles = [].
Proof.
  intros Hq. induction cycles as [| cycle rest IH]; cbn [loop_patterns];
    [reflexivity |].
  destruct (3 <=? length cycle)%nat; [| exact IH].
  destruct (cycle_activations ns cycle) as [acts |] eqn:E; [| reflexivity].
  rewrite (Rsum_zero _ (cycle_activations_quiescent _ _ _ Hq E)).
  replace (Rltb 0.5 (0 / INR (length cycle))) with false; [exact IH |].
  symmetry. apply Rltb_false. unfold Rdiv. lra.
Qed.

Lemma attractor_patterns_quiescent (g : ConsciousnessGrid) :
  quiescent (neurons g) -> attractor_patterns g = [].
Proof.
  intros Hq. unfold attractor_patterns.
  destruct (5 <? length (map activation (neurons g)))%nat; [| reflexivity].
  rewrite variance_zero.
  - replace (Rltb 0.1 0) with false; [reflexivity |].
    symmetry. apply Rltb_false. lra.
  - rewrite Forall_map. eapply Forall_impl; [| exact Hq]. now intros n [].
Qed.

Lemma hierarchy_patterns_cases (g : ConsciousnessGrid) :
  hierarchy_patterns g = []
  \/ exists nodes s,
      hierarchy_patterns g = [mkPattern Hierarchy nodes s] /\ 0 <= s <= 1.
Proof.
  unfold hierarchy_patterns.
  destruct (10 <? length (neurons g))%nat; [| now left].
  set (hubs := filter _ _).
  destruct (Nat.leb_spec 2 (length hubs)) as [H2 | _]; [| now left].
  right. do 2 eexists. split; [reflexivity |].
  apply mean_bounds.
  - destruct hubs; simpl in *; [lia | discriminate].
  - rewrite Forall_map. apply Forall_forall. intros nc Hnc.
    apply filter_In in Hnc as [Hnc _].
    now apply betweenness_centrality_range in Hnc.
Qed.

Section DetectorProperties.

Variable simple_cycles : Graph -> option (list (list nat)).

Lemma detect_quiescent (g : ConsciousnessGrid) :
  quiescent (neurons g) ->
  detect_consciousness_patterns simple_cycles g = hierarchy_patterns g.
Proof.
  intros Hq. unfold detect_consciousness_patterns.
  rewrite attractor_patterns_quiescent, app_nil_r by exact Hq.
  destruct (simple_cycles (network g)) as [cycles |]; [| reflexivity].
  now rewrite loop_patterns_quiescent.
Qed.

(** The scorer on a grid that satisfies the invariant: it returns, the
    level is at most [0.775], and only the cached level and patterns
    change. *)
Lemma calculate_inv (sz : nat) (g : ConsciousnessGrid) :
  grid_inv sz g ->
  exists level g',
    calculate_consciousness_level simple_cycles g = (g', Return level)
    /\ 0 <= level <= 0.775
    /\ if (length (neurons g) <? 5)%nat
       then g' = g /\ level = 0
       else g' = mkGrid (size g) (grid g) (neurons g) (network g) level
                       (hierarchy_patterns g).
Proof.
  intros Hinv. unfold calculate_consciousness_level.
  destruct (Nat.ltb_spec (length (neurons g)) 5) as [Hlt | Hge].
  - exists 0, g. split; [reflexivity |]. split; [lra | auto].
  - replace (1 <? length (neurons g))%nat with true
      by (symmetry; apply Nat.ltb_lt; lia).
    assert (Hnode : g_node (network g) <> []).
    { apply (has_node_nonempty _ 0%nat). apply (inv_nodes _ _ Hinv). lia. }
    destruct (average_clustering_some _ Hnode) as (c & Hc). rewrite Hc.
    pose proof (average_clustering_range _ _ Hc) as Hcr.
    rewrite (detect_quiescent _ (inv_quiescent _ _ Hinv)).
    do 2 eexists. split; [reflexivity |]. split; [| reflexivity].
    assert (Hcomplex : 0 <= Rmin 1 (INR (length (neurons g)) / 50) <= 1).
    { split; [| apply Rmin_l].
      apply Rmin_glb; [lra |].
      pose proof (pos_INR (length (neurons g))). unfold Rdiv. lra. }
    destruct (hierarchy_patterns_cases g) as [-> | (nodes & s & -> & Hs)].
    + simpl. lra.
    + cbn [map p_type p_strength nodup].
      destruct (in_dec PatternType_eq_dec Hierarchy []) as [[] | _].
      unfold mean. cbn [Rsum fold_right length INR]. lra.
Qed.

Lemma calculate_grid_inv (sz : nat) (g : ConsciousnessGrid) :
  grid_inv sz g ->
  grid_inv sz (fst (calculate_consciousness_level simple_cycles g)).
Proof.
  intros Hinv.
  destruct (calculate_inv sz g Hinv) as (level & g' & -> & Hlevel & Hg').
  simpl. destruct (length (neurons g) <? 5)%nat.
  - destruct Hg' as [-> _]. exact Hinv.
  - subst g'. destruct Hinv. constructor; simpl; auto.
Qed.

Lemma simulate_step_inv (sz : nat) (g : ConsciousnessGrid) :
  grid_inv sz g -> grid_inv sz (simulate_step g).
Proof.
  intros Hinv. now rewrite simulate_step_quiescent by apply Hinv.
Qed.

Lemma reachable_grid_inv (sz : nat) (g : ConsciousnessGrid) :
  reachable_grid simple_cycles sz g -> grid_inv sz g.
Proof.
  induction 1.
  - apply new_grid_inv.
  - now apply place_neuron_inv.
  - now apply simulate_step_inv.
  - now apply calculate_grid_inv.
Qed.

End DetectorProperties.

(** ** The turn controller *)

Section ControllerProperties.

Variable simple_cycles : Graph -> option (list (list nat)).

Lemma game_eta (g : ConsciousnessEmergenceGame) :
  mkGame (game_grid g) (players g) (turn g) (max_turns g) (winner g) = g.
Proof. now destruct g. Qed.

Lemma truthy_some (w : option string) (s : string) :
  truthy w = Some s <-> w = Some s /\ s <> EmptyString.
Proof.
  destruct w as [[| c t] |]; simpl; split; try discriminate.
  - intros [[= <-] H]. congruence.
  - intros [= <-]. split; [reflexivity | discriminate].
  - intros [[= <-] _]. reflexivity.
  - intros [H _]. discriminate.
Qed.

Lemma play_turn_game_over (g : ConsciousnessEmergenceGame) (pid : string)
      (m : Move) (w : string) :
  truthy (winner g) = Some w -> play_turn simple_cycles g pid m = (g, Return (game_over w)).
Proof. intros H. unfold play_turn. now rewrite H. Qed.

Lemma play_turn_unknown_type (g : ConsciousnessEmergenceGame) (pid : string)
      (m : Move) :
  truthy (winner g) = None ->
  NeuronType_of_name (upper (move_type m)) = None ->
  play_turn simple_cycles g pid m = (g, Raise KeyError).
Proof. intros Hw Ht. unfold play_turn. now rewrite Hw, Ht. Qed.

Lemma play_turn_not_placed (g : ConsciousnessEmergenceGame) (pid : string)
      (m : Move) (t : NeuronType) (gr : ConsciousnessGrid)
      (o : Outcome (option Neuron)) :
  truthy (winner g) = None ->
  NeuronType_of_name (upper (move_type m)) = Some t ->
  place_neuron (game_grid g) (move_x m) (move_y m) t
               (get_processing_power m) pid = (gr, o) ->
  (forall nw, o <> Return (Some nw)) ->
  play_turn simple_cycles g pid m
  = (g, match o with
        | Raise e => Raise e
        | Return _ => Return (invalid_move "position_occupied")
        end).
Proof.
  intros Hw Ht Hp Hno. unfold play_turn. rewrite Hw, Ht, Hp.
  rewrite (place_neuron_no_placement _ _ _ _ _ _ _ _ Hp Hno), game_eta.
  destruct o as [[nw |] | e]; [now elim (Hno nw) | reflexivity | reflexivity].
Qed.

Lemma play_turn_unregistered (g : ConsciousnessEmergenceGame) (pid : string)
      (m : Move) (t : NeuronType) (gr : ConsciousnessGrid) (nw : Neuron) :
  truthy (winner g) = None ->
  NeuronType_of_name (upper (move_type m)) = Some t ->
  place_neuron (game_grid g) (move_x m) (move_y m) t
               (get_processing_power m) pid = (gr, Return (Some nw)) ->
  dict_get (players g) pid = None ->
  play_turn simple_cycles g pid m
  = (mkGame gr (players g) (turn g) (max_turns g) (winner g), Raise KeyError).
Proof.
  intros Hw Ht Hp Hd. unfold play_turn. now rewrite Hw, Ht, Hp, Hd.
Qed.

(** A turn that places a neuron for a registered player: the score stays
    below the winning threshold, so the turn always ends in [continue]. *)
Lemma play_turn_continue (sz : nat) (g : ConsciousnessEmergenceGame)
      (pid : string) (m : Move) (t : NeuronType) (gr : ConsciousnessGrid)
      (nw : Neuron) (info : PlayerInfo) :
  grid_inv sz (game_grid g) ->
  truthy (winner g) = None ->
  NeuronType_of_name (upper (move_type m)) = Some t ->
  place_neuron (game_grid g) (move_x m) (move_y m) t
               (get_processing_power m) pid = (gr, Return (Some nw)) ->
  dict_get (players g) pid = Some info ->
  exists level gr6,
    play_turn simple_cycles g pid m
    = (mkGame gr6
              (dict_set (players g) pid
                        (mkPlayer (player_type info) (neurons_placed info + 1)
                                  (consciousness_achieved info)
                                  (Rmax (peak_consciousness info) level)))
              (turn g + 1) (max_turns g) (winner g),
       Return (continue level (emergence_patterns gr6) (turn g + 1)))
    /\ 0 <= level <= 0.775
    /\ grid_inv sz gr6
    /\ if (length (neurons gr) <? 5)%nat
       then gr6 = gr /\ level = 0
       else gr6 = mkGrid (size gr) (grid gr) (neurons gr) (network gr) level
                         (hierarchy_patterns gr).
Proof.
  intros Hinv Hw Ht Hp Hd.
  assert (Hgr : grid_inv sz gr).
  { replace gr with (fst (place_neuron (game_grid g) (move_x m) (move_y m) t
                                       (get_processing_power m) pid))
      by now rewrite Hp.
    now apply place_neuron_inv. }
  destruct (calculate_inv simple_cycles sz gr Hgr)
    as (level & gr6 & Hcalc & Hlevel & Hgr6).
  exists level, gr6.
  split; [| split; [exact Hlevel | split; [| exact Hgr6]]].
  - unfold play_turn. rewrite Hw, Ht, Hp, Hd.
    rewrite (iter_simulate_step_quiescent 5 gr (inv_quiescent _ _ Hgr)).
    rewrite Hcalc. simpl.
    destruct (Rge_dec level 0.8) as [Hge | _]; [lra | reflexivity].
  - replace gr6 with (fst (calculate_consciousness_level simple_cycles gr))
      by now rewrite Hcalc.
    now apply calculate_grid_inv.
Qed.

Lemma play_turn_inv (sz : nat) (g : ConsciousnessEmergenceGame)
      (pid : string) (m : Move) :
  grid_inv sz (game_grid g) -> winner g = None ->
  grid_inv sz (game_grid (fst (play_turn simple_cycles g pid m)))
  /\ winner (fst (play_turn simple_cycles g pid m)) = None.
Proof.
  intros Hinv Hw.
  assert (Hty : truthy (winner g) = None) by now rewrite Hw.
  destruct (NeuronType_of_name (upper (move_type m))) as [t |] eqn:Ht;
    [| rewrite play_turn_unknown_type by assumption; now split].
  destruct (place_neuron (game_grid g) (move_x m) (move_y m) t
                         (get_processing_power m) pid) as [gr o] eqn:Hp.
  assert (Hgr : grid_inv sz gr).
  { replace gr with (fst (place_neuron (game_grid g) (move_x m) (move_y m) t
                                       (get_processing_power m) pid))
      by now rewrite Hp.
    now apply place_neuron_inv. }
  destruct o as [[nw |] | e];
    try (rewrite (play_turn_not_placed g pid m t gr _ Hty Ht Hp) by congruence;
         now split).
  destruct (dict_get (players g) pid) as [info |] eqn:Hd.
  - destruct (play_turn_continue sz g pid m t gr nw info Hinv Hty Ht Hp Hd)
      as (level & gr6 & -> & _ & Hgr6 & _).
    simpl. now split.
  - rewrite (play_turn_unregistered g pid m t gr nw Hty Ht Hp Hd). simpl. now split.
Qed.

(** Every session that can be reached has a well-formed, quiescent grid and
    no winner. *)
Lemma reachable_inv (g : ConsciousnessEmergenceGame) :
  reachable simple_cycles g -> grid_inv 19 (game_grid g) /\ winner g = None.
Proof.
  induction 1 as [| g pid ptype _ [IH1 IH2] | g pid m _ [IH1 IH2]].
  - split; [apply new_grid_inv | reflexivity].
  - now split.
  - now apply play_turn_inv.
Qed.

(** With a non-empty winner id the session is terminal. *)
Corollary nonempty_winner_is_terminal (g : ConsciousnessEmergenceGame)
          (pid : string) (m : Move) (w : string) :
  winner g = Some w -> w <> EmptyString ->
  play_turn simple_cycles g pid m = (g, Return (game_over w)).
Proof.
  intros Hw Hne. apply play_turn_game_over. now apply truthy_some.
Qed.

(** No sequence of calls leads to a win: the score never reaches [0.8]. *)
Corollary reachable_no_winner (g : ConsciousnessEmergenceGame) :
  reachable simple_cycles g -> winner g = None.
Proof. intros Hr. now apply reachable_inv. Qed.

End ControllerProperties.

(** ** Which neurons the loop wires: the first four within range *)

Local Close Scope R_scope.

Lemma nearby_cons (px py : Z) (nid : nat) (m : Neuron) (ns : list Neuron) :
  nearby px py nid (m :: ns)
  = if ((px - x m) ^ 2 + (py - y m) ^ 2 <=? 25)%Z
    then nid :: nearby px py (S nid) ns
    else nearby px py (S nid) ns.
Proof.
  unfold nearby. cbn [length seq combine filter snd].
  now destruct ((px - x m) ^ 2 + (py - y m) ^ 2 <=? 25)%Z.
Qed.

Lemma auto_connect_added (ns : list Neuron) :
  forall neuron net made nid,
    (forall k m, nth_error ns k = Some m -> id m = nid + k) ->
    (forall c, In c (connections neuron) -> c < nid) ->
    connections (fst (fst (auto_connect neuron net made nid ns)))
    = connections neuron
      ++ firstn (4 - made) (nearby (x neuron) (y neuron) nid ns).
Proof.
  induction ns as [| m rest IH]; intros neuron net made nid Hids Hconn.
  - simpl. unfold nearby. simpl. now rewrite firstn_nil, app_nil_r.
  - assert (Hfresh : existsb (Nat.eqb (id m)) (connections neuron) = false).
    { destruct (existsb (Nat.eqb (id m)) (connections neuron)) eqn:E;
        [| reflexivity].
      apply existsb_exists in E as (c & Hc & Heq).
      apply Nat.eqb_eq in Heq. specialize (Hconn _ Hc).
      specialize (Hids 0 m eq_refl). lia. }
    assert (Hids' : forall k m', nth_error rest k = Some m' ->
                                 id m' = S nid + k).
    { intros k m' Hk. specialize (Hids (S k) m' Hk). lia. }
    rewrite nearby_cons. cbn [auto_connect]. unfold can_connect.
    rewrite Hfresh. unfold squared_distance. simpl negb. rewrite andb_true_r.
    destruct ((x neuron - x m) ^ 2 + (y neuron - y m) ^ 2 <=? 25)%Z;
      cbn [andb].
    + destruct (Nat.ltb_spec made 4) as [Hlt | Hge].
      * specialize (IH (with_connections neuron (connections neuron ++ [nid]))
                       (add_edge net (id neuron) nid) (S made) (S nid) Hids').
        destruct (auto_connect _ _ (S made) (S nid) rest)
          as [[nw1 rest1] net1].
        cbn [fst with_connections connections x y id] in *. rewrite IH.
        -- replace (4 - made) with (S (4 - S made)) by lia.
           cbn [firstn]. now rewrite <- app_assoc.
        -- intros c Hc. apply in_app_or in Hc as [Hc | [<- | []]]; [| lia].
           specialize (Hconn _ Hc). lia.
      * specialize (IH neuron net made (S nid) Hids').
        destruct (auto_connect neuron net made (S nid) rest)
          as [[nw1 rest1] net1].
        cbn [fst with_connections connections x y id] in *. rewrite IH.
        -- replace (4 - made) with 0 by lia. reflexivity.
        -- intros c Hc. specialize (Hconn _ Hc). lia.
    + specialize (IH neuron net made (S nid) Hids').
      destruct (auto_connect neuron net made (S nid) rest)
        as [[nw1 rest1] net1].
      cbn [fst] in *. apply IH. intros c Hc. specialize (Hconn _ Hc). lia.
Qed.

(** On a grid that satisfies the invariant, the new neuron is wired to the
    first four neurons, in creation order, within distance 5. *)
Lemma place_neuron_connections (sz : nat) (g g' : ConsciousnessGrid)
      (px py : Z) (t : NeuronType) (p : R) (pl : string) (nw : Neuron) :
  grid_inv sz g ->
  place_neuron g px py t p pl = (g', Return (Some nw)) ->
  connections nw = firstn 4 (nearby px py 0 (neurons g)).
Proof.
  intros Hinv H.
  apply place_neuron_success
    in H as (row & r & c & ns' & net' & _ & _ & _ & _ & Hauto & _).
  pose proof (auto_connect_added (neurons g)
                (mkNeuron (length (neurons g)) px py t p [] 0%R 0%R)
                (network g) 0 0) as Hadd.
  rewrite Hauto in Hadd. simpl in Hadd. apply Hadd.
  - intros k m Hk. apply (inv_ids _ _ Hinv _ _ Hk).
  - intros c0 [].
Qed.


(** * The claims *)

Local Open Scope R_scope.

(** ** C1: the consciousness level stays in the unit interval *)

(** C1. In every session that can be reached, the cached consciousness
    level lies in [[0,1]], the scorer returns a value in [[0,1]] (it does not
    raise) and caches a value in [[0,1]], and the cached level is still in
    [[0,1]] after any further turn. *)
Theorem consciousness_level_in_unit_interval
        (simple_cycles : Graph -> option (list (list nat)))
        (g : ConsciousnessEmergenceGame) :
  reachable simple_cycles g ->
  0 <= consciousness_level (game_grid g) <= 1
  /\ (exists g' level,
         calculate_consciousness_level simple_cycles (game_grid g)
         = (g', Return level)
         /\ 0 <= level <= 1
         /\ 0 <= consciousness_level g' <= 1)
  /\ (forall pid m,
         0 <= consciousness_level
                (game_grid (fst (play_turn simple_cycles g pid m))) <= 1).
Proof.
  intros Hr. destruct (reachable_inv _ _ Hr) as [Hinv Hw].
  pose proof (inv_level _ _ Hinv) as Hl.
  split; [lra |]. split.
  - destruct (calculate_inv simple_cycles 19 _ Hinv)
      as (level & g' & Hc & Hlevel & Hg').
    exists g', level. split; [exact Hc |]. split; [lra |].
    destruct (length (neurons (game_grid g)) <? 5)%nat.
    + destruct Hg' as [-> _]. lra.
    + subst g'. simpl. lra.
  - intros pid m.
    destruct (play_turn_inv simple_cycles 19 g pid m Hinv Hw) as [Hinv' _].
    pose proof (inv_level _ _ Hinv'). lra.
Qed.

Lemma session_after_reachable (k : nat) :
  reachable simple_cycles_unsupported (session_after k).
Proof.
  unfold session_after.
  assert (H : forall l g,
             reachable simple_cycles_unsupported g ->
             reachable simple_cycles_unsupported
               (fold_left
                  (fun g i =>
                     fst (play_turn simple_cycles_unsupported g "p"
                                    (mkMove (Z.of_nat i) 0 "processor" None)))
                  l g)).
  { induction l as [| i l IH]; intros g Hg; [exact Hg |].
    simpl. apply IH. now apply reach_play_turn. }
  apply H, reach_add_player, reach_init.
Qed.

Lemma consciousness_level_in_unit_interval_witness :
  0 <= consciousness_level (game_grid (session_after 6)) <= 1
  /\ (exists g' level,
         calculate_consciousness_level simple_cycles_unsupported
                                       (game_grid (session_after 6))
         = (g', Return level)
         /\ 0 <= level <= 1
         /\ 0 <= consciousness_level g' <= 1)
  /\ (forall pid m,
         0 <= consciousness_level
                (game_grid
                   (fst (play_turn simple_cycles_unsupported
                                   (session_after 6) pid m)))
         <= 1).
Proof.
  apply consciousness_level_in_unit_interval.
  apply session_after_reachable.
Defined.

(** ** C3: coordinates outside the grid *)

Lemma getitem_grid_out_of_range (sz : nat) (g : ConsciousnessGrid)
      (px py : Z) (t : NeuronType) (p : R) (pl : string) :
  grid_inv sz g ->
  (px < - Z.of_nat sz \/ Z.of_nat sz <= px
   \/ py < - Z.of_nat sz \/ Z.of_nat sz <= py)%Z ->
  place_neuron g px py t p pl = (g, Raise IndexError).
Proof.
  intros Hinv Hout. unfold place_neuron.
  destruct (getitem (grid g) px) as [row |] eqn:Erow; [| reflexivity].
  apply getitem_some in Erow as (r & Hr & Hrow).
  assert (Hlen : length row = sz).
  { pose proof (inv_cols _ _ Hinv) as Hc. rewrite Forall_forall in Hc.
    apply Hc. eapply nth_error_In; eauto. }
  assert (Hpx : (- Z.of_nat sz <= px < Z.of_nat sz)%Z).
  { rewrite <- (inv_rows _ _ Hinv).
    destruct (Z_lt_ge_dec px (- Z.of_nat (length (grid g)))) as [H1 | H1];
      [rewrite py_index_out in Hr by lia; discriminate |].
    destruct (Z_lt_ge_dec px (Z.of_nat (length (grid g)))) as [H2 | H2];
      [lia | rewrite py_index_out in Hr by lia; discriminate]. }
  rewrite getitem_out; [reflexivity | rewrite Hlen; lia].
Qed.

(** C3, as the code has it. On a session that can be reached, a move with a
    resolvable type and a coordinate below [-19] or from [19] on makes
    [play_turn] raise the [IndexError] of the cell lookup of
    [place_neuron]; the session is left as it was. *)
Theorem out_of_range_raises_IndexError
        (simple_cycles : Graph -> option (list (list nat)))
        (g : ConsciousnessEmergenceGame) (pid : string) (m : Move)
        (t : NeuronType) :
  reachable simple_cycles g ->
  NeuronType_of_name (upper (move_type m)) = Some t ->
  (move_x m < -19 \/ 19 <= move_x m \/ move_y m < -19 \/ 19 <= move_y m)%Z ->
  play_turn simple_cycles g pid m = (g, Raise IndexError).
Proof.
  intros Hr Ht Hout. destruct (reachable_inv _ _ Hr) as [Hinv Hw].
  assert (Hp : place_neuron (game_grid g) (move_x m) (move_y m) t
                            (get_processing_power m) pid
               = (game_grid g, Raise IndexError))
    by (apply (getitem_grid_out_of_range 19); [exact Hinv | simpl; lia]).
  rewrite (play_turn_not_placed simple_cycles g pid m t _ _)
    with (1 := f_equal truthy Hw) (2 := Ht) (3 := Hp); [reflexivity |].
  congruence.
Qed.

Lemma out_of_range_raises_IndexError_witness :
  reachable simple_cycles_unsupported session0
  /\ play_turn simple_cycles_unsupported session0 "p"
               (mkMove 19 0 "sensor" None)
     = (session0, Raise IndexError).
Proof.
  assert (Hr : reachable simple_cycles_unsupported session0)
    by (apply reach_add_player, reach_init).
  split; [exact Hr |].
  apply (out_of_range_raises_IndexError _ _ "p" _ SENSOR Hr).
  - reflexivity.
  - simpl. lia.
Defined.

(** The first turn of a registered player on the fresh session. *)
Lemma first_turn (g : ConsciousnessEmergenceGame) (pid : string) (m : Move)
      (t : NeuronType) (gr : ConsciousnessGrid) (nw : Neuron)
      (info : PlayerInfo) :
  game_grid g = new_grid 19 ->
  truthy (winner g) = None ->
  NeuronType_of_name (upper (move_type m)) = Some t ->
  place_neuron (new_grid 19) (move_x m) (move_y m) t
               (get_processing_power m) pid = (gr, Return (Some nw)) ->
  dict_get (players g) pid = Some info ->
  play_turn simple_cycles_unsupported g pid m
  = (mkGame gr
            (dict_set (players g) pid
                      (mkPlayer (player_type info) (neurons_placed info + 1)
                                (consciousness_achieved info)
                                (Rmax (peak_consciousness info) 0)))
            (turn g + 1) (max_turns g) (winner g),
     Return (continue 0 (emergence_patterns gr) (turn g + 1))).
Proof.
  intros Hg Hw Ht Hp Hd.
  assert (Hinv : grid_inv 19 (game_grid g))
    by (rewrite Hg; apply new_grid_inv).
  rewrite <- Hg in Hp.
  destruct (play_turn_continue simple_cycles_unsupported 19 g pid m t gr nw
                               info Hinv Hw Ht Hp Hd)
    as (level & gr6 & Hplay & _ & _ & Hgr6).
  assert (Hone : length (neurons gr) = 1%nat).
  { destruct (place_neuron_registry _ _ _ _ _ _ _ _ Hp)
      as (_ & _ & _ & _ & _ & Hlen & _).
    rewrite Hlen, Hg. reflexivity. }
  rewrite Hone in Hgr6. simpl in Hgr6. destruct Hgr6 as [-> ->].
  exact Hplay.
Qed.

(** C3, as the claim states it, fails: the move with [x = -1] is not
    rejected. Python's negative index addresses the last row, the neuron is
    placed there with [x = -1], and the turn counts. *)
Lemma negative_coordinate_is_placed :
  exists g',
    play_turn simple_cycles_unsupported session0 "p"
              (mkMove (-1) 0 "sensor" None)
    = (g', Return (continue 0 [] 1))
    /\ cell_at (game_grid g') 18 0 = Some (Some 0%nat)
    /\ map x (neurons (game_grid g')) = [(-1)%Z]
    /\ turn g' = 1%nat.
Proof.
  pose proof (first_turn session0 "p" (mkMove (-1) 0 "sensor" None) SENSOR
                         _ _ _ eq_refl eq_refl eq_refl eq_refl eq_refl) as H.
  eexists. split; [exact H |]. repeat split; reflexivity.
Qed.

(** ** C4: a type name outside the enumeration *)

Lemma NeuronType_of_name_value (t : NeuronType) :
  NeuronType_of_name (upper (NeuronType_value t)) = Some t.
Proof. now destruct t. Qed.

Lemma NeuronType_of_name_some (s : string) (t : NeuronType) :
  NeuronType_of_name s = Some t -> s = upper (NeuronType_value t).
Proof.
  unfold NeuronType_of_name.
  repeat match goal with
         | |- context [String.eqb s ?c] =>
             destruct (String.eqb_spec s c) as [-> | _];
             [now intros [= <-] |]
         end.
  discriminate.
Qed.

(** The lookup is by upper-cased name, whatever the case of the move. *)
Example NeuronType_of_mixed_case :
  NeuronType_of_name (upper "SeNsOr") = Some SENSOR
  /\ NeuronType_of_name (upper "oscillator") = Some OSCILLATOR.
Proof. split; reflexivity. Qed.

(** Upper-casing follows Unicode: the long s, the sharp s and the dotless i
    have ASCII upper-case forms, so that a few spellings outside ASCII
    name a neuron type as well. *)
Example upper_follows_unicode :
  upper "SeNsOr" = "SENSOR"%string
  /\ upper "ſensor" = "SENSOR"%string
  /\ upper "proceßor" = "PROCESSOR"%string
  /\ upper "oscıllator" = "OSCILLATOR"%string
  /\ upper "mémoire" = "MÉMOIRE"%string
  /\ upper "ǆ ﬃ ΰ" = "Ǆ FFI Ϋ́"%string.
Proof. repeat split; vm_compute; reflexivity. Qed.

Example NeuronType_of_non_ascii_name :
  NeuronType_of_name (upper "ſensor") = Some SENSOR
  /\ NeuronType_of_name (upper "proceßor") = Some PROCESSOR
  /\ NeuronType_of_name (upper "oscıllator") = Some OSCILLATOR
  /\ NeuronType_of_name (upper "mémoire") = None.
Proof. repeat split; vm_compute; reflexivity. Qed.

(** C4, as the code has it. On a session without (truthy) winner, a move
    whose type string, upper-cased as [str.upper()] does, differs from the
    name of every neuron type makes [play_turn] raise the [KeyError] of the
    enumeration lookup, before any placement; the session is left as it
    was. *)
Theorem unknown_type_raises_KeyError
        (simple_cycles : Graph -> option (list (list nat)))
        (g : ConsciousnessEmergenceGame) (pid : string) (m : Move) :
  truthy (winner g) = None ->
  (forall t, upper (move_type m) <> upper (NeuronType_value t)) ->
  play_turn simple_cycles g pid m = (g, Raise KeyError).
Proof.
  intros Hw Hno. apply play_turn_unknown_type; [exact Hw |].
  destruct (NeuronType_of_name (upper (move_type m))) as [t |] eqn:E;
    [| reflexivity].
  apply NeuronType_of_name_some in E. now elim (Hno t).
Qed.

Lemma unknown_type_raises_KeyError_witness :
  play_turn simple_cycles_unsupported session0 "p"
            (mkMove 0 0 "Quark" None)
  = (session0, Raise KeyError).
Proof.
  apply unknown_type_raises_KeyError.
  - reflexivity.
  - intros t. destruct t; discriminate.
Defined.

(** C4, as the claim states it, fails: the unrecognised type ["quark"] is
    not answered by a rejected-move result; the call raises. *)
Lemma unknown_type_is_not_a_returned_rejection :
  snd (play_turn simple_cycles_unsupported session0 "p"
                 (mkMove 0 0 "quark" None))
  = Raise KeyError.
Proof. reflexivity. Qed.

(** ** C5: the occupied cell *)

Lemma cell_at_getitem (g : ConsciousnessGrid) (px py : Z)
      (c : option nat) :
  cell_at g px py = Some c ->
  exists row, getitem (grid g) px = Some row /\ getitem row py = Some c.
Proof.
  unfold cell_at.
  destruct ((0 <=? px)%Z && (px <? Z.of_nat (size g))%Z && (0 <=? py)%Z
            && (py <? Z.of_nat (size g))%Z) eqn:E; [| discriminate].
  destruct (nth_error (grid g) (Z.to_nat px)) as [row |] eqn:Erow;
    [| discriminate].
  intros Hc. exists row.
  repeat (apply andb_prop in E as [E ?]).
  assert (Hx : (Z.to_nat px < length (grid g))%nat)
    by (apply nth_error_Some; congruence).
  assert (Hy : (Z.to_nat py < length row)%nat)
    by (apply nth_error_Some; congruence).
  unfold getitem. rewrite !py_index_in_bounds by lia. now split.
Qed.

(** C5. A placement at in-bounds coordinates whose cell is occupied: the
    placement returns the failure and the grid object (cells, registry with
    every connection list, graph) is the one it was; [play_turn], on a
    session without winner and for a resolvable type, returns
    [invalid_move] and the session (turn counter and players included) is
    the one it was. *)
Theorem occupied_cell_changes_nothing
        (simple_cycles : Graph -> option (list (list nat)))
        (g : ConsciousnessEmergenceGame) (pid : string) (m : Move)
        (t : NeuronType) (k : nat) :
  cell_at (game_grid g) (move_x m) (move_y m) = Some (Some k) ->
  truthy (winner g) = None ->
  NeuronType_of_name (upper (move_type m)) = Some t ->
  place_neuron (game_grid g) (move_x m) (move_y m) t
               (get_processing_power m) pid
  = (game_grid g, Return None)
  /\ play_turn simple_cycles g pid m
     = (g, Return (invalid_move "position_occupied")).
Proof.
  intros Hcell Hw Ht.
  assert (Hp : place_neuron (game_grid g) (move_x m) (move_y m) t
                            (get_processing_power m) pid
               = (game_grid g, Return None)).
  { apply cell_at_getitem in Hcell as (row & Hrow & Hc).
    unfold place_neuron. now rewrite Hrow, Hc. }
  split; [exact Hp |].
  rewrite (play_turn_not_placed simple_cycles g pid m t _ _ Hw Ht Hp);
    [reflexivity | congruence].
Qed.

Lemma occupied_cell_changes_nothing_witness :
  play_turn simple_cycles_unsupported session1 "p"
            (mkMove 0 0 "Memory" (Some 7))
  = (session1, Return (invalid_move "position_occupied")).
Proof.
  apply (occupied_cell_changes_nothing
           simple_cycles_unsupported session1 "p"
           (mkMove 0 0 "Memory" (Some 7)) MEMORY 0);
    reflexivity.
Defined.

(** ** C7: the session after a win *)




(** ** C2: the synchronisation groups *)

Lemma items_In (ns : list Neuron) (e : nat * Neuron) :
  In e (items ns) -> In (snd e) ns.
Proof. destruct e as [k n]. apply in_combine_r. Qed.

Lemma sync_group_quiescent (ns : list Neuron) (nid1 : nat) (n1 : Neuron) :
  quiescent ns -> activation n1 = 0 ->
  sync_group ns nid1 n1
  = nid1 :: map fst (filter (fun e => negb (nid1 =? fst e)%nat) (items ns)).
Proof.
  intros Hq H1. unfold sync_group. do 2 f_equal.
  apply filter_ext_in. intros e He.
  apply items_In in He. unfold quiescent in Hq.
  rewrite Forall_forall in Hq. destruct (Hq _ He) as [-> _]. rewrite H1.
  replace (Rltb (Rabs (0 - 0)) 0.1) with true; [apply andb_true_r |].
  symmetry. apply Rltb_true. rewrite Rminus_diag, Rabs_R0. lra.
Qed.

Lemma sync_groups_quiescent (ns : list Neuron) :
  quiescent ns ->
  map p_nodes (sync_groups ns)
  = flat_map
      (fun e =>
         let group :=
           fst e
           :: map fst (filter (fun e' => negb (fst e =? fst e')%nat)
                              (items ns)) in
         if (3 <=? length group)%nat then [group] else [])
      (items ns).
Proof.
  intros Hq. unfold sync_groups.
  rewrite !flat_map_concat_map, concat_map, map_map. f_equal.
  apply map_ext_in. intros e He. cbv zeta.
  assert (Ha : activation (snd e) = 0).
  { unfold quiescent in Hq. rewrite Forall_forall in Hq.
    now apply Hq, items_In. }
  rewrite (sync_group_quiescent _ _ _ Hq Ha).
  now destruct (3 <=? _)%nat.
Qed.

Lemma loop_patterns_type (ns : list Neuron) (cycles : list (list nat)) :
  Forall (fun p => p_type p = Loop) (loop_patterns ns cycles).
Proof.
  induction cycles as [| cycle rest IH]; cbn [loop_patterns];
    [constructor |].
  destruct (3 <=? length cycle)%nat; [| exact IH].
  destruct (cycle_activations ns cycle); [| constructor].
  destruct (Rltb 0.5 _); [constructor; [reflexivity | exact IH] | exact IH].
Qed.

Lemma placed_in_row_quiescent (k : nat) : quiescent (neurons (placed_in_row k)).
Proof.
  apply (inv_quiescent 19). unfold placed_in_row.
  assert (H : forall l g, grid_inv 19 g ->
                          grid_inv 19
                            (fold_left
                               (fun g i =>
                                  fst (place_neuron g (Z.of_nat i) 0
                                                    PROCESSOR 5 "p"))
                               l g)).
  { induction l as [| i l IH]; intros g Hg; [exact Hg |].
    simpl. apply IH. now apply place_neuron_inv. }
  apply H, new_grid_inv.
Qed.

(** C2 at the failing input, three neurons placed in a row (every
    activation is [0.0]). The loop builds one synchronisation group of
    three members around each neuron, but the list returned holds no
    pattern; whatever the grid, no returned pattern is a synchronisation
    pattern, because the groups are never added to the list returned. *)
Theorem synchronization_groups_are_discarded :
  map p_nodes (sync_groups (neurons (placed_in_row 3)))
  = [[0; 1; 2]; [1; 0; 2]; [2; 0; 1]]%nat
  /\ Forall (fun p => p_type p = Synchronization)
            (sync_groups (neurons (placed_in_row 3)))
  /\ (forall simple_cycles,
         detect_consciousness_patterns simple_cycles (placed_in_row 3) = [])
  /\ (forall simple_cycles g,
         Forall (fun p => p_type p <> Synchronization)
                (detect_consciousness_patterns simple_cycles g)).
Proof.
  split; [| split; [| split]].
  - rewrite sync_groups_quiescent by apply placed_in_row_quiescent.
    reflexivity.
  - unfold sync_groups. apply Forall_flat_map, Forall_forall.
    intros e _. cbv zeta. destruct (3 <=? _)%nat; repeat constructor.
  - intros sc.
    rewrite detect_quiescent by apply placed_in_row_quiescent. reflexivity.
  - intros sc g. unfold detect_consciousness_patterns.
    repeat rewrite Forall_app. repeat split.
    + destruct (sc (network g)); [| constructor].
      eapply Forall_impl; [| apply loop_patterns_type].
      intros p ->. discriminate.
    + unfold hierarchy_patterns.
      destruct (10 <? _)%nat; [| constructor].
      destruct (2 <=? _)%nat; repeat constructor. discriminate.
    + unfold attractor_patterns.
      destruct (5 <? _)%nat; [| constructor].
      destruct (_ && _); repeat constructor. discriminate.
Qed.

(** ** C6: the connections made by a placement *)

(** C6. After a successful placement on a grid that can be reached, the new
    neuron has at most four connections, and every connection of the
    registry is mirrored: [b] in the connections of [a] has [a] in the
    connections of [b], and the edge between them is in the graph. *)
Theorem placement_connections_are_symmetric
        (simple_cycles : Graph -> option (list (list nat))) (sz : nat)
        (g g' : ConsciousnessGrid) (px py : Z) (t : NeuronType) (p : R)
        (pl : string) (nw : Neuron) :
  reachable_grid simple_cycles sz g ->
  place_neuron g px py t p pl = (g', Return (Some nw)) ->
  (length (connections nw) <= 4)%nat
  /\ nth_error (neurons g') (id nw) = Some nw
  /\ forall a b na,
      nth_error (neurons g') a = Some na -> In b (connections na) ->
      exists nb,
        nth_error (neurons g') b = Some nb
        /\ In a (connections nb)
        /\ has_edge (network g') a b = true
        /\ has_edge (network g') b a = true.
Proof.
  intros Hr Hp. apply reachable_grid_inv in Hr.
  assert (Hinv' : grid_inv sz g').
  { replace g' with (fst (place_neuron g px py t p pl)) by now rewrite Hp.
    now apply place_neuron_inv. }
  destruct (place_neuron_registry _ _ _ _ _ _ _ _ Hp)
    as (added & Hnw & Hcount & _ & _ & _ & Hnew & _).
  split; [rewrite Hnw; exact Hcount |].
  split; [rewrite Hnw at 1; exact Hnew |].
  intros a b na Ha Hb.
  destruct (inv_sym _ _ Hinv' _ _ _ Ha Hb) as (nb & Hnb & Hab & He).
  exists nb. repeat split; auto. now rewrite has_edge_sym.
Qed.

Lemma placement_connections_are_symmetric_witness :
  let g' := fst (place_neuron (placed_in_row 1) 1 0 SENSOR 5 "p") in
  let nw := mkNeuron 1 1 0 SENSOR 5 [0%nat] 0 0 in
  (length (connections nw) <= 4)%nat
  /\ nth_error (neurons g') (id nw) = Some nw
  /\ forall a b na,
      nth_error (neurons g') a = Some na -> In b (connections na) ->
      exists nb,
        nth_error (neurons g') b = Some nb
        /\ In a (connections nb)
        /\ has_edge (network g') a b = true
        /\ has_edge (network g') b a = true.
Proof.
  intros g' nw.
  apply (placement_connections_are_symmetric
           simple_cycles_unsupported 19 (placed_in_row 1) g'
           1 0 SENSOR 5 "p" nw).
  - apply (reach_place simple_cycles_unsupported 19 (new_grid 19)
                       0 0 PROCESSOR 5 "p" (reach_new _ _)).
  - reflexivity.
Defined.

(** ** C8: what a step depends on *)

Lemma Forall2_nth_error {A B} (P : A -> B -> Prop) (l1 : list A)
      (l2 : list B) :
  Forall2 P l1 l2 ->
  forall k,
    match nth_error l1 k, nth_error l2 k with
    | Some a, Some b => P a b
    | None, None => True
    | _, _ => False
    end.
Proof.
  induction 1 as [| a b l1 l2 Hab _ IH]; intros [| k]; simpl; auto.
  apply IH.
Qed.

Lemma input_sum_agree (ns1 ns2 : list Neuron) (n1 n2 : Neuron) :
  Forall2 same_step_inputs ns1 ns2 -> same_step_inputs n1 n2 ->
  input_sum ns1 n1 = input_sum ns2 n2.
Proof.
  intros Hns (Hc & _ & _ & Hp & _). unfold input_sum. rewrite Hc.
  f_equal. apply map_ext. intros c.
  pose proof (Forall2_nth_error _ _ _ Hns c) as Hk.
  destruct (nth_error ns1 c) as [c1 |], (nth_error ns2 c) as [c2 |];
    try contradiction; [| reflexivity].
  destruct Hk as (_ & Ha & _ & Hp' & _).
  unfold weight. now rewrite Ha, Hp, Hp'.
Qed.

Lemma step_neuron_agree (ns1 ns2 : list Neuron) (level : R)
      (n1 n2 : Neuron) :
  Forall2 same_step_inputs ns1 ns2 -> same_step_inputs n1 n2 ->
  activation (step_neuron ns1 level n1) = activation (step_neuron ns2 level n2)
  /\ memory_state (step_neuron ns1 level n1)
     = memory_state (step_neuron ns2 level n2).
Proof.
  intros Hns Hn. unfold step_neuron.
  rewrite (input_sum_agree _ _ _ _ Hns Hn).
  destruct Hn as (_ & _ & Ht & Hp & Hm). rewrite Ht, Hp, Hm.
  destruct (type n2); simpl; auto.
Qed.

(** On any grid, the new activations (and memory states) are a function of
    the connections, prior activation, type, processing power and memory
    state of every neuron and of the consciousness level: two grids that
    agree on these, whatever else differs, get the same ones. *)
Lemma simulate_step_same_inputs (g1 g2 : ConsciousnessGrid) :
  Forall2 same_step_inputs (neurons g1) (neurons g2) ->
  consciousness_level g1 = consciousness_level g2 ->
  map activation (neurons (simulate_step g1))
  = map activation (neurons (simulate_step g2))
  /\ map memory_state (neurons (simulate_step g1))
     = map memory_state (neurons (simulate_step g2)).
Proof.
  intros Hns Hl. unfold simulate_step. simpl. rewrite Hl, !map_map.
  set (level := consciousness_level g2).
  assert (H : forall l1 l2,
             Forall2 same_step_inputs l1 l2 ->
             map (fun n => activation (step_neuron (neurons g1) level n)) l1
             = map (fun n => activation (step_neuron (neurons g2) level n)) l2
             /\ map (fun n => memory_state (step_neuron (neurons g1) level n))
                    l1
                = map (fun n =>
                         memory_state (step_neuron (neurons g2) level n)) l2).
  { induction 1 as [| n1 n2 l1 l2 Hn _ [IHa IHm]]; [now split |].
    destruct (step_neuron_agree _ _ level _ _ Hns Hn) as [Ha Hm].
    simpl. now rewrite Ha, Hm, IHa, IHm. }
  now apply H.
Qed.



(** ** C9: what the export carries *)

Lemma NeuronType_value_inj (t1 t2 : NeuronType) :
  NeuronType_value t1 = NeuronType_value t2 -> t1 = t2.
Proof. destruct t1, t2; simpl; intros H; try reflexivity; discriminate. Qed.

Lemma map_snd_combine_seq {A} (l : list A) (start : nat) :
  map snd (combine (seq start (length l)) l) = l.
Proof.
  revert start. induction l as [| a l IH]; intros start; simpl;
    [reflexivity |].
  now rewrite IH.
Qed.

Lemma export_neuron_agree (ns1 ns2 : list Neuron) :
  map export_neuron ns1 = map export_neuron ns2 ->
  Forall2 same_exported_attributes ns1 ns2.
Proof.
  revert ns2. induction ns1 as [| n1 ns1 IH]; intros [| n2 ns2]; simpl;
    try discriminate; [constructor |].
  intros [= Hx Hy Ht Ha Hc Hrest]. constructor; [| now apply IH].
  repeat split; auto. now apply NeuronType_value_inj.
Qed.

Lemma exported_neurons (g : ConsciousnessEmergenceGame) :
  map snd (st_neurons (get_game_state g))
  = map export_neuron (neurons (game_grid g)).
Proof.
  unfold get_game_state, items. simpl. rewrite map_map. simpl.
  rewrite <- (map_map snd export_neuron). now rewrite map_snd_combine_seq.
Qed.

Lemma exported_occupancy (g : ConsciousnessEmergenceGame) :
  occupancy (game_grid g)
  = map (map (fun n => (n =? 1)%nat)) (grid_state (get_game_state g)).
Proof.
  unfold occupancy, get_game_state. simpl. rewrite map_map.
  apply map_ext. intros row. rewrite map_map.
  apply map_ext. now intros [k |].
Qed.

Lemma Forall2_by_index {A B} (P Q : A -> B -> Prop) (l1 : list A)
      (l2 : list B) :
  Forall2 P l1 l2 ->
  (forall i a b,
      nth_error l1 i = Some a -> nth_error l2 i = Some b -> P a b -> Q a b) ->
  Forall2 Q l1 l2.
Proof.
  induction 1 as [| a b l1 l2 Hab _ IH]; intros H; constructor.
  - now apply (H 0%nat).
  - apply IH. intros i a' b' Ha Hb. now apply (H (S i)).
Qed.

(** C9, as the code has it. Two sessions that can be reached and have the
    same export have the same occupancy of the grid and, neuron by neuron,
    the same id, position, type, connections, activation and memory state:
    every attribute but the processing power. (Position, type, activation
    and connections are read off the export; the id is the key and the
    memory state is zero in every session that can be reached.) *)
Theorem export_determines_all_but_processing_power
        (simple_cycles : Graph -> option (list (list nat)))
        (g1 g2 : ConsciousnessEmergenceGame) :
  reachable simple_cycles g1 -> reachable simple_cycles g2 ->
  get_game_state g1 = get_game_state g2 ->
  occupancy (game_grid g1) = occupancy (game_grid g2)
  /\ Forall2 same_but_processing_power
             (neurons (game_grid g1)) (neurons (game_grid g2)).
Proof.
  intros H1 H2 H.
  destruct (reachable_inv _ _ H1) as [I1 _].
  destruct (reachable_inv _ _ H2) as [I2 _].
  split; [now rewrite !exported_occupancy, H |].
  apply (Forall2_by_index same_exported_attributes).
  - apply export_neuron_agree. now rewrite <- !exported_neurons, H.
  - intros i a b Ha Hb (Hx & Hy & Ht & Hact & Hc).
    pose proof (inv_quiescent _ _ I1) as Q1.
    pose proof (inv_quiescent _ _ I2) as Q2.
    unfold quiescent in Q1, Q2. rewrite Forall_forall in Q1, Q2.
    destruct (Q1 _ (nth_error_In _ _ Ha)) as [_ M1].
    destruct (Q2 _ (nth_error_In _ _ Hb)) as [_ M2].
    repeat split; auto.
    + now rewrite (inv_ids _ _ I1 _ _ Ha), (inv_ids _ _ I2 _ _ Hb).
    + now rewrite M1, M2.
Qed.

Lemma session_with_power_eq (p : R) :
  session_with_power p
  = mkGame (fst (place_neuron (new_grid 19) 0 0 PROCESSOR p "p"))
           [("p"%string, mkPlayer "single" 1 false (Rmax 0 0))]
           1 100 None.
Proof.
  unfold session_with_power.
  now rewrite (first_turn session0 "p" (mkMove 0 0 "processor" (Some p))
                          PROCESSOR _ _ _
                          eq_refl eq_refl eq_refl eq_refl eq_refl).
Qed.

Lemma session_with_power_reachable (p : R) :
  reachable simple_cycles_unsupported (session_with_power p).
Proof. apply reach_play_turn, reach_add_player, reach_init. Qed.

Lemma session_with_power_export (p q : R) :
  get_game_state (session_with_power p)
  = get_game_state (session_with_power q).
Proof. rewrite !session_with_power_eq. reflexivity. Qed.

Lemma export_determines_all_but_processing_power_witness :
  occupancy (game_grid (session_with_power 5))
  = occupancy (game_grid (session_with_power 7))
  /\ Forall2 same_but_processing_power
             (neurons (game_grid (session_with_power 5)))
             (neurons (game_grid (session_with_power 7))).
Proof.
  apply (export_determines_all_but_processing_power
           simple_cycles_unsupported).
  - apply session_with_power_reachable.
  - apply session_with_power_reachable.
  - apply session_with_power_export.
Defined.

(** C9, as the claim states it, fails: two sessions that can be reached,
    one turn each, have the same export and differ in the processing power
    of the neuron placed; the export does not carry it. *)
Lemma export_hides_processing_power :
  reachable simple_cycles_unsupported (session_with_power 5)
  /\ reachable simple_cycles_unsupported (session_with_power 7)
  /\ get_game_state (session_with_power 5)
     = get_game_state (session_with_power 7)
  /\ map processing_power (neurons (game_grid (session_with_power 5)))
     <> map processing_power (neurons (game_grid (session_with_power 7))).
Proof.
  split; [apply session_with_power_reachable |].
  split; [apply session_with_power_reachable |].
  split; [apply session_with_power_export |].
  rewrite !session_with_power_eq. simpl. intros [= H]. lra.
Qed.

(** ** C10: the cap of four bounds the new neuron only *)

Lemma placed_in_row_reachable
      (simple_cycles : Graph -> option (list (list nat))) (k : nat) :
  reachable_grid simple_cycles 19 (placed_in_row k).
Proof.
  unfold placed_in_row.
  assert (H : forall l g,
             reachable_grid simple_cycles 19 g ->
             reachable_grid simple_cycles 19
               (fold_left
                  (fun g i =>
                     fst (place_neuron g (Z.of_nat i) 0 PROCESSOR 5 "p"))
                  l g)).
  { induction l as [| i l IH]; intros g Hg; [exact Hg |].
    simpl. apply IH. now apply reach_place. }
  apply H, reach_new.
Qed.







(** * Further properties of the engine *)

Local Open Scope R_scope.

(** ** The player table *)

Lemma dict_get_set {V} (d : list (string * V)) (k k' : string) (v : V) :
  dict_get (dict_set d k v) k'
  = if String.eqb k k' then Some v else dict_get d k'.
Proof.
  induction d as [| [k0 v0] d IH]; simpl.
  - reflexivity.
  - destruct (String.eqb_spec k0 k) as [-> | Hne]; simpl.
    + destruct (String.eqb k k'); reflexivity.
    + rewrite IH. destruct (String.eqb_spec k0 k') as [-> | Hne'].
      * destruct (String.eqb_spec k k'); [congruence | reflexivity].
      * reflexivity.
Qed.

Lemma dict_get_In {V} (d : list (string * V)) (k : string) (v : V) :
  dict_get d k = Some v -> In v (map snd d).
Proof.
  induction d as [| [k0 v0] d IH]; simpl; [discriminate |].
  destruct (String.eqb k0 k); [intros [= ->]; now left | auto].
Qed.

Lemma dict_set_values {V} (P : V -> Prop) (d : list (string * V))
      (k : string) (v : V) :
  Forall P (map snd d) -> P v -> Forall P (map snd (dict_set d k v)).
Proof.
  intros Hd Hv. induction d as [| [k0 v0] d IH]; simpl.
  - repeat constructor. exact Hv.
  - inversion Hd as [| ? ? H0 Hrest]; subst.
    destruct (String.eqb k0 k); simpl; constructor; auto.
Qed.

(** ** Placement: outcome and effect on the cells *)

Local Close Scope R_scope.

Lemma nth_error_list_set_eq {A} (l : list A) (k : nat) (v : A) :
  k < length l -> nth_error (list_set l k v) k = Some v.
Proof.
  revert k. induction l as [| a l IH]; intros [| k]; simpl; try lia; auto.
  intros H. apply IH. lia.
Qed.

Lemma nth_error_list_set_neq {A} (l : list A) (k j : nat) (v : A) :
  k <> j -> nth_error (list_set l k v) j = nth_error l j.
Proof.
  revert k j. induction l as [| a l IH]; intros [| k] [| j]; simpl;
    try congruence; auto.
Qed.

Lemma valid_index_spec (sz : nat) (i : Z) :
  valid_index sz i = true <-> (- Z.of_nat sz <= i < Z.of_nat sz)%Z.
Proof. unfold valid_index. rewrite andb_true_iff. lia. Qed.

Lemma wrap_range (sz : nat) (i : Z) :
  valid_index sz i = true -> (0 <= wrap sz i < Z.of_nat sz)%Z.
Proof.
  rewrite valid_index_spec. unfold wrap.
  destruct (Z.ltb_spec i 0); lia.
Qed.

Lemma py_index_wrap (sz : nat) (i : Z) :
  valid_index sz i = true -> py_index sz i = Some (Z.to_nat (wrap sz i)).
Proof.
  rewrite valid_index_spec. intros H. unfold py_index, wrap.
  destruct (Z.ltb_spec i 0) as [Hneg | Hpos].
  - replace ((0 <=? i)%Z && (i <? Z.of_nat sz)%Z) with false
      by (symmetry; apply andb_false_iff; lia).
    replace (- Z.of_nat sz <=? i)%Z with true
      by (symmetry; apply Z.leb_le; lia).
    simpl. f_equal. lia.
  - replace ((0 <=? i)%Z && (i <? Z.of_nat sz)%Z) with true
      by (symmetry; apply andb_true_iff; lia).
    reflexivity.
Qed.

Lemma py_index_invalid (sz : nat) (i : Z) :
  valid_index sz i = false -> py_index sz i = None.
Proof.
  intros H. apply py_index_out.
  destruct (Z_lt_ge_dec i (- Z.of_nat sz)); [lia |].
  destruct (Z_lt_ge_dec i (Z.of_nat sz)); [| lia].
  assert (valid_index sz i = true) by (apply valid_index_spec; lia).
  congruence.
Qed.

Lemma cell_at_nth (g : ConsciousnessGrid) (qx qy : Z) :
  (0 <= qx < Z.of_nat (size g))%Z -> (0 <= qy < Z.of_nat (size g))%Z ->
  cell_at g qx qy
  = match nth_error (grid g) (Z.to_nat qx) with
    | Some row => nth_error row (Z.to_nat qy)
    | None => None
    end.
Proof.
  intros Hx Hy. unfold cell_at.
  replace ((0 <=? qx)%Z && (qx <? Z.of_nat (size g))%Z && (0 <=? qy)%Z
           && (qy <? Z.of_nat (size g))%Z) with true; [reflexivity |].
  symmetry. rewrite !andb_true_iff. lia.
Qed.

(** On a well-formed grid the cell read by [self.grid[x][y]] is the cell at
    the wrapped coordinates. *)
Lemma getitem_cell (sz : nat) (g : ConsciousnessGrid) (px py : Z) :
  grid_inv sz g ->
  valid_index sz px = true -> valid_index sz py = true ->
  exists row c,
    nth_error (grid g) (Z.to_nat (wrap sz px)) = Some row
    /\ length row = sz
    /\ getitem (grid g) px = Some row
    /\ nth_error row (Z.to_nat (wrap sz py)) = Some c
    /\ getitem row py = Some c
    /\ cell_at g (wrap sz px) (wrap sz py) = Some c.
Proof.
  intros Hinv Hx Hy.
  pose proof (wrap_range sz px Hx) as Hwx.
  pose proof (wrap_range sz py Hy) as Hwy.
  destruct (nth_error (grid g) (Z.to_nat (wrap sz px))) as [row |] eqn:Erow.
  2:{ apply nth_error_None in Erow. rewrite (inv_rows _ _ Hinv) in Erow. lia. }
  assert (Hlen : length row = sz).
  { pose proof (inv_cols _ _ Hinv) as Hc. rewrite Forall_forall in Hc.
    apply Hc. eapply nth_error_In; eauto. }
  destruct (nth_error row (Z.to_nat (wrap sz py))) as [c |] eqn:Ec.
  2:{ apply nth_error_None in Ec. lia. }
  exists row, c. repeat split; auto.
  - unfold getitem. now rewrite (inv_rows _ _ Hinv), py_index_wrap.
  - unfold getitem. now rewrite Hlen, py_index_wrap.
  - rewrite cell_at_nth by (rewrite (inv_size _ _ Hinv); lia).
    now rewrite Erow.
Qed.

(** X2. The three outcomes of [place_neuron] on a grid that can be reached.
    An index outside [[-size, size)] raises the [IndexError]; otherwise the
    cell addressed is the one at the wrapped coordinates: occupied, the
    call returns [None] and changes nothing; empty, it returns the new
    neuron, whose id is the next key, whose coordinates are the raw
    arguments, at rest, wired to the first four neurons within range. *)
Theorem place_neuron_outcome
        (simple_cycles : Graph -> option (list (list nat))) (sz : nat)
        (g : ConsciousnessGrid) (px py : Z) (t : NeuronType) (p : R)
        (pl : string) :
  reachable_grid simple_cycles sz g ->
  if valid_index sz px && valid_index sz py then
    match cell_at g (wrap sz px) (wrap sz py) with
    | Some (Some _) => place_neuron g px py t p pl = (g, Return None)
    | Some None =>
        exists g',
          place_neuron g px py t p pl
          = (g', Return (Some (mkNeuron
                                 (length (neurons g)) px py t p
                                 (firstn 4 (nearby px py 0 (neurons g)))
                                 0%R 0%R)))
    | None => False
    end
  else place_neuron g px py t p pl = (g, Raise IndexError).
Proof.
  intros Hr. apply reachable_grid_inv in Hr.
  destruct (valid_index sz px) eqn:Hx; simpl.
  - destruct (valid_index sz py) eqn:Hy.
    + destruct (getitem_cell sz g px py Hr Hx Hy)
        as (row & c & _ & _ & Hrow & _ & Hc & Hcell).
      rewrite Hcell. destruct c as [k |].
      * unfold place_neuron. now rewrite Hrow, Hc.
      * destruct (place_neuron g px py t p pl) as [g' o] eqn:E.
        assert (Ho : exists nw, o = Return (Some nw)).
        { unfold place_neuron in E. rewrite Hrow, Hc in E.
          destruct (auto_connect _ _ _ _ _) as [[nw ns] net].
          injection E as _ <-. eauto. }
        destruct Ho as (nw & ->). exists g'. do 3 f_equal.
        pose proof (place_neuron_connections _ _ _ _ _ _ _ _ _ Hr E) as Hc'.
        destruct (place_neuron_registry _ _ _ _ _ _ _ _ E)
          as (added & Hnw & _).
        rewrite Hnw in Hc' |- *. simpl in Hc'. now rewrite Hc'.
    + apply (getitem_grid_out_of_range sz); [exact Hr |].
      assert (Hn : ~ (- Z.of_nat sz <= py < Z.of_nat sz)%Z)
        by (rewrite <- valid_index_spec; congruence).
      lia.
  - apply (getitem_grid_out_of_range sz); [exact Hr |].
    assert (Hn : ~ (- Z.of_nat sz <= px < Z.of_nat sz)%Z)
      by (rewrite <- valid_index_spec; congruence).
    lia.
Qed.

Lemma place_neuron_outcome_witness :
  exists g',
    place_neuron (placed_in_row 2) (-1) 0 MEMORY 3%R "q"
    = (g', Return (Some (mkNeuron 2 (-1) 0 MEMORY 3%R [0; 1] 0%R 0%R))).
Proof.
  exact (place_neuron_outcome simple_cycles_unsupported 19 (placed_in_row 2)
           (-1) 0 MEMORY 3%R "q"
           (placed_in_row_reachable simple_cycles_unsupported 2)).
Defined.

Lemma py_index_some_valid (sz : nat) (i : Z) (k : nat) :
  py_index sz i = Some k ->
  valid_index sz i = true /\ k = Z.to_nat (wrap sz i).
Proof.
  intros H. destruct (valid_index sz i) eqn:E.
  - rewrite py_index_wrap in H by exact E. injection H as <-. now split.
  - rewrite py_index_invalid in H by exact E. discriminate.
Qed.

Lemma place_neuron_occupied (sz : nat) (g : ConsciousnessGrid) (px py : Z)
      (t : NeuronType) (p : R) (pl : string) (k : nat) :
  grid_inv sz g ->
  valid_index sz px = true -> valid_index sz py = true ->
  cell_at g (wrap sz px) (wrap sz py) = Some (Some k) ->
  place_neuron g px py t p pl = (g, Return None).
Proof.
  intros Hinv Hx Hy Hcell.
  destruct (getitem_cell sz g px py Hinv Hx Hy)
    as (row & c & _ & _ & Hrow & _ & Hc & Hcell').
  rewrite Hcell in Hcell'. injection Hcell' as <-.
  unfold place_neuron. now rewrite Hrow, Hc.
Qed.

(** The cells after a successful placement. *)
Lemma place_neuron_cell_at (sz : nat) (g g' : ConsciousnessGrid) (px py : Z)
      (t : NeuronType) (p : R) (pl : string) (nw : Neuron) :
  grid_inv sz g ->
  place_neuron g px py t p pl = (g', Return (Some nw)) ->
  valid_index sz px = true /\ valid_index sz py = true
  /\ cell_at g (wrap sz px) (wrap sz py) = Some None
  /\ forall qx qy,
      cell_at g' qx qy
      = if ((qx =? wrap sz px) && (qy =? wrap sz py))%Z
        then Some (Some (length (neurons g)))
        else cell_at g qx qy.
Proof.
  intros Hinv Hp.
  apply place_neuron_success
    in Hp as (row & r & c & ns' & net' & Hr & Hrow & Hc & Hcell & _ & Hg').
  rewrite (inv_rows _ _ Hinv) in Hr.
  assert (Hlen : length row = sz).
  { pose proof (inv_cols _ _ Hinv) as Hcols. rewrite Forall_forall in Hcols.
    apply Hcols. eapply nth_error_In; eauto. }
  rewrite Hlen in Hc.
  apply py_index_some_valid in Hr as [Hx ->].
  apply py_index_some_valid in Hc as [Hy ->].
  pose proof (wrap_range sz px Hx) as Hwx.
  pose proof (wrap_range sz py Hy) as Hwy.
  pose proof (inv_size _ _ Hinv) as Hsize.
  split; [exact Hx |]. split; [exact Hy |]. split.
  { rewrite cell_at_nth by lia. now rewrite Hrow. }
  intros qx qy.
  destruct ((0 <=? qx)%Z && (qx <? Z.of_nat sz)%Z && (0 <=? qy)%Z
            && (qy <? Z.of_nat sz)%Z) eqn:Hin.
  - rewrite !andb_true_iff in Hin.
    rewrite !cell_at_nth by (rewrite ?Hg'; simpl; lia).
    rewrite Hg'. cbn [grid].
    destruct (Z.eqb_spec qx (wrap sz px)) as [-> | Hnx]; cbn [andb].
    + rewrite nth_error_list_set_eq
        by (rewrite (inv_rows _ _ Hinv); lia).
      rewrite Hrow.
      destruct (Z.eqb_spec qy (wrap sz py)) as [-> | Hny].
      * apply nth_error_list_set_eq. lia.
      * apply nth_error_list_set_neq. lia.
    + rewrite nth_error_list_set_neq by lia. reflexivity.
  - assert (Hout : forall h, size h = sz -> cell_at h qx qy = None)
      by (intros h Hh; unfold cell_at; now rewrite Hh, Hin).
    rewrite !Hout by (rewrite ?Hg'; auto).
    destruct (Z.eqb_spec qx (wrap sz px)) as [-> | _]; [| reflexivity].
    destruct (Z.eqb_spec qy (wrap sz py)) as [-> | _]; [| reflexivity].
    exfalso. rewrite !andb_false_iff in Hin. lia.
Qed.

(** X3. A successful placement on a grid that can be reached fills exactly
    one cell, the one at the wrapped coordinates, which was empty; it
    stores the key of the new neuron there and leaves every other cell as
    it was. *)
Theorem place_neuron_fills_one_cell
        (simple_cycles : Graph -> option (list (list nat))) (sz : nat)
        (g g' : ConsciousnessGrid) (px py : Z) (t : NeuronType) (p : R)
        (pl : string) (nw : Neuron) :
  reachable_grid simple_cycles sz g ->
  place_neuron g px py t p pl = (g', Return (Some nw)) ->
  cell_at g (wrap sz px) (wrap sz py) = Some None
  /\ forall qx qy,
      cell_at g' qx qy
      = if ((qx =? wrap sz px) && (qy =? wrap sz py))%Z
        then Some (Some (length (neurons g)))
        else cell_at g qx qy.
Proof.
  intros Hr Hp. apply reachable_grid_inv in Hr.
  now destruct (place_neuron_cell_at _ _ _ _ _ _ _ _ _ Hr Hp)
    as (_ & _ & H1 & H2).
Qed.

Lemma placed_in_row_1_second :
  snd (place_neuron (placed_in_row 1) (-1) 3 SENSOR 5%R "p")
  = Return (Some (mkNeuron 1 (-1) 3 SENSOR 5%R [0%nat] 0%R 0%R)).
Proof. reflexivity. Qed.

Lemma place_neuron_fills_one_cell_witness :
  cell_at (fst (place_neuron (placed_in_row 1) (-1) 3 SENSOR 5%R "p")) 18 3
  = Some (Some 1%nat).
Proof.
  assert (Hp : place_neuron (placed_in_row 1) (-1) 3 SENSOR 5%R "p"
               = (fst (place_neuron (placed_in_row 1) (-1) 3 SENSOR 5%R "p"),
                  Return (Some (mkNeuron 1 (-1) 3 SENSOR 5%R [0%nat]
                                         0%R 0%R)))).
  { rewrite <- placed_in_row_1_second. apply surjective_pairing. }
  rewrite (proj2 (place_neuron_fills_one_cell
                    simple_cycles_unsupported 19 (placed_in_row 1) _
                    (-1) 3 SENSOR 5%R "p" _
                    (placed_in_row_reachable simple_cycles_unsupported 1)
                    Hp) 18%Z 3%Z).
  reflexivity.
Defined.

(** X4. Coordinates that differ by the size of the grid address the same
    cell. After a successful placement every further placement whose
    coordinates wrap to the same cell is refused as occupied, whatever its
    raw coordinates, and changes nothing. *)
Theorem wrapped_coordinates_share_the_cell
        (simple_cycles : Graph -> option (list (list nat))) (sz : nat)
        (g g' : ConsciousnessGrid) (px py qx qy : Z)
        (t t' : NeuronType) (p p' : R) (pl pl' : string) (nw : Neuron) :
  reachable_grid simple_cycles sz g ->
  place_neuron g px py t p pl = (g', Return (Some nw)) ->
  valid_index sz qx = true -> valid_index sz qy = true ->
  wrap sz qx = wrap sz px -> wrap sz qy = wrap sz py ->
  place_neuron g' qx qy t' p' pl' = (g', Return None).
Proof.
  intros Hr Hp Hqx Hqy Hwx Hwy. apply reachable_grid_inv in Hr.
  assert (Hinv' : grid_inv sz g').
  { replace g' with (fst (place_neuron g px py t p pl)) by now rewrite Hp.
    now apply place_neuron_inv. }
  destruct (place_neuron_cell_at _ _ _ _ _ _ _ _ _ Hr Hp)
    as (_ & _ & _ & Hcells).
  apply (place_neuron_occupied sz g' qx qy t' p' pl' (length (neurons g)));
    auto.
  rewrite Hcells, Hwx, Hwy, !Z.eqb_refl. reflexivity.
Qed.

Lemma wrapped_coordinates_share_the_cell_witness :
  place_neuron (fst (place_neuron (placed_in_row 1) (-1) 3 SENSOR 5%R "p"))
               18 (-16) MEMORY 2%R "q"
  = (fst (place_neuron (placed_in_row 1) (-1) 3 SENSOR 5%R "p"),
     Return None).
Proof.
  assert (Hp : place_neuron (placed_in_row 1) (-1) 3 SENSOR 5%R "p"
               = (fst (place_neuron (placed_in_row 1) (-1) 3 SENSOR 5%R "p"),
                  Return (Some (mkNeuron 1 (-1) 3 SENSOR 5%R [0%nat]
                                         0%R 0%R)))).
  { rewrite <- placed_in_row_1_second. apply surjective_pairing. }
  apply (wrapped_coordinates_share_the_cell
           simple_cycles_unsupported 19 (placed_in_row 1) _
           (-1) 3 18 (-16) SENSOR MEMORY 5%R 2%R "p" "q" _
           (placed_in_row_reachable simple_cycles_unsupported 1) Hp);
    reflexivity.
Defined.

(** ** The turn controller on sessions that can be reached *)

Local Open Scope R_scope.

Lemma getitem_after_placement (sz : nat) (g g' : ConsciousnessGrid)
      (px py : Z) (t : NeuronType) (p : R) (pl : string) (nw : Neuron)
      (t' : NeuronType) (p' : R) (pl' : string) :
  grid_inv sz g ->
  place_neuron g px py t p pl = (g', Return (Some nw)) ->
  place_neuron g' px py t' p' pl' = (g', Return None).
Proof.
  intros Hinv Hp.
  assert (Hinv' : grid_inv sz g').
  { replace g' with (fst (place_neuron g px py t p pl)) by now rewrite Hp.
    now apply place_neuron_inv. }
  destruct (place_neuron_cell_at _ _ _ _ _ _ _ _ _ Hinv Hp)
    as (Hx & Hy & _ & Hcells).
  apply (place_neuron_occupied sz g' px py t' p' pl' (length (neurons g)));
    auto.
  rewrite Hcells, !Z.eqb_refl. reflexivity.
Qed.

(** X5. A move by a player who was never registered is not atomic: the
    neuron is placed, then the lookup of the player raises [KeyError];
    players, turn counter and winner are as before, the grid keeps the
    neuron, and the same move sent again is answered [invalid_move]. *)
Theorem unregistered_player_move_is_half_done
        (simple_cycles : Graph -> option (list (list nat)))
        (g : ConsciousnessEmergenceGame) (pid : string) (m : Move)
        (t : NeuronType) :
  reachable simple_cycles g ->
  NeuronType_of_name (upper (move_type m)) = Some t ->
  valid_index 19 (move_x m) = true -> valid_index 19 (move_y m) = true ->
  cell_at (game_grid g) (wrap 19 (move_x m)) (wrap 19 (move_y m))
  = Some None ->
  dict_get (players g) pid = None ->
  exists gr,
    play_turn simple_cycles g pid m
    = (mkGame gr (players g) (turn g) (max_turns g) (winner g),
       Raise KeyError)
    /\ length (neurons gr) = S (length (neurons (game_grid g)))
    /\ play_turn simple_cycles
                 (mkGame gr (players g) (turn g) (max_turns g) (winner g))
                 pid m
       = (mkGame gr (players g) (turn g) (max_turns g) (winner g),
          Return (invalid_move "position_occupied")).
Proof.
  intros Hr Ht Hx Hy Hcell Hd.
  destruct (reachable_inv _ _ Hr) as [Hinv Hw].
  assert (Hty : truthy (winner g) = None) by now rewrite Hw.
  destruct (getitem_cell 19 _ _ _ Hinv Hx Hy)
    as (row & c & _ & _ & Hrow & _ & Hc & Hcell').
  rewrite Hcell in Hcell'. injection Hcell' as <-.
  destruct (place_neuron (game_grid g) (move_x m) (move_y m) t
                         (get_processing_power m) pid) as [gr o] eqn:Hp.
  assert (Ho : exists nw, o = Return (Some nw)).
  { unfold place_neuron in Hp. rewrite Hrow, Hc in Hp.
    destruct (auto_connect _ _ _ _ _) as [[nw ns] net].
    injection Hp as _ <-. eauto. }
  destruct Ho as (nw & ->). exists gr. split; [| split].
  - now apply (play_turn_unregistered simple_cycles g pid m t gr nw).
  - now destruct (place_neuron_registry _ _ _ _ _ _ _ _ Hp)
      as (_ & _ & _ & _ & _ & Hlen & _).
  - apply (play_turn_not_placed simple_cycles _ pid m t gr (Return None));
      auto; [| congruence].
    simpl. eapply getitem_after_placement; eauto.
Qed.

Lemma unregistered_player_move_is_half_done_witness :
  exists gr,
    play_turn simple_cycles_unsupported session0 "nobody"
              (mkMove 4 (-2) "Connector" None)
    = (mkGame gr (players session0) 0 100 None, Raise KeyError)
    /\ length (neurons gr) = 1%nat
    /\ play_turn simple_cycles_unsupported
                 (mkGame gr (players session0) 0 100 None) "nobody"
                 (mkMove 4 (-2) "Connector" None)
       = (mkGame gr (players session0) 0 100 None,
          Return (invalid_move "position_occupied")).
Proof.
  apply (unregistered_player_move_is_half_done
           simple_cycles_unsupported session0 "nobody"
           (mkMove 4 (-2) "Connector" None) CONNECTOR);
    try reflexivity.
  apply reach_add_player, reach_init.
Defined.

(** The exits of [play_turn] on a session with a well-formed grid and no
    winner. *)
Lemma play_turn_exits
      (simple_cycles : Graph -> option (list (list nat)))
      (g : ConsciousnessEmergenceGame) (pid : string) (m : Move) :
  grid_inv 19 (game_grid g) -> winner g = None ->
  (play_turn simple_cycles g pid m = (g, Raise KeyError))
  \/ (play_turn simple_cycles g pid m = (g, Raise IndexError))
  \/ (play_turn simple_cycles g pid m
      = (g, Return (invalid_move "position_occupied")))
  \/ (exists gr,
         play_turn simple_cycles g pid m
         = (mkGame gr (players g) (turn g) (max_turns g) (winner g),
            Raise KeyError)
         /\ dict_get (players g) pid = None
         /\ length (neurons gr) = S (length (neurons (game_grid g))))
  \/ (exists gr info level,
         play_turn simple_cycles g pid m
         = (mkGame gr
                   (dict_set (players g) pid
                             (mkPlayer (player_type info)
                                       (neurons_placed info + 1)
                                       (consciousness_achieved info)
                                       (Rmax (peak_consciousness info) level)))
                   (turn g + 1) (max_turns g) (winner g),
            Return (continue level (emergence_patterns gr) (turn g + 1)))
         /\ dict_get (players g) pid = Some info
         /\ 0 <= level <= 0.775
         /\ consciousness_level gr <= 0.775
         /\ length (neurons gr) = S (length (neurons (game_grid g)))).
Proof.
  intros Hinv Hw.
  assert (Hty : truthy (winner g) = None) by now rewrite Hw.
  destruct (NeuronType_of_name (upper (move_type m))) as [t |] eqn:Ht;
    [| left; now apply play_turn_unknown_type].
  destruct (place_neuron (game_grid g) (move_x m) (move_y m) t
                         (get_processing_power m) pid) as [gr o] eqn:Hp.
  destruct o as [[nw |] | e].
  - pose proof (place_neuron_registry _ _ _ _ _ _ _ _ Hp)
      as (_ & _ & _ & _ & _ & Hlen & _).
    destruct (dict_get (players g) pid) as [info |] eqn:Hd.
    + do 4 right.
      destruct (play_turn_continue simple_cycles 19 g pid m t gr nw info
                                   Hinv Hty Ht Hp Hd)
        as (level & gr6 & Hplay & Hlevel & Hinv6 & Hgr6).
      exists gr6, info, level. repeat split; auto; try lra.
      * apply (inv_level _ _ Hinv6).
      * destruct (length (neurons gr) <? 5)%nat.
        -- destruct Hgr6 as [-> _]. exact Hlen.
        -- subst gr6. exact Hlen.
    + do 3 right. left. exists gr. repeat split; auto.
      now apply (play_turn_unregistered simple_cycles g pid m t gr nw).
  - do 2 right. left.
    rewrite (play_turn_not_placed simple_cycles g pid m t gr _ Hty Ht Hp);
      [reflexivity | congruence].
  - assert (He : e = IndexError).
    { unfold place_neuron in Hp.
      destruct (getitem (grid (game_grid g)) (move_x m)) as [row |];
        [| now injection Hp as _ <-].
      destruct (getitem row (move_y m)) as [[k |] |];
        [discriminate | | now injection Hp as _ <-].
      destruct (auto_connect _ _ _ _ _) as [[nw ns] net]. discriminate. }
    subst e. right. left.
    rewrite (play_turn_not_placed simple_cycles g pid m t gr _ Hty Ht Hp);
      [reflexivity | congruence].
Qed.

(** X6. On a session that can be reached, [play_turn] never answers [win]
    or [game_over] and never raises [ZeroDivisionError]: it answers
    [continue], with a score of at most 0.775 and the new turn number, or
    [invalid_move] for an occupied cell, or it raises [KeyError] or
    [IndexError]. *)
Theorem play_turn_never_wins
        (simple_cycles : Graph -> option (list (list nat)))
        (g : ConsciousnessEmergenceGame) (pid : string) (m : Move) :
  reachable simple_cycles g ->
  match snd (play_turn simple_cycles g pid m) with
  | Return (continue level _ t) =>
      0 <= level <= 0.775 /\ t = (turn g + 1)%nat
  | Return (invalid_move reason) => reason = "position_occupied"%string
  | Return (win _ _ _) | Return (game_over _) => False
  | Raise KeyError | Raise IndexError => True
  | Raise ZeroDivisionError => False
  end.
Proof.
  intros Hr. destruct (reachable_inv _ _ Hr) as [Hinv Hw].
  destruct (play_turn_exits simple_cycles g pid m Hinv Hw)
    as [-> | [-> | [-> | [(gr & -> & _) | (gr & info & level & -> & _ & Hl & _)]]]];
    simpl; auto.
Qed.

Lemma play_turn_never_wins_witness :
  match snd (play_turn simple_cycles_unsupported (session_after 6) "p"
                       (mkMove 9 9 "oscillator" (Some 10))) with
  | Return (continue level _ t) =>
      0 <= level <= 0.775 /\ t = (turn (session_after 6) + 1)%nat
  | Return (invalid_move reason) => reason = "position_occupied"%string
  | Return (win _ _ _) | Return (game_over _) => False
  | Raise KeyError | Raise IndexError => True
  | Raise ZeroDivisionError => False
  end.
Proof.
  apply play_turn_never_wins. apply session_after_reachable.
Defined.

(** What every session that can be reached satisfies, besides
    [reachable_inv]. *)
Lemma reachable_counters
      (simple_cycles : Graph -> option (list (list nat)))
      (g : ConsciousnessEmergenceGame) :
  reachable simple_cycles g ->
  max_turns g = 100%nat
  /\ (turn g <= length (neurons (game_grid g)))%nat
  /\ Forall (fun info =>
               consciousness_achieved info = false
               /\ 0 <= peak_consciousness info <= 0.775
               /\ (neurons_placed info <= turn g)%nat)
            (map snd (players g)).
Proof.
  induction 1 as [| g pid ptype Hr (Hmax & Hturn & Hpl)
                  | g pid m Hr (Hmax & Hturn & Hpl)].
  - simpl. split; [reflexivity |]. split; [lia | constructor].
  - unfold add_player. cbn [max_turns turn game_grid players].
    split; [exact Hmax |]. split; [exact Hturn |].
    apply dict_set_values; [exact Hpl |]. simpl.
    split; [reflexivity |]. split; [lra | lia].
  - destruct (reachable_inv _ _ Hr) as [Hinv Hw].
    destruct (play_turn_exits simple_cycles g pid m Hinv Hw)
      as [-> | [-> | [-> | [(gr & -> & _ & Hlen)
                           | (gr & info & level & -> & Hd & Hl & _ & Hlen)]]]];
      simpl; auto.
    + repeat split; auto. lia.
    + repeat split; auto; [lia |].
      apply dict_get_In in Hd. rewrite Forall_forall in Hpl.
      destruct (Hpl _ Hd) as (Ha & Hp & Hn).
      apply dict_set_values.
      * apply Forall_forall. intros i Hi.
        destruct (Hpl _ Hi) as (Ha' & Hp' & Hn').
        split; [exact Ha' |]. split; [exact Hp' | lia].
      * simpl. split; [exact Ha |]. split; [| lia].
        apply Rmax_case; lra.
Qed.

(** X7. In every session that can be reached the winner is unset; and
    every player of the table has [consciousness_achieved] false, a peak in
    [[0, 0.775]], below the winning threshold, and is credited with no
    more neurons than turns were played. *)
Theorem nobody_ever_achieves_consciousness
        (simple_cycles : Graph -> option (list (list nat)))
        (g : ConsciousnessEmergenceGame) :
  reachable simple_cycles g ->
  winner g = None
  /\ forall pid info,
       dict_get (players g) pid = Some info ->
       consciousness_achieved info = false
       /\ 0 <= peak_consciousness info <= 0.775
       /\ (neurons_placed info <= turn g)%nat.
Proof.
  intros Hr. split; [now apply (reachable_no_winner simple_cycles) |].
  intros pid info Hd.
  destruct (reachable_counters _ _ Hr) as (_ & _ & Hpl).
  rewrite Forall_forall in Hpl. apply Hpl. now apply dict_get_In in Hd.
Qed.

Lemma nobody_ever_achieves_consciousness_witness :
  winner (session_after 6) = None
  /\ forall pid info,
       dict_get (players (session_after 6)) pid = Some info ->
       consciousness_achieved info = false
       /\ 0 <= peak_consciousness info <= 0.775
       /\ (neurons_placed info <= turn (session_after 6))%nat.
Proof.
  apply (nobody_ever_achieves_consciousness simple_cycles_unsupported).
  apply session_after_reachable.
Defined.

(** X8. The turn counter counts the successful turns only: in every
    session that can be reached it is at most the number of neurons on the
    grid, hence at most 361, and [max_turns] is still the 100 of the
    constructor. *)
Theorem turn_counter_is_bounded_by_the_grid
        (simple_cycles : Graph -> option (list (list nat)))
        (g : ConsciousnessEmergenceGame) :
  reachable simple_cycles g ->
  max_turns g = 100%nat
  /\ (turn g <= length (neurons (game_grid g)))%nat
  /\ (length (neurons (game_grid g)) <= 361)%nat.
Proof.
  intros Hr. destruct (reachable_counters _ _ Hr) as (Hmax & Hturn & _).
  destruct (reachable_inv _ _ Hr) as [Hinv _].
  repeat split; auto.
  rewrite <- (inv_occupied _ _ Hinv).
  apply (occupied_le 19); [apply (inv_rows _ _ Hinv) | apply (inv_cols _ _ Hinv)].
Qed.

Lemma turn_counter_is_bounded_by_the_grid_witness :
  max_turns (session_after 6) = 100%nat
  /\ (turn (session_after 6)
      <= length (neurons (game_grid (session_after 6))))%nat
  /\ (length (neurons (game_grid (session_after 6))) <= 361)%nat.
Proof.
  apply (turn_counter_is_bounded_by_the_grid simple_cycles_unsupported).
  apply session_after_reachable.
Defined.

(** X9. Nothing feeds the network: in every session that can be reached
    every activation and every memory state is zero, and a simulation step
    leaves the grid exactly as it is. *)
Theorem reachable_sessions_are_quiescent
        (simple_cycles : Graph -> option (list (list nat)))
        (g : ConsciousnessEmergenceGame) :
  reachable simple_cycles g ->
  Forall (fun n => activation n = 0 /\ memory_state n = 0)
         (neurons (game_grid g))
  /\ simulate_step (game_grid g) = game_grid g.
Proof.
  intros Hr. destruct (reachable_inv _ _ Hr) as [Hinv _].
  pose proof (inv_quiescent _ _ Hinv) as Hq.
  split; [exact Hq | now apply simulate_step_quiescent].
Qed.

Lemma reachable_sessions_are_quiescent_witness :
  Forall (fun n => activation n = 0 /\ memory_state n = 0)
         (neurons (game_grid (session_after 6)))
  /\ simulate_step (game_grid (session_after 6))
     = game_grid (session_after 6).
Proof.
  apply (reachable_sessions_are_quiescent simple_cycles_unsupported).
  apply session_after_reachable.
Defined.

(** ** The activation engine on any grid *)

Lemma tanh_range (a : R) : -1 < tanh a < 1.
Proof.
  pose proof (cosh_pos a) as Hc.
  assert (Hlo : - cosh a < sinh a)
    by (unfold cosh, sinh; pose proof (exp_pos a); lra).
  assert (Hhi : sinh a < cosh a)
    by (unfold cosh, sinh; pose proof (exp_pos (- a)); lra).
  unfold tanh. split.
  - apply Rmult_lt_reg_r with (cosh a); [exact Hc |].
    unfold Rdiv. rewrite Rmult_assoc, Rinv_l; lra.
  - apply Rmult_lt_reg_r with (cosh a); [exact Hc |].
    unfold Rdiv. rewrite Rmult_assoc, Rinv_l; lra.
Qed.

Lemma Forall2_map_r {A B} (P : A -> B -> Prop) (f : A -> B) (l : list A) :
  (forall a, In a l -> P a (f a)) -> Forall2 P l (map f l).
Proof.
  induction l as [| a l IH]; intros H; simpl; constructor.
  - apply H. now left.
  - apply IH. intros b Hb. apply H. now right.
Qed.

(** X11. After a step, on any grid, the activation of every neuron that is
    not an oscillator lies between -1 and 1, bounds included; the
    activation of an oscillator is at most, in absolute value, the weighted
    input it received; the memory state of a [MEMORY] neuron is nine tenths
    of the old one plus a tenth of the input. *)
Theorem simulate_step_activation_range (g : ConsciousnessGrid) :
  Forall2 (fun n n' =>
             match type n with
             | OSCILLATOR =>
                 Rabs (activation n') <= Rabs (input_sum (neurons g) n)
             | MEMORY =>
                 -1 <= activation n' <= 1
                 /\ memory_state n'
                    = 0.9 * memory_state n + 0.1 * input_sum (neurons g) n
             | _ => -1 <= activation n' <= 1
             end)
          (neurons g) (neurons (simulate_step g)).
Proof.
  assert (Htanh : forall a, -1 <= tanh a <= 1)
    by (intros a; pose proof (tanh_range a); lra).
  unfold simulate_step. simpl. apply Forall2_map_r. intros n _.
  unfold step_neuron. destruct (type n); simpl;
    try apply Htanh.
  - split; [apply Htanh | reflexivity].
  - rewrite Rabs_mult.
    pose proof (SIN_bound (Rmod (consciousness_level g * 2 * PI) (2 * PI)))
      as Hs.
    assert (Hsin : Rabs (sin (Rmod (consciousness_level g * 2 * PI)
                                   (2 * PI))) <= 1)
      by (apply Rabs_le; lra).
    pose proof (Rabs_pos (input_sum (neurons g) n)). nra.
Qed.

(** The coupling weight. *)
Lemma weight_range (n c : Neuron) : 0 < weight n c <= 1.
Proof.
  unfold weight.
  pose proof (Rabs_pos (processing_power n - processing_power c)) as Ha.
  set (d := Rabs (processing_power n - processing_power c)) in *.
  assert (Hd : 0 < 1 + d) by lra.
  split.
  - apply Rdiv_lt_0_compat; lra.
  - apply Rmult_le_reg_r with (1 + d); [exact Hd |].
    unfold Rdiv. rewrite Rmult_assoc, Rinv_l; lra.
Qed.

Lemma Rsum_abs_bound (b : R) (l : list R) :
  Forall (fun a => Rabs a <= b) l -> Rabs (Rsum l) <= b * INR (length l).
Proof.
  induction 1 as [| a l Ha _ IH].
  - simpl. rewrite Rabs_R0. lra.
  - cbn [Rsum fold_right length]. fold (Rsum l). rewrite S_INR.
    pose proof (Rabs_triang a (Rsum l)). lra.
Qed.

(** X12. The weight of a connection lies in [(0, 1]] and is the same in
    both directions; so, when every activation of the registry is at most
    [b] in absolute value, the input a neuron collects is at most [b] times
    the number of its connections. *)
Theorem input_sum_is_bounded_by_the_degree (ns : list Neuron) (n : Neuron)
        (b : R) :
  Forall (fun c => Rabs (activation c) <= b) ns ->
  0 <= b ->
  (forall c, 0 < weight n c <= 1 /\ weight n c = weight c n)
  /\ Rabs (input_sum ns n) <= b * INR (length (connections n)).
Proof.
  intros Hb Hb0. split.
  - intros c. split; [apply weight_range |].
    unfold weight. now rewrite Rabs_minus_sym.
  - unfold input_sum.
    rewrite <- (length_map
                  (fun conn_id =>
                     match nth_error ns conn_id with
                     | Some c => activation c * weight n c
                     | None => 0
                     end) (connections n)).
    apply Rsum_abs_bound. rewrite Forall_map. apply Forall_forall.
    intros k _. destruct (nth_error ns k) as [c |] eqn:E.
    + apply nth_error_In in E. rewrite Forall_forall in Hb.
      specialize (Hb _ E). pose proof (weight_range n c) as Hw.
      rewrite Rabs_mult, (Rabs_right (weight n c)) by lra.
      pose proof (Rabs_pos (activation c)). nra.
    + rewrite Rabs_R0. exact Hb0.
Qed.

Lemma input_sum_is_bounded_by_the_degree_witness :
  Rabs (input_sum [mkNeuron 0 0 0 SENSOR 2 [1%nat] (-1) 0;
                   mkNeuron 1 1 0 MEMORY 9 [0%nat] (1 / 2) 0]
                  (mkNeuron 0 0 0 SENSOR 2 [1%nat] (-1) 0))
  <= 1 * INR 1.
Proof.
  apply (input_sum_is_bounded_by_the_degree
           [mkNeuron 0 0 0 SENSOR 2 [1%nat] (-1) 0;
            mkNeuron 1 1 0 MEMORY 9 [0%nat] (1 / 2) 0]
           (mkNeuron 0 0 0 SENSOR 2 [1%nat] (-1) 0) 1).
  - constructor; [simpl; apply Rabs_le; lra |].
    constructor; [simpl; apply Rabs_le; lra | constructor].
  - lra.
Defined.

(** ** The detector and the scorer on any grid *)

Lemma Rsum_lower (lo : R) (l : list R) :
  Forall (fun a => lo <= a) l -> lo * INR (length l) <= Rsum l.
Proof.
  induction 1 as [| a l Ha _ IH].
  - simpl. lra.
  - cbn [Rsum fold_right length]. fold (Rsum l). rewrite S_INR. lra.
Qed.

Lemma mean_lower (lo : R) (l : list R) :
  l <> [] -> Forall (fun a => lo <= a) l -> lo <= mean l.
Proof.
  intros Hne Hall. unfold mean.
  pose proof (INR_length_pos l Hne) as Hpos.
  pose proof (Rsum_lower _ _ Hall) as Hlo.
  apply Rmult_le_reg_r with (INR (length l)); [lra |].
  unfold Rdiv. rewrite Rmult_assoc, Rinv_l; lra.
Qed.

Lemma loop_patterns_strength (ns : list Neuron) (cycles : list (list nat)) :
  Forall (fun p =>
            p_type p = Loop /\ 0.5 < p_strength p
            /\ (3 <= length (p_nodes p))%nat)
         (loop_patterns ns cycles).
Proof.
  induction cycles as [| cycle rest IH]; cbn [loop_patterns];
    [constructor |].
  destruct (Nat.leb_spec 3 (length cycle)) as [H3 | _]; [| exact IH].
  destruct (cycle_activations ns cycle) as [acts |]; [| constructor].
  destruct (Rltb 0.5 (Rsum acts / INR (length cycle))) eqn:E; [| exact IH].
  apply Rltb_true in E. constructor; [| exact IH]. simpl. auto.
Qed.

Lemma hierarchy_patterns_strength (g : ConsciousnessGrid) :
  Forall (fun p =>
            p_type p = Hierarchy /\ 0.1 <= p_strength p <= 1
            /\ (2 <= length (p_nodes p))%nat
            /\ (10 < length (neurons g))%nat)
         (hierarchy_patterns g).
Proof.
  unfold hierarchy_patterns.
  destruct (Nat.ltb_spec 10 (length (neurons g))) as [H10 | _];
    [| constructor].
  set (hubs := filter _ _).
  destruct (Nat.leb_spec 2 (length hubs)) as [H2 | _]; [| constructor].
  constructor; [| constructor]. simpl.
  assert (Hne : map snd hubs <> [])
    by (destruct hubs; simpl in *; [lia | discriminate]).
  split; [reflexivity |]. split; [| split; [now rewrite length_map | exact H10]].
  split.
  - apply mean_lower; [exact Hne |].
    rewrite Forall_map. apply Forall_forall. intros nc Hnc.
    apply filter_In in Hnc as [_ Hlt]. apply Rltb_true in Hlt. lra.
  - apply (mean_bounds 0 1); [exact Hne |].
    rewrite Forall_map. apply Forall_forall. intros nc Hnc.
    apply filter_In in Hnc as [Hnc _].
    now apply betweenness_centrality_range in Hnc.
Qed.

Lemma attractor_patterns_strength (g : ConsciousnessGrid) :
  Forall (fun p =>
            p_type p = StrangeAttractor /\ 0.8 < p_strength p <= 1
            /\ p_nodes p = seq 0 (length (neurons g))
            /\ (5 < length (neurons g))%nat)
         (attractor_patterns g).
Proof.
  unfold attractor_patterns. rewrite length_map.
  destruct (Nat.ltb_spec 5 (length (neurons g))) as [H5 | _];
    [| constructor].
  set (v := variance (map activation (neurons g))).
  destruct (Rltb 0.1 v) eqn:E1; [| constructor].
  destruct (Rltb v 0.5) eqn:E2; [| constructor].
  apply Rltb_true in E1, E2.
  constructor; [| constructor]. simpl.
  repeat split; auto.
  - unfold Rabs. destruct (Rcase_abs (v - 0.3)); lra.
  - pose proof (Rabs_pos (v - 0.3)). lra.
Qed.

Lemma detected_patterns_are_strong_aux
      (simple_cycles : Graph -> option (list (list nat)))
      (g : ConsciousnessGrid) :
  Forall (fun p => 0.1 <= p_strength p)
         (detect_consciousness_patterns simple_cycles g).
Proof.
  unfold detect_consciousness_patterns. repeat rewrite Forall_app.
  repeat split.
  - destruct (simple_cycles (network g)); [| constructor].
    eapply Forall_impl; [| apply loop_patterns_strength].
    intros p (_ & Hs & _). lra.
  - eapply Forall_impl; [| apply hierarchy_patterns_strength].
    intros p (_ & Hs & _). lra.
  - eapply Forall_impl; [| apply attractor_patterns_strength].
    intros p (_ & Hs & _). lra.
Qed.

(** X13. What the detector returns, on any grid and whatever cycles
    networkx lists: a loop pattern has at least three nodes and a strength
    above 0.5; the hierarchy pattern needs more than ten neurons, has at
    least two hubs and a strength in [[0.1, 1]]; the strange-attractor
    pattern needs more than five neurons, names every neuron and has a
    strength in [(0.8, 1]]. Every strength is at least 0.1. *)
Theorem detected_patterns_are_strong
        (simple_cycles : Graph -> option (list (list nat)))
        (g : ConsciousnessGrid) :
  Forall (fun p =>
            0.1 <= p_strength p
            /\ match p_type p with
               | Loop => 0.5 < p_strength p /\ (3 <= length (p_nodes p))%nat
               | Synchronization => False
               | Hierarchy =>
                   p_strength p <= 1 /\ (2 <= length (p_nodes p))%nat
                   /\ (10 < length (neurons g))%nat
               | StrangeAttractor =>
                   0.8 < p_strength p <= 1
                   /\ p_nodes p = seq 0 (length (neurons g))
                   /\ (5 < length (neurons g))%nat
               end)
         (detect_consciousness_patterns simple_cycles g).
Proof.
  unfold detect_consciousness_patterns. repeat rewrite Forall_app.
  repeat split.
  - destruct (simple_cycles (network g)); [| constructor].
    eapply Forall_impl; [| apply loop_patterns_strength].
    intros p (-> & Hs & Hn). split; [lra | auto].
  - eapply Forall_impl; [| apply hierarchy_patterns_strength].
    intros p (-> & Hs & Hn & H10). split; [lra |]. repeat split; auto; lra.
  - eapply Forall_impl; [| apply attractor_patterns_strength].
    intros p (-> & Hs & Hn & H5). split; [lra | auto].
Qed.

(** X14. The scorer on any grid, whatever cycles networkx lists. With
    fewer than five neurons it returns 0 and stores nothing. From five on
    it either raises the [ZeroDivisionError] of the clustering of a graph
    without nodes, leaving the grid as it was, or returns a score that is
    not negative and stores it, with the patterns just detected; the
    cells, the registry and the graph are never changed. *)
Theorem calculate_consciousness_level_total
        (simple_cycles : Graph -> option (list (list nat)))
        (g : ConsciousnessGrid) :
  match calculate_consciousness_level simple_cycles g with
  | (g', Return level) =>
      0 <= level
      /\ grid g' = grid g /\ neurons g' = neurons g /\ network g' = network g
      /\ if (length (neurons g) <? 5)%nat
         then level = 0 /\ g' = g
         else consciousness_level g' = level
              /\ emergence_patterns g'
                 = detect_consciousness_patterns simple_cycles g
  | (g', Raise e) =>
      e = ZeroDivisionError /\ g' = g
      /\ number_of_nodes (network g) = 0%nat
      /\ (5 <= length (neurons g))%nat
  end.
Proof.
  unfold calculate_consciousness_level.
  destruct (Nat.ltb_spec (length (neurons g)) 5) as [Hlt | Hge].
  - repeat split; auto. lra.
  - replace (1 <? length (neurons g))%nat with true
      by (symmetry; apply Nat.ltb_lt; lia).
    destruct (average_clustering (network g)) as [c |] eqn:Hc.
    + pose proof (average_clustering_range _ _ Hc) as Hcr.
      cbn [consciousness_level emergence_patterns grid neurons network].
      repeat split; auto.
      pose proof (detected_patterns_are_strong_aux simple_cycles g) as Hp.
      set (patterns := detect_consciousness_patterns simple_cycles g) in *.
      assert (Hcomplex : 0 <= Rmin 1 (INR (length (neurons g)) / 50)).
      { apply Rmin_glb; [lra |].
        pose proof (pos_INR (length (neurons g))). unfold Rdiv. lra. }
      assert (Hdiv : 0 <= INR (length (nodup PatternType_eq_dec
                                             (map p_type patterns))))
        by apply pos_INR.
      assert (Hstr : 0 <= match patterns with
                          | [] => 0
                          | _ :: _ => mean (map p_strength patterns) * 0.3
                          end).
      { destruct patterns as [| p ps] eqn:E; [lra |].
        assert (0.1 <= mean (map p_strength (p :: ps))); [| lra].
        apply mean_lower; [discriminate |].
        rewrite Forall_map. exact Hp. }
      lra.
    + repeat split; auto.
      unfold average_clustering in Hc.
      destruct (node_ids (network g)) eqn:E; [| discriminate].
      unfold number_of_nodes. now rewrite (node_ids_nil _ E).
Qed.

(** ** The graph mirrors the registry *)

Local Close Scope R_scope.

Lemma has_node_In (g : Graph) (n : nat) :
  has_node g n = true <-> In n (map fst (g_node g)).
Proof.
  unfold has_node. rewrite existsb_exists, in_map_iff. split.
  - intros (e & He & Heq). apply Nat.eqb_eq in Heq. eauto.
  - intros (e & Heq & He). exists e. split; [exact He |].
    now apply Nat.eqb_eq.
Qed.

Lemma touch_node_idem (g : Graph) (n : nat) :
  has_node g n = true -> touch_node g n = g.
Proof. intros H. unfold touch_node. now rewrite H. Qed.

Lemma has_node_touch_node_self (g : Graph) (n : nat) :
  has_node (touch_node g n) n = true.
Proof.
  unfold touch_node. destruct (has_node g n) eqn:E; [exact E |].
  unfold has_node. simpl. rewrite existsb_app. simpl.
  rewrite Nat.eqb_refl. apply orb_true_r.
Qed.

Lemma has_edge_false (g : Graph) (u v : nat) :
  (forall e, In e (g_edges g) -> same_edge u v e = false) ->
  has_edge g u v = false.
Proof.
  intros H. unfold has_edge.
  destruct (existsb (same_edge u v) (g_edges g)) eqn:E; [| reflexivity].
  apply existsb_exists in E as (e & He & Hs). rewrite (H _ He) in Hs.
  discriminate.
Qed.

(** A new edge from [u] to an existing node [v]. *)
Lemma add_edge_fresh (g : Graph) (u v : nat) :
  has_node g v = true ->
  (forall e, In e (g_edges g) -> same_edge u v e = false) ->
  add_edge g u v
  = mkGraph (g_node (touch_node g u)) (g_edges g ++ [(u, v)]).
Proof.
  intros Hv Hfresh. unfold add_edge.
  rewrite (touch_node_idem (touch_node g u) v)
    by now apply has_node_touch_node.
  rewrite has_edge_false; [now rewrite g_edges_touch_node |].
  now rewrite g_edges_touch_node.
Qed.

Lemma total_degree_cons (n : Neuron) (l : list Neuron) :
  total_degree (n :: l) = length (connections n) + total_degree l.
Proof. reflexivity. Qed.

Lemma total_degree_app (l1 l2 : list Neuron) :
  total_degree (l1 ++ l2) = total_degree l1 + total_degree l2.
Proof. unfold total_degree. now rewrite map_app, list_sum_app. Qed.

(** The nodes and edges the loop adds, and the connections it stores. *)
Lemma auto_connect_graph (ns : list Neuron) :
  forall neuron net made nid nw ns' net',
    auto_connect neuron net made nid ns = (nw, ns', net') ->
    nid + length ns <= id neuron ->
    (forall k, nid <= k < nid + length ns -> has_node net k = true) ->
    (forall e k, In e (g_edges net) -> nid <= k ->
                 same_edge (id neuron) k e = false) ->
    exists added,
      connections nw = connections neuron ++ added
      /\ g_edges net' = g_edges net ++ map (pair (id neuron)) added
      /\ g_node net'
         = (match added with
            | [] => g_node net
            | _ => g_node (touch_node net (id neuron))
            end)
      /\ total_degree ns' = total_degree ns + length added.
Proof.
  induction ns as [| n rest IH];
    intros neuron net made nid nw ns' net' H Hid Hnodes Hedges.
  - simpl in H. injection H as <- <- <-. exists [].
    simpl. rewrite !app_nil_r. auto.
  - cbn [auto_connect] in H. cbn [length] in Hid.
    destruct (can_connect neuron n && (made <? 4)) eqn:E.
    + destruct (auto_connect
                  (with_connections neuron (connections neuron ++ [nid]))
                  (add_edge net (id neuron) nid) (S made) (S nid) rest)
        as [[nw1 rest1] net1] eqn:Erec.
      injection H as <- <- <-.
      assert (Hadd : add_edge net (id neuron) nid
                     = mkGraph (g_node (touch_node net (id neuron)))
                               (g_edges net ++ [(id neuron, nid)])).
      { apply add_edge_fresh.
        - apply Hnodes. simpl. lia.
        - intros e He. now apply Hedges. }
      rewrite Hadd in Erec.
      apply IH in Erec as (added & Hc & He & Hn & Hd).
      * exists (nid :: added). cbn [connections with_connections] in Hc.
        cbn [id with_connections g_edges g_node] in He, Hn.
        split; [rewrite Hc, <- app_assoc; reflexivity |].
        split; [rewrite He, <- app_assoc; reflexivity |].
        split.
        -- rewrite Hn. destruct added; [reflexivity |].
           rewrite touch_node_idem; [reflexivity |].
           apply (has_node_touch_node_self net (id neuron)).
        -- rewrite !total_degree_cons, Hd.
           cbn [connections with_connections length].
           rewrite length_app. simpl. lia.
      * simpl. lia.
      * intros k Hk. unfold has_node. cbn [g_node].
        apply has_node_touch_node. apply Hnodes. simpl. lia.
      * intros e k He Hk. cbn [g_edges id with_connections] in *.
        apply in_app_or in He as [He | [<- | []]].
        -- apply Hedges; [exact He | lia].
        -- unfold same_edge. simpl.
           replace (nid =? k) with false by (symmetry; apply Nat.eqb_neq; lia).
           replace (nid =? id neuron) with false
             by (symmetry; apply Nat.eqb_neq; lia).
           now rewrite !andb_false_r.
    + destruct (auto_connect neuron net made (S nid) rest)
        as [[nw1 rest1] net1] eqn:Erec.
      injection H as <- <- <-.
      apply IH in Erec as (added & Hc & He & Hn & Hd).
      * exists added. repeat split; auto.
        rewrite !total_degree_cons, Hd. lia.
      * lia.
      * intros k Hk. apply Hnodes. simpl. lia.
      * intros e k He Hk. apply Hedges; [exact He | lia].
Qed.

Lemma g_edges_add_node (g : Graph) (n : nat) (p : string) :
  g_edges (add_node g n p) = g_edges g.
Proof. unfold add_node. now destruct (has_node g n). Qed.

Lemma map_update_absent (n : nat) (p : string)
      (l : list (nat * option string)) :
  ~ In n (map fst l) ->
  map (fun e => if fst e =? n then (n, Some p) else e) l = l.
Proof.
  induction l as [| e l IH]; simpl; intros H; [reflexivity |].
  destruct (Nat.eqb_spec (fst e) n) as [Heq | _]; [tauto |].
  f_equal. apply IH. tauto.
Qed.

Lemma existsb_absent (n : nat) (l : list (nat * option string)) :
  ~ In n (map fst l) -> existsb (fun e => fst e =? n) l = false.
Proof.
  intros H. destruct (existsb (fun e => fst e =? n) l) eqn:E;
    [| reflexivity].
  apply existsb_exists in E as (e & He & Heq). apply Nat.eqb_eq in Heq.
  exfalso. apply H. apply in_map_iff. eauto.
Qed.

(** [add_node] after the loop: the node of the new neuron ends up last,
    with its player, whether the loop created it or not. *)
Lemma add_node_after_loop (h : Graph) (base : list (nat * option string))
      (n : nat) (p : string) :
  ~ In n (map fst base) ->
  g_node h = base \/ g_node h = base ++ [(n, None)] ->
  g_node (add_node h n p) = base ++ [(n, Some p)].
Proof.
  intros Habs [Hh | Hh]; unfold add_node, has_node; rewrite Hh.
  - now rewrite existsb_absent.
  - rewrite existsb_app. simpl. rewrite Nat.eqb_refl, orb_true_r. simpl.
    rewrite map_app, map_update_absent by exact Habs.
    simpl. now rewrite Nat.eqb_refl.
Qed.

Lemma seq_not_in (n : nat) : ~ In n (seq 0 n).
Proof. rewrite in_seq. lia. Qed.

Lemma new_grid_graph_inv (sz : nat) : graph_inv (new_grid sz).
Proof.
  constructor; simpl.
  - reflexivity.
  - constructor.
  - intros u v [].
  - reflexivity.
  - intros [| k] n; discriminate.
Qed.

Lemma place_neuron_graph_inv (sz : nat) (g : ConsciousnessGrid) (px py : Z)
      (t : NeuronType) (p : R) (pl : string) :
  grid_inv sz g -> graph_inv g ->
  graph_inv (fst (place_neuron g px py t p pl)).
Proof.
  intros Hinv Hgi.
  destruct (place_neuron g px py t p pl) as [g' o] eqn:E. simpl.
  destruct o as [[nw |] | e];
    try (erewrite (place_neuron_no_placement _ _ _ _ _ _ _ _ E);
         [exact Hgi | congruence]).
  pose proof (place_neuron_registry _ _ _ _ _ _ _ _ E)
    as (added & Hnw & _ & Hrange & _ & Hlen & Hnew & Hold & _).
  pose proof (place_neuron_registry_inv g g' nw added Hlen Hnew Hold)
    as Hcases.
  apply place_neuron_success
    in E as (row & r & c & ns' & net' & _ & _ & _ & _ & Hauto & Hg').
  destruct Hgi as [Gnodes Gplayers Gedges Gcount Gself].
  set (n := length (neurons g)) in *.
  apply auto_connect_graph in Hauto as (added' & Hc & He & Hn & Hd).
  2:{ simpl. lia. }
  2:{ intros k Hk. apply (inv_nodes _ _ Hinv). simpl in Hk. lia. }
  2:{ intros [u v] k Hin _. destruct (Gedges _ _ Hin) as [Huv _].
      unfold same_edge. simpl.
      replace (u =? n) with false by (symmetry; apply Nat.eqb_neq; lia).
      replace (v =? n) with false by (symmetry; apply Nat.eqb_neq; lia).
      now rewrite andb_false_r. }
  simpl in Hc, He. rewrite Hnw in Hc. simpl in Hc. subst added'.
  assert (Habs : ~ In n (map fst (g_node (network g))))
    by (rewrite Gnodes; apply seq_not_in).
  assert (Hnode : g_node (network g')
                  = g_node (network g) ++ [(n, Some pl)]).
  { rewrite Hg'. cbn [network]. apply add_node_after_loop; [exact Habs |].
    rewrite Hn. destruct added; [now left | right].
    unfold touch_node. simpl id.
    replace (has_node (network g) n) with false; [reflexivity |].
    symmetry. unfold has_node. now apply existsb_absent. }
  assert (Hedge : g_edges (network g')
                  = g_edges (network g) ++ map (pair n) added).
  { rewrite Hg'. cbn [network]. now rewrite g_edges_add_node, He. }
  assert (Hneurons : neurons g' = ns' ++ [nw]) by (rewrite Hg'; reflexivity).
  constructor.
  - rewrite Hnode, Hlen, map_app, Gnodes, seq_S. reflexivity.
  - rewrite Hnode. apply Forall_app. split; [exact Gplayers |].
    constructor; [discriminate | constructor].
  - intros u v Hin. rewrite Hedge in Hin. rewrite Hlen.
    apply in_app_or in Hin as [Hin | Hin].
    + destruct (Gedges _ _ Hin) as [Huv (nu & Hnu & Hv)].
      split; [lia |]. eexists. split; [apply (Hold _ _ Hnu) |].
      destruct (linked added u); simpl; [apply in_or_app; now left | auto].
    + apply in_map_iff in Hin as (c0 & [= <- <-] & Hc0).
      specialize (Hrange _ Hc0). split; [fold n in Hrange; lia |].
      exists nw. split; [exact Hnew |]. rewrite Hnw. exact Hc0.
  - rewrite Hedge, Hneurons, length_app, length_map, total_degree_app, Hd.
    rewrite total_degree_cons. change (total_degree []) with 0.
    rewrite Hnw. cbn [connections]. lia.
  - intros k m' Hk.
    destruct (Hcases _ _ Hk) as [[-> ->] | (m & Hm & ->)].
    + rewrite Hnw. simpl. intros Hin. specialize (Hrange _ Hin). lia.
    + assert (Hkn : k < n)
        by (apply nth_error_Some; congruence).
      specialize (Gself _ _ Hm).
      destruct (linked added k); simpl; [| exact Gself].
      intros Hin. apply in_app_or in Hin as [Hin | [Heq | []]];
        [tauto | fold n in Heq; lia].
Qed.

Lemma reachable_grid_graph_inv
      (simple_cycles : Graph -> option (list (list nat))) (sz : nat)
      (g : ConsciousnessGrid) :
  reachable_grid simple_cycles sz g -> graph_inv g.
Proof.
  induction 1 as [| g px py t p pl Hr IH | g Hr IH | g Hr IH].
  - apply new_grid_graph_inv.
  - apply (place_neuron_graph_inv sz); [| exact IH].
    now apply (reachable_grid_inv simple_cycles).
  - rewrite simulate_step_quiescent; [exact IH |].
    apply (inv_quiescent sz), (reachable_grid_inv simple_cycles), Hr.
  - apply (reachable_grid_inv simple_cycles) in Hr.
    destruct (calculate_inv simple_cycles sz g Hr)
      as (level & g' & -> & _ & Hg').
    simpl. destruct (length (neurons g) <? 5).
    + destruct Hg' as [-> _]. exact IH.
    + subst g'. destruct IH. constructor; simpl; auto.
Qed.

(** X15. On a grid that can be reached the graph mirrors the registry: it
    has one node per neuron, each with a player; an edge joins [a] and [b]
    exactly when [b] is in the connections of [a]; the number of edges is
    half the number of stored connections; no neuron is connected to
    itself. *)
Theorem graph_mirrors_the_registry
        (simple_cycles : Graph -> option (list (list nat))) (sz : nat)
        (g : ConsciousnessGrid) :
  reachable_grid simple_cycles sz g ->
  map fst (g_node (network g)) = seq 0 (length (neurons g))
  /\ Forall (fun e => snd e <> None) (g_node (network g))
  /\ (forall a b,
         has_edge (network g) a b = true
         <-> exists na, nth_error (neurons g) a = Some na
                        /\ In b (connections na))
  /\ 2 * number_of_edges (network g) = total_degree (neurons g)
  /\ (forall k n, nth_error (neurons g) k = Some n ->
                  ~ In k (connections n)).
Proof.
  intros Hr.
  pose proof (reachable_grid_inv _ _ _ Hr) as Hinv.
  pose proof (reachable_grid_graph_inv _ _ _ Hr)
    as [Gnodes Gplayers Gedges Gcount Gself].
  split; [exact Gnodes |]. split; [exact Gplayers |].
  split; [| split; [exact Gcount | exact Gself]].
  intros a b. split.
  - unfold has_edge. rewrite existsb_exists.
    intros ([u v] & Hin & Hsame). unfold same_edge in Hsame. simpl in Hsame.
    destruct (Gedges _ _ Hin) as [_ (nu & Hnu & Hv)].
    apply orb_prop in Hsame as [Hs | Hs];
      apply andb_prop in Hs as [H1 H2];
      apply Nat.eqb_eq in H1, H2; subst.
    + eauto.
    + destruct (inv_sym _ _ Hinv _ _ _ Hnu Hv) as (na & Hna & Hb & _). eauto.
  - intros (na & Hna & Hb).
    now destruct (inv_sym _ _ Hinv _ _ _ Hna Hb) as (_ & _ & _ & He).
Qed.

Lemma graph_mirrors_the_registry_witness :
  map fst (g_node (network (placed_in_row 6))) = seq 0 6
  /\ 2 * number_of_edges (network (placed_in_row 6))
     = total_degree (neurons (placed_in_row 6)).
Proof.
  destruct (graph_mirrors_the_registry
              simple_cycles_unsupported 19 (placed_in_row 6)
              (placed_in_row_reachable simple_cycles_unsupported 6))
    as (H1 & _ & _ & H2 & _).
  split; [exact H1 | exact H2].
Defined.

(** ** The state export *)

Lemma grid_state_ones (row : list (option nat)) :
  list_sum (map (fun cell : option nat =>
                   match cell with Some _ => 1 | None => 0 end) row)
  = occupied_row row.
Proof.
  unfold occupied_row. induction row as [| [k |] row IH]; simpl; auto.
Qed.

Lemma length_items (ns : list Neuron) : length (items ns) = length ns.
Proof.
  unfold items. rewrite length_combine, length_seq. apply Nat.min_id.
Qed.

Lemma map_fst_items (ns : list Neuron) :
  map fst (items ns) = seq 0 (length ns).
Proof.
  unfold items. generalize 0.
  induction ns as [| n ns IH]; intros k; simpl; [reflexivity |].
  now rewrite IH.
Qed.

Lemma reachable_graph_inv
      (simple_cycles : Graph -> option (list (list nat)))
      (g : ConsciousnessEmergenceGame) :
  reachable simple_cycles g -> graph_inv (game_grid g).
Proof.
  induction 1 as [| g pid ptype Hr IH | g pid m Hr IH].
  - apply new_grid_graph_inv.
  - exact IH.
  - destruct (reachable_inv _ _ Hr) as [Hinv0 Hw0].
    assert (Hty : truthy (winner g) = None) by now rewrite Hw0.
    destruct (NeuronType_of_name (upper (move_type m))) as [t |] eqn:Ht;
      [| now rewrite play_turn_unknown_type].
    destruct (place_neuron (game_grid g) (move_x m) (move_y m) t
                           (get_processing_power m) pid)
      as [gr o] eqn:Hp.
    assert (Hgr : graph_inv gr).
    { replace gr with (fst (place_neuron (game_grid g) (move_x m)
                                         (move_y m) t
                                         (get_processing_power m) pid))
        by now rewrite Hp.
      now apply (place_neuron_graph_inv 19). }
    destruct o as [[nw |] | e];
      try (rewrite (play_turn_not_placed simple_cycles g pid m t gr _
                                         Hty Ht Hp) by congruence;
           exact IH).
    destruct (dict_get (players g) pid) as [info |] eqn:Hd.
    + destruct (play_turn_continue simple_cycles 19 g pid m t gr nw info
                                   Hinv0 Hty Ht Hp Hd)
        as (level & gr6 & -> & _ & _ & Hgr6).
      simpl. destruct (length (neurons gr) <? 5).
      * now destruct Hgr6 as [-> _].
      * subst gr6. destruct Hgr. constructor; simpl; auto.
    + now rewrite (play_turn_unregistered simple_cycles g pid m t gr nw
                                          Hty Ht Hp Hd).
Qed.

Lemma exported_degree (ns : list Neuron) :
  map (fun e : nat * Neuron =>
         length (ex_connections (export_neuron (snd e)))) (items ns)
  = map (fun n => length (connections n)) ns.
Proof.
  unfold items. generalize 0.
  induction ns as [| n ns IH]; intros k; simpl; [reflexivity |].
  now rewrite IH.
Qed.

(** X16. The export of a session that can be reached is consistent with
    itself: the neurons carry the keys [0 .. n-1] in order; the node count
    of the statistics and the number of 1s in the occupancy matrix are both
    the number of neurons; twice the edge count is the number of exported
    connections; every exported activation is 0; the level is in
    [[0, 0.775]] and the clustering in [[0, 1]]. *)
Theorem export_is_consistent
        (simple_cycles : Graph -> option (list (list nat)))
        (g : ConsciousnessEmergenceGame) :
  reachable simple_cycles g ->
  let s := get_game_state g in
  map fst (st_neurons s) = seq 0 (length (st_neurons s))
  /\ stat_nodes (network_stats s) = length (st_neurons s)
  /\ list_sum (map (@list_sum) (grid_state s)) = length (st_neurons s)
  /\ 2 * stat_edges (network_stats s)
     = list_sum (map (fun e => length (ex_connections (snd e)))
                     (st_neurons s))
  /\ Forall (fun e => ex_activation (snd e) = 0%R) (st_neurons s)
  /\ (0 <= st_consciousness_level s <= 0.775)%R
  /\ (0 <= stat_clustering (network_stats s) <= 1)%R.
Proof.
  intros Hr s.
  destruct (reachable_inv _ _ Hr) as [Hinv _].
  pose proof (reachable_graph_inv _ _ Hr) as Hgi.
  destruct Hgi as [Gnodes _ _ Gcount _].
  subst s. unfold get_game_state.
  cbn [st_neurons network_stats grid_state stat_nodes stat_edges
       stat_clustering st_consciousness_level].
  rewrite !length_map, length_items, !map_map.
  cbn [fst snd].
  split; [apply map_fst_items |].
  split.
  { unfold number_of_nodes.
    rewrite <- (length_map fst (g_node (network (game_grid g)))), Gnodes.
    apply length_seq. }
  split.
  { rewrite <- (inv_occupied _ _ Hinv). unfold occupied. f_equal.
    apply map_ext. intros row. apply grid_state_ones. }
  split.
  { unfold number_of_edges. rewrite Gcount. unfold total_degree.
    now rewrite exported_degree. }
  split.
  { rewrite Forall_map. apply Forall_forall. intros e He.
    apply items_In in He. pose proof (inv_quiescent _ _ Hinv) as Hq.
    unfold quiescent in Hq. rewrite Forall_forall in Hq.
    now destruct (Hq _ He). }
  split; [apply (inv_level _ _ Hinv) |].
  destruct (0 <? number_of_nodes (network (game_grid g))); [| lra].
  destruct (average_clustering (network (game_grid g))) as [c |] eqn:Hc;
    [| lra].
  now apply average_clustering_range in Hc.
Qed.

Lemma export_is_consistent_witness :
  stat_nodes (network_stats (get_game_state (session_after 6)))
  = length (st_neurons (get_game_state (session_after 6))).
Proof.
  exact (proj1 (proj2 (export_is_consistent
                         simple_cycles_unsupported (session_after 6)
                         (session_after_reachable 6)))).
Defined.

(** ** The collective strategy *)

(** X17. [collective_move] never returns a move. Without models the
    consensus indexes an empty list of proposals; with at least one, the
    first model is dispatched to [_find_loop_position], a method that does
    not exist. The game state plays no part. *)
Theorem collective_move_never_returns (num_models : Z)
        (game_state : GameState) :
  collective_move num_models game_state
  = if (num_models <=? 0)%Z
    then LookupError IndexError
    else AttributeError "_find_loop_position".
Proof.
  unfold collective_move, model_names.
  destruct (Z.leb_spec num_models 0) as [Hle | Hgt].
  - replace (Z.to_nat num_models) with 0%nat by lia. reflexivity.
  - destruct (Z.to_nat num_models) as [| k] eqn:E; [lia |]. reflexivity.
Qed.

(** X18. Whatever the model, the strategy and the game state, the only
    move [_model_propose] can return is the fixed one, a processor of power
    7 at the centre. On a session that can be reached this move, sent by a
    registered player, is played when the centre cell is empty and
    answered [invalid_move] when it is taken. *)
Theorem default_proposal_is_playable
        (simple_cycles : Graph -> option (list (list nat)))
        (g : ConsciousnessEmergenceGame) (pid model strategy : string)
        (game_state : GameState) (info : PlayerInfo) (move : Move) :
  reachable simple_cycles g ->
  dict_get (players g) pid = Some info ->
  _model_propose model strategy game_state = Proposed move ->
  move = mkMove 9 9 "processor" (Some 7%R)
  /\ match cell_at (game_grid g) 9 9 with
     | Some None =>
         exists g' level patterns,
           play_turn simple_cycles g pid move
           = (g', Return (continue level patterns (turn g + 1)))
           /\ cell_at (game_grid g') 9 9
              = Some (Some (length (neurons (game_grid g))))
     | _ =>
         play_turn simple_cycles g pid move
         = (g, Return (invalid_move "position_occupied"))
     end.
Proof.
  intros Hr Hd Hm.
  assert (Hmove : move = mkMove 9 9 "processor" (Some 7%R)).
  { unfold _model_propose in Hm.
    repeat match type of Hm with
           | (if ?b then _ else _) = _ => destruct b; [discriminate |]
           end.
    now injection Hm. }
  split; [exact Hmove |]. subst move.
  destruct (reachable_inv _ _ Hr) as [Hinv Hw].
  assert (Hty : truthy (winner g) = None) by now rewrite Hw.
  destruct (getitem_cell 19 (game_grid g) 9 9 Hinv eq_refl eq_refl)
    as (row & c & _ & _ & Hrow & _ & Hc & Hcell).
  change (wrap 19 9) with 9%Z in Hcell. rewrite Hcell.
  destruct c as [k |].
  - apply (play_turn_not_placed simple_cycles g pid _ PROCESSOR
                                (game_grid g) (Return None));
      auto; [| congruence].
    unfold place_neuron. simpl move_x. simpl move_y. now rewrite Hrow, Hc.
  - destruct (place_neuron (game_grid g) 9 9 PROCESSOR 7%R pid)
      as [gr o] eqn:Hp.
    assert (Ho : exists nw, o = Return (Some nw)).
    { unfold place_neuron in Hp. rewrite Hrow, Hc in Hp.
      destruct (auto_connect _ _ _ _ _) as [[nw ns] net].
      injection Hp as _ <-. eauto. }
    destruct Ho as (nw & ->).
    destruct (play_turn_continue simple_cycles 19 g pid
                                 (mkMove 9 9 "processor" (Some 7%R))
                                 PROCESSOR gr nw info Hinv Hty eq_refl Hp Hd)
      as (level & gr6 & Hplay & _ & _ & Hgr6).
    do 3 eexists. split; [exact Hplay |]. cbn [game_grid].
    destruct (place_neuron_cell_at _ _ _ _ _ _ _ _ _ Hinv Hp)
      as (_ & _ & _ & Hcells).
    assert (Hgrid : cell_at gr6 9 9 = cell_at gr 9 9).
    { destruct (length (neurons gr) <? 5).
      - now destruct Hgr6 as [-> _].
      - subst gr6. reflexivity. }
    rewrite Hgrid, Hcells. reflexivity.
Qed.

Lemma default_proposal_is_playable_witness :
  exists g' level patterns,
    play_turn simple_cycles_unsupported session0 "p"
              (mkMove 9 9 "processor" (Some 7%R))
    = (g', Return (continue level patterns 1))
    /\ cell_at (game_grid g') 9 9 = Some (Some 0%nat).
Proof.
  exact (proj2 (default_proposal_is_playable
                  simple_cycles_unsupported session0 "p"
                  "model_4" "fill_gaps"
                  (get_game_state session0) (mkPlayer "single" 0 false 0%R)
                  (mkMove 9 9 "processor" (Some 7%R))
                  (reach_add_player _ _ _ _ (reach_init _))
                  eq_refl eq_refl)).
Defined.

(** ** Filling the board *)

Lemma place_neuron_empty_cell (sz : nat) (g : ConsciousnessGrid) (px py : Z)
      (t : NeuronType) (p : R) (pl : string) :
  grid_inv sz g ->
  valid_index sz px = true -> valid_index sz py = true ->
  cell_at g (wrap sz px) (wrap sz py) = Some None ->
  exists gr nw, place_neuron g px py t p pl = (gr, Return (Some nw)).
Proof.
  intros Hinv Hx Hy Hcell.
  destruct (getitem_cell sz g px py Hinv Hx Hy)
    as (row & c & _ & _ & Hrow & _ & Hc & Hcell').
  rewrite Hcell in Hcell'. injection Hcell' as <-.
  unfold place_neuron. rewrite Hrow, Hc.
  destruct (auto_connect _ _ _ _ _) as [[nw ns] net]. eauto.
Qed.

Lemma wrap_nonneg (sz : nat) (i : Z) : (0 <= i)%Z -> wrap sz i = i.
Proof.
  intros H. unfold wrap. destruct (Z.ltb_spec i 0); [lia | reflexivity].
Qed.

Lemma session_filled_S
      (simple_cycles : Graph -> option (list (list nat))) (k : nat) :
  session_filled simple_cycles (S k)
  = fst (play_turn simple_cycles (session_filled simple_cycles k) "p"
                   (fill_move k)).
Proof.
  unfold session_filled. rewrite seq_S, fold_left_app. reflexivity.
Qed.

Lemma fill_index (j k : nat) :
  ((Z.of_nat (j / 19) =? Z.of_nat (k / 19))%Z
   && (Z.of_nat (j mod 19) =? Z.of_nat (k mod 19))%Z)
  = (j =? k).
Proof.
  destruct (Nat.eqb_spec j k) as [-> | Hne].
  - now rewrite !Z.eqb_refl.
  - apply andb_false_iff.
    destruct (Z.eqb_spec (Z.of_nat (j / 19)) (Z.of_nat (k / 19))) as [Hq | _];
      [| now left].
    right. apply Z.eqb_neq. intros Hr.
    apply Nat2Z.inj in Hq, Hr.
    pose proof (Nat.div_mod_eq j 19). pose proof (Nat.div_mod_eq k 19). lia.
Qed.

Lemma session_filled_inv
      (simple_cycles : Graph -> option (list (list nat))) (k : nat) :
  (k <= 361)%nat ->
  reachable simple_cycles (session_filled simple_cycles k)
  /\ turn (session_filled simple_cycles k) = k
  /\ length (neurons (game_grid (session_filled simple_cycles k))) = k
  /\ (exists info,
         dict_get (players (session_filled simple_cycles k)) "p" = Some info)
  /\ forall j, (j < 361)%nat ->
               cell_at (game_grid (session_filled simple_cycles k))
                       (Z.of_nat (j / 19)) (Z.of_nat (j mod 19))
               = if (j <? k)%nat then Some (Some j) else Some None.
Proof.
  induction k as [| k IH]; intros Hk.
  - split; [apply reach_add_player, reach_init |].
    split; [reflexivity |]. split; [reflexivity |].
    split; [eexists; reflexivity |].
    intros j Hj. change (session_filled simple_cycles 0) with session0.
    assert (Hq : (j / 19 < 19)%nat) by (apply Nat.Div0.div_lt_upper_bound; lia).
    assert (Hm : (j mod 19 < 19)%nat) by (apply Nat.mod_upper_bound; lia).
    rewrite cell_at_nth
      by (change (size (game_grid session0)) with 19%nat; lia).
    change (grid (game_grid session0)) with (repeat (repeat (@None nat) 19) 19).
    rewrite !Nat2Z.id.
    rewrite nth_error_repeat by exact Hq.
    now rewrite nth_error_repeat by exact Hm.
  - destruct IH as (Hr & Hturn & Hlen & (info & Hd) & Hcells); [lia |].
    set (g := session_filled simple_cycles k) in *.
    destruct (reachable_inv _ _ Hr) as [Hinv Hw].
    assert (Hty : truthy (winner g) = None) by now rewrite Hw.
    assert (Hq : (k / 19 < 19)%nat) by (apply Nat.Div0.div_lt_upper_bound; lia).
    assert (Hm : (k mod 19 < 19)%nat) by (apply Nat.mod_upper_bound; lia).
    assert (Hx : valid_index 19 (Z.of_nat (k / 19)) = true)
      by (apply valid_index_spec; lia).
    assert (Hy : valid_index 19 (Z.of_nat (k mod 19)) = true)
      by (apply valid_index_spec; lia).
    assert (Hempty : cell_at (game_grid g)
                             (wrap 19 (Z.of_nat (k / 19)))
                             (wrap 19 (Z.of_nat (k mod 19))) = Some None).
    { rewrite !wrap_nonneg by lia. rewrite Hcells by lia.
      now rewrite Nat.ltb_irrefl. }
    destruct (place_neuron_empty_cell 19 (game_grid g) _ _ SENSOR 5%R "p"
                                      Hinv Hx Hy Hempty) as (gr & nw & Hp).
    destruct (play_turn_continue simple_cycles 19 g "p" (fill_move k) SENSOR
                                 gr nw info Hinv Hty eq_refl Hp Hd)
      as (level & gr6 & Hplay & _ & _ & Hgr6).
    assert (Hsame : grid gr6 = grid gr /\ neurons gr6 = neurons gr
                    /\ size gr6 = size gr).
    { destruct (length (neurons gr) <? 5)%nat.
      - now destruct Hgr6 as [-> _].
      - subst gr6. auto. }
    destruct Hsame as (Hgrid & Hneurons & Hsize).
    assert (Hr' : reachable simple_cycles
                            (fst (play_turn simple_cycles g "p"
                                            (fill_move k))))
      by now apply reach_play_turn.
    rewrite session_filled_S. fold g. rewrite Hplay in Hr' |- *.
    cbn [fst turn players game_grid] in Hr' |- *.
    split; [exact Hr' |].
    split; [lia |].
    split.
    { rewrite Hneurons.
      destruct (place_neuron_registry _ _ _ _ _ _ _ _ Hp)
        as (_ & _ & _ & _ & _ & Hl & _).
      rewrite Hl. now rewrite Hlen. }
    split; [rewrite dict_get_set, String.eqb_refl; eauto |].
    intros j Hj.
    assert (Hcell6 : forall qx qy, cell_at gr6 qx qy = cell_at gr qx qy)
      by (intros; unfold cell_at; now rewrite Hgrid, Hsize).
    rewrite Hcell6.
    destruct (place_neuron_cell_at _ _ _ _ _ _ _ _ _ Hinv Hp)
      as (_ & _ & _ & Hnew).
    rewrite Hnew. cbn [fill_move move_x move_y].
    rewrite !wrap_nonneg by lia. rewrite fill_index, Hcells, Hlen by exact Hj.
    destruct (Nat.eqb_spec j k) as [-> | Hne].
    + replace (k <? S k)%nat with true
        by (symmetry; apply Nat.ltb_lt; lia).
      reflexivity.
    + destruct (Nat.ltb_spec j k), (Nat.ltb_spec j (S k));
        try reflexivity; lia.
Qed.

(** X19. [max_turns] is never consulted. For every [k] up to 361, the
    number of cells, the player who fills the board row by row reaches a
    session with turn counter [k], [k] neurons, no winner, and
    [max_turns] still 100: the counter runs past the limit and the game
    goes on. *)
Theorem turn_counter_passes_max_turns
        (simple_cycles : Graph -> option (list (list nat))) (k : nat) :
  (k <= 361)%nat ->
  reachable simple_cycles (session_filled simple_cycles k)
  /\ turn (session_filled simple_cycles k) = k
  /\ length (neurons (game_grid (session_filled simple_cycles k))) = k
  /\ max_turns (session_filled simple_cycles k) = 100%nat
  /\ winner (session_filled simple_cycles k) = None.
Proof.
  intros Hk.
  destruct (session_filled_inv simple_cycles k Hk) as (Hr & Ht & Hl & _).
  repeat split; auto.
  - now destruct (reachable_counters _ _ Hr).
  - now apply (reachable_no_winner simple_cycles).
Qed.

Lemma turn_counter_passes_max_turns_witness :
  turn (session_filled simple_cycles_unsupported 101) = 101%nat
  /\ max_turns (session_filled simple_cycles_unsupported 101) = 100%nat.
Proof.
  destruct (turn_counter_passes_max_turns simple_cycles_unsupported 101)
    as (_ & Ht & _ & Hm & _).
  - lia.
  - split; [exact Ht | exact Hm].
Defined.

Lemma occupied_row_full (row : list (option nat)) :
  occupied_row row = length row -> Forall (fun c => c <> None) row.
Proof.
  induction row as [| c row IH]; intros H; [constructor |].
  pose proof (occupied_row_le row) as Hle.
  unfold occupied_row in *. destruct c as [k |]; simpl in H.
  - constructor; [discriminate | apply IH; lia].
  - lia.
Qed.

Lemma occupied_full (sz : nat) (cells : list (list (option nat))) :
  Forall (fun row => length row = sz) cells ->
  occupied cells = length cells * sz ->
  Forall (fun row => Forall (fun c => c <> None) row) cells.
Proof.
  induction 1 as [| row cells Hrow Hcols IH]; intros H; [constructor |].
  unfold occupied in *. simpl in H.
  pose proof (occupied_row_le row) as Hle.
  assert (Hrest : list_sum (map occupied_row cells) <= length cells * sz).
  { clear - Hcols. induction Hcols as [| r cs Hr _ IH]; simpl; [lia |].
    pose proof (occupied_row_le r). lia. }
  constructor.
  - apply occupied_row_full. lia.
  - apply IH. lia.
Qed.

(** On a full grid every cell holds a neuron. *)
Lemma full_grid_cell (sz : nat) (g : ConsciousnessGrid) (px py : Z) :
  grid_inv sz g -> occupied (grid g) = sz * sz ->
  valid_index sz px = true -> valid_index sz py = true ->
  exists k, cell_at g (wrap sz px) (wrap sz py) = Some (Some k).
Proof.
  intros Hinv Hfull Hx Hy.
  destruct (getitem_cell sz g px py Hinv Hx Hy)
    as (row & c & Hrow & _ & _ & Hc & _ & Hcell).
  pose proof (occupied_full sz (grid g) (inv_cols _ _ Hinv)) as Hall.
  rewrite (inv_rows _ _ Hinv) in Hall. specialize (Hall Hfull).
  rewrite Forall_forall in Hall.
  pose proof (Hall _ (nth_error_In _ _ Hrow)) as Hr.
  rewrite Forall_forall in Hr.
  pose proof (Hr _ (nth_error_In _ _ Hc)) as Hne.
  destruct c as [k |]; [eauto | congruence].
Qed.

(** X20. On a full board, that is in any session that can be reached with
    all 361 cells occupied, every move with a resolvable type and valid
    coordinates, by whatever player, is answered [invalid_move] and changes
    nothing; the session holds 361 neurons and has no winner, so that no
    move can end the game. The board filled row by row is such a
    session. *)
Theorem full_board_refuses_every_move
        (simple_cycles : Graph -> option (list (list nat)))
        (g : ConsciousnessEmergenceGame) (pid : string) (m : Move)
        (t : NeuronType) :
  reachable simple_cycles g ->
  occupied (grid (game_grid g)) = 361%nat ->
  NeuronType_of_name (upper (move_type m)) = Some t ->
  valid_index 19 (move_x m) = true -> valid_index 19 (move_y m) = true ->
  play_turn simple_cycles g pid m
  = (g, Return (invalid_move "position_occupied"))
  /\ winner g = None
  /\ length (neurons (game_grid g)) = 361%nat.
Proof.
  intros Hr Hfull Ht Hx Hy.
  destruct (reachable_inv _ _ Hr) as [Hinv Hw].
  split; [| split; [exact Hw | now rewrite <- (inv_occupied _ _ Hinv)]].
  assert (Hty : truthy (winner g) = None) by now rewrite Hw.
  destruct (full_grid_cell 19 (game_grid g) _ _ Hinv Hfull Hx Hy)
    as (k & Hcell).
  rewrite (play_turn_not_placed simple_cycles g pid m t (game_grid g)
                                (Return None) Hty Ht);
    [reflexivity | | congruence].
  now apply (place_neuron_occupied 19 _ _ _ _ _ _ k).
Qed.

Lemma session_filled_full
      (simple_cycles : Graph -> option (list (list nat))) :
  reachable simple_cycles (session_filled simple_cycles 361)
  /\ occupied (grid (game_grid (session_filled simple_cycles 361)))
     = 361%nat.
Proof.
  destruct (session_filled_inv simple_cycles 361 (Nat.le_refl _))
    as (Hr & _ & Hlen & _).
  split; [exact Hr |].
  destruct (reachable_inv _ _ Hr) as [Hinv _].
  now rewrite (inv_occupied _ _ Hinv).
Qed.

Lemma full_board_refuses_every_move_witness :
  play_turn simple_cycles_unsupported
            (session_filled simple_cycles_unsupported 361) "q"
            (mkMove (-3) 7 "Memory" None)
  = (session_filled simple_cycles_unsupported 361,
     Return (invalid_move "position_occupied"))
  /\ winner (session_filled simple_cycles_unsupported 361) = None
  /\ length (neurons (game_grid (session_filled simple_cycles_unsupported 361)))
     = 361%nat.
Proof.
  destruct (session_filled_full simple_cycles_unsupported) as [Hr Hfull].
  apply (full_board_refuses_every_move simple_cycles_unsupported _ "q"
           (mkMove (-3) 7 "Memory" None) MEMORY Hr Hfull);
    reflexivity.
Defined.

(** ** Scoring twice *)

(** X23. Scoring twice is scoring once: a second call of the scorer, right
    after the first, gives the same outcome and leaves the grid as the
    first call left it, on any grid. *)
Theorem calculate_consciousness_level_idempotent
        (simple_cycles : Graph -> option (list (list nat)))
        (g : ConsciousnessGrid) :
  calculate_consciousness_level
    simple_cycles (fst (calculate_consciousness_level simple_cycles g))
  = calculate_consciousness_level simple_cycles g.
Proof.
  unfold calculate_consciousness_level at 2 3.
  destruct (length (neurons g) <? 5)%nat eqn:E5.
  { cbn [fst]. unfold calculate_consciousness_level. now rewrite E5. }
  destruct (1 <? length (neurons g))%nat eqn:E1.
  - destruct (average_clustering (network g)) as [c |] eqn:Hc.
    2:{ cbn [fst]. unfold calculate_consciousness_level.
        now rewrite E5, E1, Hc. }
    cbn [fst]. unfold calculate_consciousness_level.
    cbn [neurons network size grid]. rewrite E5, E1, Hc. reflexivity.
  - cbn [fst]. unfold calculate_consciousness_level.
    cbn [neurons network size grid]. rewrite E5, E1. reflexivity.
Qed.
